(** * The finance chatbot of [f_app.py]: retrieval, threshold decision,
      domain gate, generated fallback, corpus loading and the [/chat] endpoint.

    The development embeds the Python functions [rag_answer], [chat] and the
    start-up half of [initialize_app] as Rocq functions over
    - Python strings as lists of Unicode code points,
    - Python floats as the kernel's binary64 numbers ([PrimFloat.float]),
    - the metadata dictionaries of the vector index as finite maps,
    - the external collaborators (embedding service, vector index, chat
      completion service) as a record of oracles, every call and every
      [print] being recorded in a trace.  *)

From Stdlib Require Import ZArith NArith Lia Bool Floats.
From stdpp Require Import base tactics option list strings gmap.

Set Warnings "-inexact-float".

(** ** Python strings *)

(** A [str] is a sequence of code points. *)
Definition char := N.
Definition str := list char.

(** String literals of this file are UTF-8; [py] decodes them. *)
Fixpoint utf8_decode (bytes : list N) : str :=
  match bytes with
  | [] => []
  | b0 :: r0 =>
    if (b0 <? 128)%N then b0 :: utf8_decode r0
    else match r0 with
    | [] => []
    | b1 :: r1 =>
      if (b0 <? 224)%N then ((b0 mod 32) * 64 + b1 mod 64)%N :: utf8_decode r1
      else match r1 with
      | [] => []
      | b2 :: r2 =>
        if (b0 <? 240)%N
        then ((b0 mod 16) * 4096 + (b1 mod 64) * 64 + b2 mod 64)%N :: utf8_decode r2
        else match r2 with
        | [] => []
        | b3 :: r3 =>
          ((b0 mod 8) * 262144 + (b1 mod 64) * 4096 + (b2 mod 64) * 64 + b3 mod 64)%N
            :: utf8_decode r3
        end
      end
    end
  end.

Definition py (literal : string) : str :=
  utf8_decode (Ascii.N_of_ascii <$> String.list_ascii_of_string literal).

Definition newline : str := [10%N].
Definition dquote : str := [34%N].

(** [c.isspace()]: the code points [str.strip] removes. *)
Definition isspace (c : char) : bool :=
  ((9 <=? c) && (c <=? 13) || (28 <=? c) && (c <=? 32) || (c =? 133) || (c =? 160)
   || (c =? 5760) || (8192 <=? c) && (c <=? 8202) || (c =? 8232) || (c =? 8233)
   || (c =? 8239) || (c =? 8287) || (c =? 12288))%N.

Fixpoint lstrip (s : str) : str :=
  match s with
  | [] => []
  | c :: s' => if isspace c then lstrip s' else s
  end.

Definition rstrip (s : str) : str := reverse (lstrip (reverse s)).

(** [s.strip()] *)
Definition strip (s : str) : str := rstrip (lstrip s).

(** [bool(s)] *)
Definition str_truthy (s : str) : bool :=
  match s with [] => false | _ :: _ => true end.

(** [a == b] on strings *)
Definition str_eqb (a b : str) : bool := bool_decide (a = b).

Fixpoint startswith (s prefix : str) {struct prefix} : bool :=
  match prefix, s with
  | [], _ => true
  | _ :: _, [] => false
  | p :: prefix', c :: s' => (p =? c)%N && startswith s' prefix'
  end.

(** [sub in s] *)
Fixpoint contains (s sub : str) : bool :=
  startswith s sub ||
  match s with
  | [] => false
  | _ :: s' => contains s' sub
  end.

(** [sep.join(parts)] *)
Fixpoint join (sep : str) (parts : list str) : str :=
  match parts with
  | [] => []
  | [p] => p
  | p :: parts' => p ++ sep ++ join sep parts'
  end.

(** The interpreter's Unicode tables: which code points the pattern [\d]
    matches (category Nd), and the case mappings behind [str.lower] and
    [str.upper].  Every statement below holds for any tables. *)
Class Unicode := {
  isdecimal : char → bool;
  lower : str → str;
  upper : str → str;
}.

(** Tables restricted to the Basic Latin block (and the Devanagari digits);
    the other code points are caseless there.  Used to run the model on
    concrete inputs. *)
Definition latin_isdecimal (c : char) : bool :=
  ((48 <=? c) && (c <=? 57) || (2406 <=? c) && (c <=? 2415))%N.
Definition latin_lower_char (c : char) : char :=
  if ((65 <=? c) && (c <=? 90))%N then (c + 32)%N else c.
Definition latin_upper_char (c : char) : char :=
  if ((97 <=? c) && (c <=? 122))%N then (c - 32)%N else c.

Definition latin_tables : Unicode := {|
  isdecimal := latin_isdecimal;
  lower := fmap latin_lower_char;
  upper := fmap latin_upper_char;
|}.

(** ** [re.findall(r'\d+', s)] *)

Section Regex.
Context {U : Unicode}.

Fixpoint take_digits (s : str) : str :=
  match s with
  | c :: s' => if isdecimal c then c :: take_digits s' else []
  | [] => []
  end.

Fixpoint drop_digits (s : str) : str :=
  match s with
  | c :: s' => if isdecimal c then drop_digits s' else s
  | [] => []
  end.

(** The scan of the regex engine: at each position the greedy match of
    [\d+] is tried; a match is reported and the scan resumes after it,
    otherwise the scan moves one code point on.  [fuel] bounds the number
    of positions visited. *)
Fixpoint findall_digits_from (fuel : nat) (s : str) : list str :=
  match fuel with
  | O => []
  | S fuel' =>
    match s with
    | [] => []
    | c :: s' =>
      if isdecimal c
      then take_digits s :: findall_digits_from fuel' (drop_digits s)
      else findall_digits_from fuel' s'
    end
  end.

Definition re_findall_digits (s : str) : list str :=
  findall_digits_from (length s) s.

End Regex.


(** ** Python floats *)

(** [bool(x)]: every float but the two zeros is true ([nan] included). *)
Definition float_truthy (x : float) : bool := negb (x =? 0)%float.

(** The nearest integer to [num / den], ties to the even one
    ([0 <= num], [0 < den]). *)
Definition round_half_even_div (num den : Z) : Z :=
  let q := (num / den)%Z in
  match (2 * (num mod den) ?= den)%Z with
  | Lt => q
  | Gt => (q + 1)%Z
  | Eq => if Z.even q then q else (q + 1)%Z
  end.

(** [round(x, ndigits)] for a float [x] and a small [ndigits >= 0]: the
    exact value of [x] is rounded to [ndigits] decimal places, ties to even,
    and the decimal obtained is converted back to the nearest float; the
    sign is kept; zeros, infinities and [nan] round to themselves. *)
Definition py_round (x : float) (ndigits : nat) : float :=
  match Prim2SF x with
  | S754_finite s m e =>
    let scale := (10 ^ Z.of_nat ndigits)%Z in
    let n := if (0 <=? e)%Z then (Zpos m * 2 ^ e * scale)%Z
             else round_half_even_div (Zpos m * scale) (2 ^ (- e)) in
    match n with
    | Zpos _ =>
      let '(q, e', l) := SFdiv_core_binary prec emax n 0 scale 0 in
      SF2Prim (binary_round_aux prec emax s q e' l)
    | _ => SF2Prim (S754_zero s)
    end
  | _ => x
  end.


(** ** Data model *)

(** A metadata payload of the index is a Python [dict] from strings to
    strings. *)
Abbreviation Meta := (gmap str str).
Abbreviation Embedding := (list float).

(** One stored entry of the collection, as [collection.add] receives it. *)
Record IndexedVector := {
  vec_id : str;
  vec_document : str;
  vec_metadata : Meta;
  vec_embedding : Embedding;
}.

(** What [collection.query] returns for [include=["documents", "metadatas",
    "distances"]]: per query embedding, three parallel lists. *)
Record QueryResult := {
  documents : list (list str);
  metadatas : list (list Meta);
  distances : list (list float);
}.

(** The arguments of [client.chat.completions.create]: the model, the
    content of the single user message, and the temperature when given. *)
Record ChatRequest := {
  chat_model : str;
  user_content : str;
  temperature : option float;
}.

(** An item of [json_data.json]. *)
Record Variants := { english : str; hinglish : str; hindi : str }.
Record CorpusEntry := {
  item_id : str;
  item_question : Variants;
  item_answer : Variants;
}.

(** The pydantic models of the endpoint. *)
Record QueryRequest := {
  question : str;
  similarity_threshold : option float;
}.
Record QueryResponse := {
  status : str;
  user_query : str;
  bot_response : str;
  similarity_score : option float;
}.

(** ** Exceptions, events and the effect monad *)

Inductive Exn :=
| ServiceError (message : str)
| KeyError (key : str)
| IndexError
| TypeError
| HTTPException (status_code : N) (detail : Detail)
with Detail :=
| DetailText (text : str)
| ErrorProcessingQuery (cause : Exn).

Inductive Result (A : Type) :=
| Returned (a : A)
| Raised (e : Exn).
Arguments Returned {A} a.
Arguments Raised {A} e.

Inductive Call :=
| EmbeddingsCreate (model input : str)
| CollectionCount
| CollectionAdd (v : IndexedVector)
| CollectionQuery (query_embeddings : list Embedding) (n_results : nat)
| ChatCompletionsCreate (request : ChatRequest).

(** The lines the program prints, with the values formatted into them. *)
Inductive Line :=
| DataStored
| AlreadyPopulated
| TopMatchedQuestion (top_doc : str)
| Distance (top_distance : float)
| SimilarityThreshold (threshold : option float)
| CheckingIf (top_distance bound : float)
| MatchFound (lang : str)
| NoExactMatch
| FinanceCheckResult (is_finance_related : str)
| GeneratingAnswer.

Inductive Event :=
| Called (c : Call)
| Printed (l : Line).

(** The external collaborators.  The embedding service and the chat
    completion service answer a request or raise; the nearest-neighbour
    search of the collection answers from the stored vectors or raises. *)
Record Services := {
  embeddings_create : str → str → Result Embedding;
  collection_query : list IndexedVector → list Embedding → nat → Result QueryResult;
  chat_completions_create : ChatRequest → Result str;
}.

(** A run starts from the vectors stored in the collection and yields the
    events in order, the value returned or the exception raised, and the
    vectors stored at its end. *)
Record Outcome (A : Type) := {
  trace : list Event;
  result : Result A;
  stored : list IndexedVector;
}.
Arguments trace {A} _.
Arguments result {A} _.
Arguments stored {A} _.

Definition Py (A : Type) : Type := list IndexedVector → Outcome A.

Definition ret {A} (a : A) : Py A :=
  λ σ, {| trace := []; result := Returned a; stored := σ |}.

Definition raise {A} (e : Exn) : Py A :=
  λ σ, {| trace := []; result := Raised e; stored := σ |}.

Definition bind {A B} (m : Py A) (k : A → Py B) : Py B :=
  λ σ,
    let o := m σ in
    match result o with
    | Raised e => {| trace := trace o; result := Raised e; stored := stored o |}
    | Returned a =>
      let o' := k a (stored o) in
      {| trace := trace o ++ trace o'; result := result o'; stored := stored o' |}
    end.

#[export] Instance Py_ret : MRet Py := @ret.
#[export] Instance Py_bind : MBind Py := λ A B k m, bind m k.

(** [try: body except Exception as e: handler(e)] *)
Definition try_except {A} (body : Py A) (handler : Exn → Py A) : Py A :=
  λ σ,
    let o := body σ in
    match result o with
    | Returned a => o
    | Raised e =>
      let o' := handler e (stored o) in
      {| trace := trace o ++ trace o'; result := result o'; stored := stored o' |}
    end.

Definition print (l : Line) : Py unit :=
  λ σ, {| trace := [Printed l]; result := Returned tt; stored := σ |}.

(** [l[i]] *)
Definition getindex {A} (l : list A) (i : nat) : Py A :=
  match l !! i with
  | Some x => ret x
  | None => raise IndexError
  end.

(** [d[key]] *)
Definition getitem (d : Meta) (key : str) : Py str :=
  match d !! key with
  | Some v => ret v
  | None => raise (KeyError key)
  end.

(** [1 - similarity_threshold]; pydantic hands [None] through for a JSON
    [null], and the subtraction then raises. *)
Definition one_minus (threshold : option float) : Py float :=
  match threshold with
  | Some t => ret (1 - t)%float
  | None => raise TypeError
  end.

(** [for x in xs: body(x)] *)
Fixpoint for_each {A} (xs : list A) (body : A → Py unit) : Py unit :=
  match xs with
  | [] => ret tt
  | x :: xs' => body x ;; for_each xs' body
  end.

(** The calls (and the lines printed) of a trace, in order. *)
Definition calls (t : list Event) : list Call :=
  omap (λ ev, match ev with Called c => Some c | Printed _ => None end) t.
Definition printed (t : list Event) : list Line :=
  omap (λ ev, match ev with Printed l => Some l | Called _ => None end) t.
Definition chat_calls (t : list Event) : list ChatRequest :=
  omap (λ ev, match ev with Called (ChatCompletionsCreate r) => Some r | _ => None end) t.

(** ** The program *)

Definition folio_keywords : list str :=
  [py "folio"; py "folio number"; py "फोलियो"; py "फोलियो नंबर"].

Definition folio_refusal : str :=
  py "Sorry, I can't provide information about folio numbers.".
Definition no_similar_question : str :=
  py "No similar question found in the dataset.".
Definition domain_refusal : str :=
  py "I'm sorry, I can only answer questions related to finance, stock market, and investments. Please ask a finance-related question.".

(** The f-string [finance_check_prompt]. *)
Definition finance_check_prompt (user_query : str) : str :=
  newline
  ++ py "You are a financial domain classifier. Determine if the following question is related to finance, stock market, investments, mutual funds, trading, banking, or financial services."
  ++ newline ++ newline
  ++ py "Question: " ++ user_query ++ newline ++ newline
  ++ py "Answer with ONLY " ++ dquote ++ py "YES" ++ dquote
  ++ py " if it's finance-related, or " ++ dquote ++ py "NO" ++ dquote
  ++ py " if it's not finance-related. No explanation needed." ++ newline.

(** One element of [contexts]. *)
Definition context_block (doc answer_english answer_hindi : str) : str :=
  py "Q: " ++ doc ++ newline ++ py "A (English): " ++ answer_english
  ++ newline ++ py "A (Hindi): " ++ answer_hindi.

(** The f-string [prompt] of the generated fallback. *)
Definition generation_prompt (context_text user_query : str) : str :=
  newline
  ++ py "You are a helpful financial assistant. Use the following context to answer the user query about finance."
  ++ newline ++ newline ++ py "Context:" ++ newline ++ context_text
  ++ newline ++ newline ++ py "User Query: " ++ user_query ++ newline ++ newline
  ++ py "Answer in a clear and natural way. Focus only on financial information."
  ++ newline.

(** The request of the Domain Classifier and the request of the Answer
    Generator. *)
Definition classifier_request (user_query : str) : ChatRequest :=
  {| chat_model := py "gpt-4o-mini";
     user_content := finance_check_prompt user_query;
     temperature := Some 0%float |}.
Definition generator_request (context_text user_query : str) : ChatRequest :=
  {| chat_model := py "gpt-4o-mini";
     user_content := generation_prompt context_text user_query;
     temperature := None |}.

Section Program.
Context {U : Unicode} (svc : Services).

(** [client.embeddings.create(model=..., input=text).data[0].embedding] *)
Definition get_embedding (text : str) : Py Embedding :=
  λ σ, {| trace := [Called (EmbeddingsCreate (py "text-embedding-3-small") text)];
          result := embeddings_create svc (py "text-embedding-3-small") text;
          stored := σ |}.

(** [collection.query(query_embeddings=..., n_results=..., include=...)] *)
Definition query (query_embeddings : list Embedding) (n_results : nat) : Py QueryResult :=
  λ σ, {| trace := [Called (CollectionQuery query_embeddings n_results)];
          result := collection_query svc σ query_embeddings n_results;
          stored := σ |}.

(** [client.chat.completions.create(...).choices[0].message.content] *)
Definition chat_completion (request : ChatRequest) : Py str :=
  λ σ, {| trace := [Called (ChatCompletionsCreate request)];
          result := chat_completions_create svc request;
          stored := σ |}.

(** [collection.count()] and [collection.add(...)] of one vector.  The
    collection keeps one vector per id: an add under an id it holds already
    is ignored. *)
Definition count : Py nat :=
  λ σ, {| trace := [Called CollectionCount]; result := Returned (length σ); stored := σ |}.
Definition add (v : IndexedVector) : Py unit :=
  λ σ, {| trace := [Called (CollectionAdd v)]; result := Returned tt;
          stored := if bool_decide (vec_id v ∈ vec_id <$> σ) then σ else σ ++ [v] |}.

(** [any(keyword.lower() in user_query.lower() for keyword in folio_keywords)] *)
Definition mentions_folio (user_query : str) : bool :=
  existsb (λ keyword, contains (lower user_query) (lower keyword)) folio_keywords.

(** The loop of the folio number check; [true] when it returns the refusal. *)
Fixpoint folio_check (user_query : str) (numbers : list str) : bool :=
  match numbers with
  | [] => false
  | num :: numbers' =>
    if (7 <? length num)%nat && mentions_folio user_query then true
    else folio_check user_query numbers'
  end.

(** The loop that fills [contexts] in the generated fallback. *)
Fixpoint collect_contexts (results : QueryResult) (indices : list nat)
    (contexts : list str) : Py (list str) :=
  match indices with
  | [] => ret contexts
  | i :: indices' =>
    docs ← getindex (documents results) 0;
    doc ← getindex docs i;
    metas ← getindex (metadatas results) 0;
    meta ← getindex metas i;
    answer_english ← getitem meta (py "answer_english");
    answer_hindi ← getitem meta (py "answer_hindi");
    collect_contexts results indices'
      (contexts ++ [context_block doc answer_english answer_hindi])
  end.

(** Lines 139-188: the domain gate and the generated fallback. *)
Definition gpt_fallback (user_query : str) (results : QueryResult)
    (top_distance : float) : Py (str * float) :=
  print NoExactMatch;;
  finance_check ← chat_completion (classifier_request user_query);
  let is_finance_related := upper (strip finance_check) in
  print (FinanceCheckResult is_finance_related);;
  if negb (str_eqb is_finance_related (py "YES"))
  then ret (domain_refusal, 0%float)
  else
    print GeneratingAnswer;;
    docs ← getindex (documents results) 0;
    contexts ← collect_contexts results (seq 0 (length docs)) [];
    let context_text := join (newline ++ newline) contexts in
    response ← chat_completion (generator_request context_text user_query);
    ret (response, (1 - top_distance)%float).

(** Lines 129-137: the answer of the match branch, [None] when the branch
    is not taken or ends without a [return]. *)
Definition match_branch (meta : Meta) (top_distance bound : float)
    : Py (option (str * float)) :=
  if (top_distance <=? bound)%float then
    lang ← getitem meta (py "language");
    print (MatchFound lang);;
    if str_eqb lang (py "english") then
      answer ← getitem meta (py "answer_english");
      ret (Some (answer, (1 - top_distance)%float))
    else if str_eqb lang (py "hindi") then
      answer ← getitem meta (py "answer_hindi");
      ret (Some (answer, (1 - top_distance)%float))
    else if str_eqb lang (py "hinglish") then
      answer ← getitem meta (py "answer_hinglish");
      ret (Some (answer, (1 - top_distance)%float))
    else ret None
  else ret None.

Definition rag_answer (user_query : str) (similarity_threshold : option float)
    : Py (str * float) :=
  (* Folio number check *)
  let numbers := re_findall_digits user_query in
  if folio_check user_query numbers then ret (folio_refusal, 0%float)
  else
    (* Embed user query *)
    query_emb ← get_embedding user_query;
    (* Retrieve top 2 relevant results *)
    results ← query [query_emb] 2;
    (* Handle no results *)
    docs ← getindex (documents results) 0;
    if negb (bool_decide (docs ≠ [])) then ret (no_similar_question, 0%float)
    else
      dists ← getindex (distances results) 0;
      top_distance ← getindex dists 0;
      metas ← getindex (metadatas results) 0;
      meta ← getindex metas 0;
      docs ← getindex (documents results) 0;
      top_doc ← getindex docs 0;
      print (TopMatchedQuestion top_doc);;
      print (Distance top_distance);;
      print (SimilarityThreshold similarity_threshold);;
      bound ← one_minus similarity_threshold;
      print (CheckingIf top_distance bound);;
      bound ← one_minus similarity_threshold;
      returned ← match_branch meta top_distance bound;
      match returned with
      | Some answer => ret answer
      | None =>
        (* GPT fallback with finance filter *)
        gpt_fallback user_query results top_distance
      end.

(** The [/chat] endpoint. *)
Definition chat (query : QueryRequest) : Py QueryResponse :=
  try_except
    (if negb (str_truthy (question query)) || negb (str_truthy (strip (question query)))
     then raise (HTTPException 400 (DetailText (py "Question cannot be empty")))
     else
       r ← rag_answer (question query) (similarity_threshold query);
       let '(answer, similarity) := r in
       ret {| status := py "success";
              user_query := question query;
              bot_response := answer;
              similarity_score :=
                if float_truthy similarity then Some (py_round similarity 4) else None |})
    (λ e, raise (HTTPException 500 (ErrorProcessingQuery e))).

(** The metadata dictionary stored with a vector. *)
Definition answers_metadata (item : CorpusEntry) (lang : str) : Meta :=
  list_to_map
    [(py "answer_english", english (item_answer item));
     (py "answer_hinglish", hinglish (item_answer item));
     (py "answer_hindi", hindi (item_answer item));
     (py "language", lang)].

(** The start-up half of the lifespan handler [initialize_app], from the
    loaded [data] on. *)
Definition initialize_app (data : list CorpusEntry) : Py unit :=
  n ← count;
  if (n =? 0)%nat then
    for_each data (λ item,
      let q_eng := english (item_question item) in
      let q_hing := hinglish (item_question item) in
      let q_hin := hindi (item_question item) in
      for_each [(py "english", q_eng); (py "hinglish", q_hing); (py "hindi", q_hin)]
        (λ '(lang, q_text),
          if str_truthy (strip q_text) then
            emb ← get_embedding q_text;
            add {| vec_id := item_id item ++ py "_" ++ lang;
                   vec_document := q_text;
                   vec_metadata := answers_metadata item lang;
                   vec_embedding := emb |}
          else ret tt));;
    print DataStored
  else print AlreadyPopulated.

End Program.

(** The HTTP status the framework answers with. *)
Definition http_status (r : Result QueryResponse) : N :=
  match r with
  | Returned _ => 200
  | Raised (HTTPException status_code _) => status_code
  | Raised _ => 500
  end.


(** ** The notions the statements are written in *)

Arguments py : simpl never.

(** [sub] occurs in [s] as a block of consecutive code points. *)
Definition infix_of (sub s : str) : Prop := ∃ before after, s = before ++ sub ++ after.

(** [prepend t o]: the outcome [o] after the events [t]. *)
Definition prepend {A : Type} (t : list Event) (o : Outcome A) : Outcome A :=
  {| trace := t ++ trace o; result := result o; stored := stored o |}.

(** [emits P m]: every event of every run of [m] satisfies [P]. *)
Definition emits {A : Type} (P : Event → Prop) (m : Py A) : Prop :=
  ∀ σ, Forall P (trace (m σ)).

Definition not_match_found (ev : Event) : Prop :=
  ∀ lang, ev ≠ Printed (MatchFound lang).

(** The language tags the match branch knows. *)
Definition known_language (lang : str) : Prop :=
  lang = py "english" ∨ lang = py "hindi" ∨ lang = py "hinglish".

(** The metadata key of the answer variant of a language tag. *)
Definition answer_key (lang : str) : str := py "answer_" ++ lang.

(** The nearest neighbour of a query result: the heads of the three
    parallel lists of the first query embedding. *)
Definition top_neighbor (results : QueryResult) (doc : str) (meta : Meta)
    (d : float) : Prop :=
  ∃ docs metas dists,
    documents results !! 0 = Some (doc :: docs)
    ∧ metadatas results !! 0 = Some (meta :: metas)
    ∧ distances results !! 0 = Some (d :: dists).

(** The events of a run up to the threshold decision. *)
Definition threshold_prefix (q : str) (emb : Embedding) (doc : str)
    (d t : float) : list Event :=
  [Called (EmbeddingsCreate (py "text-embedding-3-small") q);
   Called (CollectionQuery [emb] 2);
   Printed (TopMatchedQuestion doc);
   Printed (Distance d);
   Printed (SimilarityThreshold (Some t));
   Printed (CheckingIf d (1 - t)%float)].

(** The threshold decision yields no answer: the distance is over the
    bound, or the language tag of the neighbour is not a known one. *)
Definition no_answer_from_match (meta : Meta) (d t : float) : Prop :=
  (d <=? 1 - t)%float = false
  ∨ ((d <=? 1 - t)%float = true
     ∧ ∃ lang, meta !! py "language" = Some lang ∧ ¬ known_language lang).

(** The context blocks of the retrieved neighbours: one per document, built
    from the document and the English and Hindi answers of its metadata. *)
Inductive contexts_for : list str → list Meta → list str → Prop :=
| contexts_nil metas : contexts_for [] metas []
| contexts_cons doc docs meta metas answer_english answer_hindi blocks :
    meta !! py "answer_english" = Some answer_english →
    meta !! py "answer_hindi" = Some answer_hindi →
    contexts_for docs metas blocks →
    contexts_for (doc :: docs) (meta :: metas)
      (context_block doc answer_english answer_hindi :: blocks).

Section Notions.
Context {U : Unicode} (svc : Services).

Definition all_decimal (r : str) : Prop := Forall (λ c, isdecimal c = true) r.

(** A maximal digit run of [s]: a non-empty block of decimal digits of [s]
    with no digit just before it and none just after it. *)
Definition maximal_digit_run (s r : str) : Prop :=
  ∃ before after,
    s = before ++ r ++ after ∧ r ≠ [] ∧ all_decimal r
    ∧ (∀ c, last before = Some c → isdecimal c = false)
    ∧ (∀ c, head after = Some c → isdecimal c = false).

(** The question names a folio keyword, whatever the case of its letters. *)
Definition mentions_folio_keyword (q : str) : Prop :=
  ∃ keyword,
    keyword ∈ [py "folio"; py "folio number"; py "फोलियो"; py "फोलियो नंबर"]
    ∧ infix_of (lower keyword) (lower q).

(** Some maximal digit run of the question is longer than seven digits. *)
Definition has_long_digit_run (q : str) : Prop :=
  ∃ r, maximal_digit_run q r ∧ 7 < length r.

(** The outcome of the sensitive-data guard: the refusal, and no event. *)
Definition guard_refusal (σ : list IndexedVector) : Outcome (str * float) :=
  {| trace := []; result := Returned (folio_refusal, 0%float); stored := σ |}.

(** The folio number check lets the question through. *)
Definition guard_passes (q : str) : Prop :=
  folio_check q (re_findall_digits q) = false.

(** The question passes the guard, is embedded as [emb], and the
    collection answers the query for [emb] with [results]. *)
Definition retrieves (σ : list IndexedVector) (q : str) (emb : Embedding)
    (results : QueryResult) : Prop :=
  guard_passes q
  ∧ embeddings_create svc (py "text-embedding-3-small") q = Returned emb
  ∧ collection_query svc σ [emb] 2 = Returned results.

(** What follows the threshold decision in [rag_answer]. *)
Definition after_match (q : str) (results : QueryResult) (d : float)
    (returned : option (str * float)) : Py (str * float) :=
  match returned with
  | Some answer => ret answer
  | None => gpt_fallback svc q results d
  end.

(** The events of the domain gate. *)
Definition gate_events (q response : str) : list Event :=
  [Printed NoExactMatch;
   Called (ChatCompletionsCreate (classifier_request q));
   Printed (FinanceCheckResult (upper (strip response)))].

(** The run of [rag_answer] prints the line of the match branch. *)
Definition match_found (σ : list IndexedVector) (q : str) (t : float)
    (lang : str) : Prop :=
  Printed (MatchFound lang) ∈ trace (rag_answer svc q (Some t) σ).

End Notions.

(** ** A scripted world, to run the program on concrete inputs *)

Definition sample_meta (lang : str) : Meta :=
  list_to_map
    [(py "answer_english", py "A SIP invests a fixed amount at regular intervals.");
     (py "answer_hinglish", py "SIP mein har mahine ek fixed amount invest hota hai.");
     (py "answer_hindi", py "एसआईपी में नियमित अंतराल पर निश्चित राशि निवेश होती है।");
     (py "language", lang)].

Definition sample_results (d : float) (lang : str) : QueryResult :=
  {| documents := [[py "What is SIP?"; py "SIP kya hai?"]];
     metadatas := [[sample_meta lang; sample_meta (py "hinglish")]];
     distances := [[d; 0.95%float]] |}.

Definition sample_embedding : Embedding := [0.25; -0.5; 0.125]%float.

(** Services that embed every text as [sample_embedding], answer every
    query with [results], every request with a temperature (the classifier's)
    with [classifier] and every other request with [generator]. *)
Definition scripted (results : QueryResult) (classifier generator : Result str)
    : Services :=
  {| embeddings_create := λ _ _, Returned sample_embedding;
     collection_query := λ _ _ _, Returned results;
     chat_completions_create := λ request,
       match temperature request with
       | Some _ => classifier
       | None => generator
       end |}.

(** ** What the corpus loader is to store *)

(** What a collection that keeps one vector per id has taken from the adds
    of [vs], in order, when it held vectors under the ids [seen]: the first
    vector of every id it did not hold. *)
Fixpoint keep_first (seen : list str) (vs : list IndexedVector)
    : list IndexedVector :=
  match vs with
  | [] => []
  | v :: vs' =>
    if bool_decide (vec_id v ∈ seen) then keep_first seen vs'
    else v :: keep_first (seen ++ [vec_id v]) vs'
  end.

Section Loader.
Context (svc : Services).

(** The embedding the service answers for a text ([[]] if it raises). *)
Definition embedding_of (text : str) : Embedding :=
  match embeddings_create svc (py "text-embedding-3-small") text with
  | Returned emb => emb
  | Raised _ => []
  end.

(** The vector of one language variant of an item: none when the question
    text is blank, else the one keyed [{id}_{lang}]. *)
Definition variant_vector (item : CorpusEntry) (lang q_text : str)
    : list IndexedVector :=
  if str_truthy (strip q_text)
  then [{| vec_id := item_id item ++ py "_" ++ lang;
           vec_document := q_text;
           vec_metadata := answers_metadata item lang;
           vec_embedding := embedding_of q_text |}]
  else [].

Definition entry_vectors (item : CorpusEntry) : list IndexedVector :=
  variant_vector item (py "english") (english (item_question item))
  ++ variant_vector item (py "hinglish") (hinglish (item_question item))
  ++ variant_vector item (py "hindi") (hindi (item_question item)).

Definition expected_index (data : list CorpusEntry) : list IndexedVector :=
  flat_map entry_vectors data.

(** The embedding service answers for every question text that is not
    blank. *)
Definition embeddable (data : list CorpusEntry) : Prop :=
  ∀ item q_text,
    item ∈ data →
    q_text ∈ [english (item_question item); hinglish (item_question item);
              hindi (item_question item)] →
    str_truthy (strip q_text) = true →
    ∃ emb, embeddings_create svc (py "text-embedding-3-small") q_text = Returned emb.

(** One turn of the inner loop of [initialize_app]. *)
Definition store_variant (item : CorpusEntry) (variant : str * str) : Py unit :=
  let '(lang, q_text) := variant in
  if str_truthy (strip q_text) then
    emb ← get_embedding svc q_text;
    add {| vec_id := item_id item ++ py "_" ++ lang;
           vec_document := q_text;
           vec_metadata := answers_metadata item lang;
           vec_embedding := emb |}
  else ret tt.

(** One turn of the outer loop. *)
Definition store_entry (item : CorpusEntry) : Py unit :=
  for_each [(py "english", english (item_question item));
            (py "hinglish", hinglish (item_question item));
            (py "hindi", hindi (item_question item))]
    (store_variant item).

End Loader.

(** The vectors handed to [collection.add] in a trace, in order. *)
Definition add_calls (t : list Event) : list IndexedVector :=
  omap (λ ev, match ev with Called (CollectionAdd v) => Some v | _ => None end) t.

Definition sample_corpus : list CorpusEntry :=
  [{| item_id := py "q1";
      item_question := {| english := py "What is SIP?"; hinglish := py "SIP kya hai?";
                          hindi := py "एसआईपी क्या है?" |};
      item_answer := {| english := py "A SIP invests a fixed amount at regular intervals.";
                        hinglish := py "SIP mein har mahine ek fixed amount invest hota hai.";
                        hindi := py "एसआईपी में नियमित अंतराल पर निश्चित राशि निवेश होती है।" |} |};
   {| item_id := py "q2";
      item_question := {| english := py "What is NAV?"; hinglish := py "   ";
                          hindi := py "" |};
      item_answer := {| english := py "NAV is the net asset value of a fund unit.";
                        hinglish := py "NAV fund ki ek unit ki keemat hai.";
                        hindi := py "एनएवी फंड की एक यूनिट का मूल्य है।" |} |}].

(** ** Binary64 values as integers *)

(** Every finite binary64 number is a multiple of [2^-1074]; [key] is that
    multiple (and a bound no finite number reaches, for the infinities). *)
Definition key (x : spec_float) : Z :=
  match x with
  | S754_zero _ => 0
  | S754_nan => 0
  | S754_infinity s => cond_Zopp s (2 ^ 2100)
  | S754_finite s m e => cond_Zopp s (Zpos m * 2 ^ (e + 1074))
  end%Z.

(** [M / 2^n] rounded to the nearest integer, ties to even. *)
Definition rne_shift (M n : Z) : Z :=
  let q := (M / 2 ^ n)%Z in
  let r := (M mod 2 ^ n)%Z in
  if (2 ^ n <? 2 * r)%Z || ((2 ^ n =? 2 * r)%Z && Z.odd q) then (q + 1)%Z else q.

(** The binary64 grid around a positive multiple [N] of [2^-1074] has
    spacing [2^grid_shift N]; [round_pos N] is [N] rounded to it. *)
Definition grid_shift (N : Z) : Z := Z.max (Z.log2 N + 1 - 53) 0.
Definition round_pos (N : Z) : Z := (rne_shift N (grid_shift N) * 2 ^ grid_shift N)%Z.
Definition round_key (N : Z) : Z :=
  match N with
  | Z0 => 0%Z
  | Zpos _ => round_pos N
  | Zneg p => (- round_pos (Zpos p))%Z
  end.

(** The largest value of [2^1074 - key t] for a finite [t]. *)
Definition largest_difference : Z :=
  (2 ^ 1074 + (2 ^ 53 - 1) * 2 ^ 2045)%Z.

(** The record the rounding algorithm holds after shifting the mantissa [M]
    right by [n] bits: the quotient, the last bit shifted out, and whether
    any bit shifted out before it was set. *)
Definition shifted (M n : Z) : shr_record :=
  if (n =? 0)%Z then {| shr_m := M; shr_r := false; shr_s := false |}
  else {| shr_m := (M / 2 ^ n)%Z;
          shr_r := Z.testbit M (n - 1);
          shr_s := negb (M mod 2 ^ (n - 1) =? 0)%Z |}.

(** The binary64 number 1.0. *)
Definition SF_one : spec_float := S754_finite false 4503599627370496 (-52).

(** Zeros and finite numbers. *)
Definition is_finite_SF (x : spec_float) : bool :=
  match x with
  | S754_zero _ | S754_finite _ _ _ => true
  | _ => false
  end.


(** * Notions for the properties of the whole program *)

(** A computation that leaves the index as it found it and never calls
    [collection.add]. *)
Definition read_only {A : Type} (m : Py A) : Prop :=
  ∀ σ, stored (m σ) = σ ∧ add_calls (trace (m σ)) = [].

(** [calls_in S m]: the calls of every run of [m], in order, form a list
    of [S]. *)
Definition calls_in {A : Type} (S : list Call → Prop) (m : Py A) : Prop :=
  ∀ σ, S (calls (trace (m σ))).

(** A computation that calls no service. *)
Definition silent {A : Type} (m : Py A) : Prop :=
  ∀ σ, calls (trace (m σ)) = [].

(** The four calls a run of [rag_answer] on the question [q] can make, in
    their order, [emb] being the embedding of the question; a run makes the
    first few of them. *)
Definition full_run (q : str) (emb : Embedding) (context_text : str) : list Call :=
  [EmbeddingsCreate (py "text-embedding-3-small") q;
   CollectionQuery [emb] 2;
   ChatCompletionsCreate (classifier_request q);
   ChatCompletionsCreate (generator_request context_text q)].

Definition call_budget (q : str) (emb : Embedding) (l : list Call) : Prop :=
  ∃ context_text, l `prefix_of` full_run q emb context_text.

(** The calls a run on the question [q] may make, given what the embedding
    service answers for [q]: the first few of the four calls, the query
    being made with the embedding returned; the embedding call at most, if
    the service raises. *)
Definition calls_allowed (svc : Services) (q : str) (l : list Call) : Prop :=
  match embeddings_create svc (py "text-embedding-3-small") q with
  | Returned emb => call_budget q emb l
  | Raised _ => l `prefix_of` [EmbeddingsCreate (py "text-embedding-3-small") q]
  end.

(** A string of whitespace only (the empty string among them). *)
Definition whitespace_only (s : str) : Prop := Forall (λ c, isspace c = true) s.

(** What the caller of [/chat] gets for a question the validation refuses:
    the 400 of the validation, wrapped by the handler of the endpoint. *)
Definition blank_rejection (σ : list IndexedVector) : Outcome QueryResponse :=
  {| trace := [];
     result := Raised (HTTPException 500 (ErrorProcessingQuery
                 (HTTPException 400 (DetailText (py "Question cannot be empty")))));
     stored := σ |}.

(** Services that answer every embedding request with [embedding], every
    query with [neighbours], every request with a temperature (the
    classifier's) with [classifier] and every other request with
    [generator]. *)
Definition scripted_services (embedding : Result Embedding)
    (neighbours : Result QueryResult) (classifier generator : Result str)
    : Services :=
  {| embeddings_create := λ _ _, embedding;
     collection_query := λ _ _ _, neighbours;
     chat_completions_create := λ request,
       match temperature request with
       | Some _ => classifier
       | None => generator
       end |}.

(** A metadata dictionary with a language tag and no answer. *)
Definition tag_only_meta (lang : str) : Meta := {[ py "language" := lang ]}.

(** The events of a run with a [null] threshold up to the subtraction that
    fails. *)
Definition null_threshold_events (q : str) (emb : Embedding) (doc : str)
    (d : float) : list Event :=
  [Called (EmbeddingsCreate (py "text-embedding-3-small") q);
   Called (CollectionQuery [emb] 2);
   Printed (TopMatchedQuestion doc);
   Printed (Distance d);
   Printed (SimilarityThreshold None)].

(** [returns P m]: every value a run of [m] returns satisfies [P]. *)
Definition returns {A : Type} (P : A → Prop) (m : Py A) : Prop :=
  ∀ σ a, result (m σ) = Returned a → P a.

(** A query result with one neighbour. *)
Definition one_neighbour (meta : Meta) (d : float) : QueryResult :=
  {| documents := [[py "What is SIP?"]];
     metadatas := [[meta]];
     distances := [[d]] |}.

(** ** The corpus loader under failures *)

(** The embedding service answers for the question text of a vector. *)
Definition embedded (svc : Services) (v : IndexedVector) : Prop :=
  ∃ emb, embeddings_create svc (py "text-embedding-3-small") (vec_document v)
         = Returned emb.

(** [loads svc vs m]: a run of the loop [m] hands vectors of [vs] to
    [collection.add] in their order and nothing else: all of them if it
    returns; if it raises, the ones before the first whose question text the
    embedding service refuses, and the exception is the one of the service.
    The index takes from them the first vector of every id that is new. *)
Definition loads (svc : Services) (vs : list IndexedVector) (m : Py unit) : Prop :=
  ∀ σ, ∃ added,
    stored (m σ) = σ ++ keep_first (vec_id <$> σ) added
    ∧ add_calls (trace (m σ)) = added
    ∧ printed (trace (m σ)) = []
    ∧ Forall (embedded svc) added
    ∧ match result (m σ) with
      | Returned _ => added = vs
      | Raised e =>
        ∃ v rest,
          vs = added ++ v :: rest
          ∧ embeddings_create svc (py "text-embedding-3-small") (vec_document v)
            = Raised e
      end.

(** The language tags of the loader, in the order of its inner loop. *)
Definition languages : list str := [py "english"; py "hinglish"; py "hindi"].

(** Services like [scripted], but for the embedding of [text], which is
    refused. *)
Definition refusing (text : str) : Services :=
  {| embeddings_create := λ _ input,
       if bool_decide (input = text) then Raised (ServiceError (py "rate limit"))
       else Returned sample_embedding;
     collection_query := λ _ _ _, Returned (sample_results 0.1%float (py "english"));
     chat_completions_create := λ _, Returned (py "YES") |}.

(** The key of the variant of an item in a language. *)
Definition vector_key (id lang : str) : str := id ++ py "_" ++ lang.

(** The first vector of the load of [sample_corpus]. *)
Definition first_sample_vector : IndexedVector :=
  {| vec_id := py "q1_english";
     vec_document := py "What is SIP?";
     vec_metadata := sample_meta (py "english");
     vec_embedding := sample_embedding |}.

(** ** The [/status] endpoint *)

(** The values the endpoint passes to its response model. *)
Inductive Value :=
| VStr (s : str)
| VInt (n : Z).

(** The fields of a pydantic model, in order: a field declared without a
    default is required. *)
Definition ModelFields : Type := list (str * option Value).

(** [class HealthResponse(BaseModel)]: [status: str], [question: str],
    [database_count: int]. *)
Definition HealthResponse_fields : ModelFields :=
  [(py "status", None); (py "question", None); (py "database_count", None)].

(** The constructor of a model, called with keywords: every field takes the keyword of its name or, without
    one, its default; a required field without a keyword is reported
    missing; a keyword that names no field is ignored.  The result is the
    names of the missing fields and the values of the others.  (Every
    keyword the program passes has the declared type of its field, so the
    validation of types is left out.) *)
Fixpoint model_new (fields : ModelFields) (kwargs : gmap str Value)
    : list str * list (str * Value) :=
  match fields with
  | [] => ([], [])
  | (name, default) :: fields' =>
    let '(missing, values) := model_new fields' kwargs in
    match kwargs !! name, default with
    | Some v, _ => (missing, (name, v) :: values)
    | None, Some v => (missing, (name, v) :: values)
    | None, None => (name :: missing, values)
    end
  end.

(** What a run of [health_check] raises inside its [try], and what the
    caller gets: the model built, or the [HTTPException] of the handler with
    its status and the exception it formats into the detail. *)
Inductive StatusError :=
| ValidationError (missing : list str)
| CountError (e : Exn).

Inductive StatusOutcome :=
| StatusReturned (fields : list (str * Value))
| StatusRaised (status_code : N) (cause : StatusError).

(** [health_check], lines 203-213.  [collection] is [None] before the
    start-up, else the answer of [collection.count()] (an object of the
    index is true in a condition). *)
Definition health_check (collection : option (Result nat)) : StatusOutcome :=
  let db_count :=
    match collection with
    | Some counted => counted
    | None => Returned 0
    end in
  match db_count with
  | Raised e => StatusRaised 500 (CountError e)
  | Returned n =>
    match model_new HealthResponse_fields
            (list_to_map [(py "status", VStr (py "working"));
                          (py "message", VStr (py "API is running smoothly"));
                          (py "database_count", VInt (Z.of_nat n))]) with
    | ([], values) => StatusReturned values
    | (missing, _) => StatusRaised 500 (ValidationError missing)
    end
  end.

(** Both sides of an equation between strings, read from their ends. *)
Ltac reversed H :=
  apply (f_equal reverse) in H; rewrite !reverse_app in H;
  cbn [reverse rev_append app] in H.


(** * Strings *)


Lemma startswith_spec (s prefix : str) :
  startswith s prefix = true ↔ ∃ after, s = prefix ++ after.
Proof.
  revert s; induction prefix as [|p prefix IH]; intros s; simpl.
  - split; [intros _; by exists s | done].
  - destruct s as [|c s]; simpl.
    + split; [done | intros [after H]; discriminate].
    + rewrite andb_true_iff, N.eqb_eq, IH. split.
      * intros [-> [after ->]]. by exists after.
      * intros [after H]. injection H as -> ->. eauto.
Qed.

Lemma contains_spec (s sub : str) : contains s sub = true ↔ infix_of sub s.
Proof.
  unfold infix_of. induction s as [|c s IH]; simpl.
  - rewrite orb_false_r, startswith_spec. split.
    + intros [after H]. by exists [], after.
    + intros [before [after H]]. destruct before; [by exists after|discriminate].
  - rewrite orb_true_iff, startswith_spec, IH. split.
    + intros [[after H]|[before [after H]]].
      * by exists [], after.
      * exists (c :: before), after. by rewrite H.
    + intros [[|b before] [after H]].
      * left. by exists after.
      * right. injection H as -> ->. by exists before, after.
Qed.

Section RegexFacts.
Context {U : Unicode}.

Lemma all_decimal_head c r : all_decimal (c :: r) → isdecimal c = true.
Proof. intros H. by apply Forall_cons in H as [H _]. Qed.

Lemma take_drop_digits s : take_digits s ++ drop_digits s = s.
Proof. induction s as [|c s IH]; simpl; [done|]. destruct (isdecimal c); simpl; congruence. Qed.

Lemma take_digits_all s : all_decimal (take_digits s).
Proof.
  induction s as [|c s IH]; simpl; [constructor|].
  destruct (isdecimal c) eqn:E; by constructor.
Qed.

Lemma drop_digits_head s c : head (drop_digits s) = Some c → isdecimal c = false.
Proof.
  induction s as [|c' s IH]; simpl; [done|].
  destruct (isdecimal c') eqn:E; simpl; [done|]. by intros [= <-].
Qed.

Lemma drop_digits_length s : length (drop_digits s) ≤ length s.
Proof. induction s as [|c s IH]; simpl; [lia|]. destruct (isdecimal c); simpl; lia. Qed.

(** The greedy match is the only all-digit prefix that no digit follows. *)
Lemma greedy_unique r after :
  all_decimal r → (∀ c, head after = Some c → isdecimal c = false) →
  take_digits (r ++ after) = r ∧ drop_digits (r ++ after) = after.
Proof.
  intros Hr Ha. induction Hr as [|c r Hc Hr IH]; simpl.
  - destruct after as [|a after]; simpl; [done|].
    rewrite (Ha a eq_refl). done.
  - rewrite Hc. destruct IH as [-> ->]. done.
Qed.

(** A prefix that ends in a non-digit hides what follows from the greedy
    match. *)
Lemma take_digits_blocked before rest c :
  last before = Some c → isdecimal c = false →
  take_digits (before ++ rest) = take_digits before
  ∧ drop_digits (before ++ rest) = drop_digits before ++ rest
  ∧ (∀ x, last (drop_digits before) = Some x → last before = Some x)
  ∧ drop_digits before ≠ [].
Proof.
  intros Hl Hc. induction before as [|b before IH]; [done|].
  destruct before as [|b' before].
  - simpl in Hl. injection Hl as ->. simpl. rewrite Hc. done.
  - specialize (IH Hl). destruct IH as (IH1 & IH2 & IH3 & IH4).
    change (take_digits ((b :: b' :: before) ++ rest))
      with (if isdecimal b then b :: take_digits ((b' :: before) ++ rest) else []).
    change (drop_digits ((b :: b' :: before) ++ rest))
      with (if isdecimal b then drop_digits ((b' :: before) ++ rest)
            else b :: (b' :: before) ++ rest).
    change (take_digits (b :: b' :: before))
      with (if isdecimal b then b :: take_digits (b' :: before) else []).
    change (drop_digits (b :: b' :: before))
      with (if isdecimal b then drop_digits (b' :: before) else b :: b' :: before).
    destruct (isdecimal b).
    + rewrite IH1, IH2. done.
    + done.
Qed.

Lemma run_nonempty s r : maximal_digit_run s r → s ≠ [].
Proof.
  intros (before & after & -> & Hr & _). destruct before, r; done.
Qed.

Lemma run_skip c s r :
  isdecimal c = false → maximal_digit_run (c :: s) r ↔ maximal_digit_run s r.
Proof.
  intros Hc. split.
  - intros (before & after & Hs & Hr & Hd & Hb & Ha).
    destruct before as [|b before].
    + destruct r as [|x r]; [done|]. simpl in Hs. injection Hs as <- _.
      apply all_decimal_head in Hd. congruence.
    + simpl in Hs. injection Hs as <- ->.
      exists before, after. split_and!; try done.
      intros x Hx. apply Hb. destruct before; [done|]. done.
  - intros (before & after & -> & Hr & Hd & Hb & Ha).
    exists (c :: before), after. split_and!; try done.
    intros x Hx. destruct before as [|b before].
    + simpl in Hx. congruence.
    + apply Hb. done.
Qed.

Lemma run_greedy c s r :
  isdecimal c = true →
  maximal_digit_run (c :: s) r ↔
  r = take_digits (c :: s) ∨ maximal_digit_run (drop_digits (c :: s)) r.
Proof.
  intros Hc. split.
  - intros (before & after & Hs & Hr & Hd & Hb & Ha).
    destruct (last before) as [x|] eqn:Hl.
    + right. pose proof (Hb x eq_refl) as Hx.
      destruct (take_digits_blocked before (r ++ after) x Hl Hx) as (_ & H2 & H3 & H4).
      rewrite Hs, H2. exists (drop_digits before), after. split_and!; try done.
      intros y Hy. apply Hb. rewrite <- Hl. by apply H3.
    + left. apply last_None in Hl. subst before. simpl in Hs.
      rewrite Hs. symmetry. by apply greedy_unique.
  - intros [->|(before & after & Hs & Hr & Hd & Hb & Ha)].
    + exists [], (drop_digits (c :: s)). split_and!.
      * symmetry. apply take_drop_digits.
      * simpl. by rewrite Hc.
      * apply take_digits_all.
      * done.
      * apply drop_digits_head.
    + exists (take_digits (c :: s) ++ before), after. split_and!; try done.
      * rewrite <- (take_drop_digits (c :: s)) at 1. rewrite Hs. by rewrite <- app_assoc.
      * intros x Hx. destruct before as [|b before].
        -- exfalso. destruct r as [|y r]; [done|].
           pose proof (drop_digits_head (c :: s) y) as Hh.
           rewrite Hs in Hh. specialize (Hh eq_refl).
           apply all_decimal_head in Hd. congruence.
        -- apply Hb. rewrite last_app in Hx.
           destruct (last (b :: before)) eqn:E; [done | by apply last_None in E].
Qed.

Lemma findall_digits_from_spec fuel s r :
  length s ≤ fuel →
  r ∈ findall_digits_from fuel s ↔ maximal_digit_run s r.
Proof.
  revert s. induction fuel as [|fuel IH]; intros s Hlen.
  - destruct s; [|simpl in Hlen; lia]. simpl. split.
    + by intros ?%elem_of_nil.
    + by intros ?%run_nonempty.
  - destruct s as [|c s]; simpl.
    + split; [by intros ?%elem_of_nil | by intros ?%run_nonempty].
    + destruct (isdecimal c) eqn:Hc.
      * rewrite elem_of_cons, run_greedy by done. simpl. rewrite Hc.
        rewrite IH; [done|]. pose proof (drop_digits_length s). simpl in Hlen. lia.
      * rewrite run_skip by done. apply IH. simpl in Hlen. lia.
Qed.

Lemma re_findall_digits_spec s r :
  r ∈ re_findall_digits s ↔ maximal_digit_run s r.
Proof. by apply findall_digits_from_spec. Qed.

End RegexFacts.



(** * Running the monad *)

Lemma trace_prepend {A : Type} t (o : Outcome A) : trace (prepend t o) = t ++ trace o.
Proof. done. Qed.
Lemma result_prepend {A : Type} t (o : Outcome A) : result (prepend t o) = result o.
Proof. done. Qed.
Lemma stored_prepend {A : Type} t (o : Outcome A) : stored (prepend t o) = stored o.
Proof. done. Qed.

Lemma prepend_nil {A : Type} (o : Outcome A) : prepend [] o = o.
Proof. by destruct o. Qed.

Lemma prepend_prepend {A : Type} t1 t2 (o : Outcome A) :
  prepend t1 (prepend t2 o) = prepend (t1 ++ t2) o.
Proof. unfold prepend; simpl. by rewrite app_assoc. Qed.

Lemma run_bind {A B : Type} (m : Py A) (k : A → Py B) σ t a σ' :
  m σ = {| trace := t; result := Returned a; stored := σ' |} →
  (m ≫= k) σ = prepend t (k a σ').
Proof. intros H. unfold mbind, Py_bind, bind. by rewrite H. Qed.

Lemma run_bind_raised {A B : Type} (m : Py A) (k : A → Py B) σ t e σ' :
  m σ = {| trace := t; result := Raised e; stored := σ' |} →
  (m ≫= k) σ = {| trace := t; result := Raised e; stored := σ' |}.
Proof. intros H. unfold mbind, Py_bind, bind. by rewrite H. Qed.

Lemma run_ret {A B : Type} (a : A) (k : A → Py B) σ : (ret a ≫= k) σ = k a σ.
Proof. rewrite (run_bind _ _ _ [] a σ) by done. apply prepend_nil. Qed.

Lemma run_print {B : Type} l (k : unit → Py B) σ :
  (print l ≫= k) σ = prepend [Printed l] (k tt σ).
Proof. by apply run_bind. Qed.

Lemma run_getindex {A B : Type} (l : list A) i x (k : A → Py B) σ :
  l !! i = Some x → (getindex l i ≫= k) σ = k x σ.
Proof. intros H. unfold getindex. rewrite H. apply run_ret. Qed.

Lemma run_getitem {B : Type} (d : Meta) key v (k : str → Py B) σ :
  d !! key = Some v → (getitem d key ≫= k) σ = k v σ.
Proof. intros H. unfold getitem. rewrite H. apply run_ret. Qed.

Lemma run_one_minus {B : Type} t (k : float → Py B) σ :
  (one_minus (Some t) ≫= k) σ = k (1 - t)%float σ.
Proof. apply run_ret. Qed.

Section Runs.
Context {U : Unicode} (svc : Services).

Lemma run_get_embedding {B : Type} text emb (k : Embedding → Py B) σ :
  embeddings_create svc (py "text-embedding-3-small") text = Returned emb →
  (get_embedding svc text ≫= k) σ
  = prepend [Called (EmbeddingsCreate (py "text-embedding-3-small") text)] (k emb σ).
Proof. intros H. apply run_bind. unfold get_embedding. by rewrite H. Qed.

Lemma run_query {B : Type} embs n results (k : QueryResult → Py B) σ :
  collection_query svc σ embs n = Returned results →
  (query svc embs n ≫= k) σ = prepend [Called (CollectionQuery embs n)] (k results σ).
Proof. intros H. apply run_bind. unfold query. by rewrite H. Qed.

Lemma run_chat_completion {B : Type} request response (k : str → Py B) σ :
  chat_completions_create svc request = Returned response →
  (chat_completion svc request ≫= k) σ
  = prepend [Called (ChatCompletionsCreate request)] (k response σ).
Proof. intros H. apply run_bind. unfold chat_completion. by rewrite H. Qed.

End Runs.


Section Guard.
Context {U : Unicode} (svc : Services).

Lemma mentions_folio_spec q : mentions_folio q = true ↔ mentions_folio_keyword q.
Proof.
  unfold mentions_folio, mentions_folio_keyword, folio_keywords.
  rewrite existsb_exists. split.
  - intros (k & Hin & Hc). exists k. split; [by apply list_elem_of_In|by apply contains_spec].
  - intros (k & Hin & Hc). exists k. split; [by apply list_elem_of_In|by apply contains_spec].
Qed.

Lemma folio_check_spec q numbers :
  folio_check q numbers = true ↔
  mentions_folio q = true ∧ ∃ num, num ∈ numbers ∧ 7 < length num.
Proof.
  induction numbers as [|num numbers IH]; simpl.
  - split; [done|]. intros (_ & num & Hin & _). by apply elem_of_nil in Hin.
  - destruct (7 <? length num) eqn:Hlen; simpl.
    + apply Nat.ltb_lt in Hlen.
      destruct (mentions_folio q) eqn:Hm.
      * split; [|done]. intros _. split; [done|]. exists num. split; [left|done].
      * rewrite IH. split; intros [? _]; done.
    + apply Nat.ltb_ge in Hlen. rewrite IH. split.
      * intros (Hm & n & Hin & Hn). split; [done|]. exists n. split; [by right|done].
      * intros (Hm & n & Hin & Hn). split; [done|]. exists n. split; [|done].
        apply elem_of_cons in Hin as [->|Hin]; [lia|done].
Qed.

Lemma guard_spec q :
  folio_check q (re_findall_digits q) = true ↔
  mentions_folio_keyword q ∧ has_long_digit_run q.
Proof.
  rewrite folio_check_spec, mentions_folio_spec. unfold has_long_digit_run.
  split; intros (Hm & r & Hr & Hlen); (split; [done|]); exists r;
    (split; [by apply re_findall_digits_spec|done]).
Qed.

Lemma rag_answer_guard q t σ :
  folio_check q (re_findall_digits q) = true → rag_answer svc q t σ = guard_refusal σ.
Proof. intros H. unfold rag_answer. cbv zeta. by rewrite H. Qed.

Lemma rag_answer_embeds q t σ :
  folio_check q (re_findall_digits q) = false →
  head (trace (rag_answer svc q t σ))
  = Some (Called (EmbeddingsCreate (py "text-embedding-3-small") q)).
Proof.
  intros H. unfold rag_answer. cbv zeta. rewrite H.
  destruct (embeddings_create svc (py "text-embedding-3-small") q) as [emb|e] eqn:He.
  - by rewrite (run_get_embedding _ _ _ _ _ He).
  - erewrite run_bind_raised; [|unfold get_embedding; by rewrite He]. done.
Qed.

End Guard.


Section Paths.
Context {U : Unicode} (svc : Services).

Lemma rag_answer_threshold σ q t emb results doc meta d :
  retrieves svc σ q emb results → top_neighbor results doc meta d →
  rag_answer svc q (Some t) σ
  = prepend (threshold_prefix q emb doc d t)
      ((match_branch meta d (1 - t)%float ≫= after_match svc q results d) σ).
Proof.
  intros (Hg & He & Hq) (docs & metas & dists & Hdo & Hme & Hdi).
  unfold rag_answer. cbv zeta. rewrite Hg.
  rewrite (run_get_embedding _ _ _ _ _ He).
  rewrite (run_query _ _ _ _ _ _ Hq).
  rewrite (run_getindex _ _ _ _ _ Hdo).
  rewrite bool_decide_true by done. cbv beta iota. unfold negb.
  rewrite (run_getindex _ _ _ _ _ Hdi).
  rewrite (run_getindex (d :: dists) 0 d) by done.
  rewrite (run_getindex _ _ _ _ _ Hme).
  rewrite (run_getindex (meta :: metas) 0 meta) by done.
  rewrite (run_getindex _ _ _ _ _ Hdo).
  rewrite (run_getindex (doc :: docs) 0 doc) by done.
  rewrite !run_print, !run_one_minus, !run_print, !run_one_minus.
  rewrite !prepend_prepend. reflexivity.
Qed.

Lemma match_branch_no_match {B : Type} meta d bound (k : option (str * float) → Py B) σ :
  (d <=? bound)%float = false → (match_branch meta d bound ≫= k) σ = k None σ.
Proof. intros H. unfold match_branch. rewrite H. apply run_ret. Qed.

Lemma match_branch_unknown {B : Type} meta d bound lang (k : option (str * float) → Py B) σ :
  (d <=? bound)%float = true → meta !! py "language" = Some lang →
  ¬ known_language lang →
  (match_branch meta d bound ≫= k) σ = prepend [Printed (MatchFound lang)] (k None σ).
Proof.
  intros H Hl Hk. unfold match_branch. rewrite H.
  pose proof (run_bind (A:=option (str*float)) (B:=B)) as Hb.
  erewrite Hb; [reflexivity|].
  rewrite (run_getitem _ _ _ _ _ Hl), run_print.
  unfold known_language in Hk. unfold str_eqb.
  rewrite !bool_decide_false by tauto. reflexivity.
Qed.

Lemma match_branch_known {B : Type} meta d bound lang answer (k : option (str * float) → Py B) σ :
  (d <=? bound)%float = true → meta !! py "language" = Some lang →
  known_language lang → meta !! answer_key lang = Some answer →
  (match_branch meta d bound ≫= k) σ
  = prepend [Printed (MatchFound lang)] (k (Some (answer, (1 - d)%float)) σ).
Proof.
  intros H Hl Hk Ha. unfold match_branch. rewrite H.
  erewrite (run_bind (A:=option (str*float)) (B:=B)); [reflexivity|].
  rewrite (run_getitem _ _ _ _ _ Hl), run_print. unfold str_eqb.
  destruct Hk as [->|[->| ->]].
  - rewrite bool_decide_true by done.
    rewrite (run_getitem _ _ _ _ _ Ha). reflexivity.
  - rewrite bool_decide_false by (by vm_compute).
    rewrite bool_decide_true by done.
    rewrite (run_getitem _ _ _ _ _ Ha). reflexivity.
  - rewrite bool_decide_false by (by vm_compute).
    rewrite bool_decide_false by (by vm_compute).
    rewrite bool_decide_true by done.
    rewrite (run_getitem _ _ _ _ _ Ha). reflexivity.
Qed.

End Paths.


Lemma drop_lookup_cons {A : Type} (l : list A) k x rest :
  drop k l = x :: rest → l !! k = Some x ∧ drop (S k) l = rest.
Proof.
  revert k. induction l as [|y l IH]; intros k H.
  - by rewrite drop_nil in H.
  - destruct k as [|k]; simpl in *.
    + injection H as -> ->. split; [done|]. by rewrite drop_0.
    + by apply IH.
Qed.

Lemma infix_of_join sep parts block :
  block ∈ parts → infix_of block (join sep parts).
Proof.
  induction parts as [|p parts IH]; [by intros ?%elem_of_nil|].
  intros [->|Hin]%elem_of_cons.
  - destruct parts as [|p' parts].
    + exists [], []. simpl. by rewrite app_nil_r.
    + exists [], (sep ++ join sep (p' :: parts)). done.
  - destruct parts as [|p' parts]; [by apply elem_of_nil in Hin|].
    destruct (IH Hin) as (before & after & Hj).
    exists (p ++ sep ++ before), after.
    change (join sep (p :: p' :: parts)) with (p ++ sep ++ join sep (p' :: parts)).
    rewrite Hj. by rewrite <- !app_assoc.
Qed.

Lemma infix_of_trans (a b c : str) : infix_of a b → infix_of b c → infix_of a c.
Proof.
  intros (b1 & b2 & ->) (c1 & c2 & ->).
  exists (c1 ++ b1), (b2 ++ c2). by rewrite <- !app_assoc.
Qed.

Lemma infix_of_app_l (a b c : str) : infix_of a b → infix_of a (c ++ b).
Proof. intros (b1 & b2 & ->). exists (c ++ b1), b2. by rewrite <- !app_assoc. Qed.

Lemma infix_of_app_r (a b c : str) : infix_of a b → infix_of a (b ++ c).
Proof. intros (b1 & b2 & ->). exists b1, (b2 ++ c). by rewrite <- !app_assoc. Qed.

Lemma infix_of_refl (a : str) : infix_of a a.
Proof. exists [], []. by rewrite app_nil_r. Qed.

Lemma contexts_for_lookup docs metas blocks i doc meta ae ah :
  contexts_for docs metas blocks →
  docs !! i = Some doc → metas !! i = Some meta →
  meta !! py "answer_english" = Some ae → meta !! py "answer_hindi" = Some ah →
  context_block doc ae ah ∈ blocks.
Proof.
  intros H. revert i. induction H as [|d ds m ms e h bs He Hh _ IH]; intros i Hd Hm Hae Hah.
  - done.
  - destruct i as [|i]; simpl in *.
    + injection Hd as ->. injection Hm as ->.
      rewrite He in Hae. rewrite Hh in Hah. injection Hae as ->. injection Hah as ->. left.
    + right. by eapply IH.
Qed.

Section Fallback.
Context {U : Unicode} (svc : Services).

Lemma collect_contexts_from results alldocs allmetas k blocks acc σ :
  documents results !! 0 = Some alldocs →
  metadatas results !! 0 = Some allmetas →
  contexts_for (drop k alldocs) (drop k allmetas) blocks →
  collect_contexts results (seq k (length (drop k alldocs))) acc σ
  = ret (acc ++ blocks) σ.
Proof.
  intros Hd Hm H. remember (drop k alldocs) as ds eqn:Eds.
  remember (drop k allmetas) as ms eqn:Ems.
  revert k acc Eds Ems.
  induction H as [|d ds m ms e h bs He Hh _ IH]; intros k acc Eds Ems.
  - simpl. by rewrite app_nil_r.
  - symmetry in Eds, Ems.
    apply drop_lookup_cons in Eds as [Hdk Eds].
    apply drop_lookup_cons in Ems as [Hmk Ems].
    change (seq k (length (d :: ds))) with (k :: seq (S k) (length ds)).
    change (collect_contexts results (k :: seq (S k) (length ds)) acc)
      with (docs ← getindex (documents results) 0;
            doc ← getindex docs k;
            metas ← getindex (metadatas results) 0;
            meta ← getindex metas k;
            answer_english ← getitem meta (py "answer_english");
            answer_hindi ← getitem meta (py "answer_hindi");
            collect_contexts results (seq (S k) (length ds))
              (acc ++ [context_block doc answer_english answer_hindi])).
    rewrite (run_getindex _ _ _ _ _ Hd), (run_getindex _ _ _ _ _ Hdk).
    rewrite (run_getindex _ _ _ _ _ Hm), (run_getindex _ _ _ _ _ Hmk).
    rewrite (run_getitem _ _ _ _ _ He), (run_getitem _ _ _ _ _ Hh).
    rewrite IH by done. by rewrite <- app_assoc.
Qed.

Lemma collect_contexts_all results docs metas blocks σ :
  documents results !! 0 = Some docs →
  metadatas results !! 0 = Some metas →
  contexts_for docs metas blocks →
  collect_contexts results (seq 0 (length docs)) [] σ = ret blocks σ.
Proof.
  intros Hd Hm H.
  apply (collect_contexts_from results docs metas 0 blocks [] σ Hd Hm H).
Qed.

Lemma gpt_fallback_refuses q results d response σ :
  chat_completions_create svc (classifier_request q) = Returned response →
  upper (strip response) ≠ py "YES" →
  gpt_fallback svc q results d σ
  = {| trace := gate_events q response;
       result := Returned (domain_refusal, 0%float);
       stored := σ |}.
Proof.
  intros Hc Hn. unfold gpt_fallback. cbv zeta.
  rewrite run_print, (run_chat_completion _ _ _ _ _ Hc), run_print.
  unfold str_eqb. rewrite bool_decide_false by done.
  rewrite !prepend_prepend. reflexivity.
Qed.

Lemma gpt_fallback_generates q results d response docs metas blocks generated σ :
  chat_completions_create svc (classifier_request q) = Returned response →
  upper (strip response) = py "YES" →
  documents results !! 0 = Some docs →
  metadatas results !! 0 = Some metas →
  contexts_for docs metas blocks →
  chat_completions_create svc
    (generator_request (join (newline ++ newline) blocks) q) = Returned generated →
  gpt_fallback svc q results d σ
  = {| trace := gate_events q response
         ++ [Printed GeneratingAnswer;
             Called (ChatCompletionsCreate
                       (generator_request (join (newline ++ newline) blocks) q))];
       result := Returned (generated, (1 - d)%float);
       stored := σ |}.
Proof.
  intros Hc Hy Hd Hm Hb Hg. unfold gpt_fallback. cbv zeta.
  rewrite run_print, (run_chat_completion _ _ _ _ _ Hc), run_print.
  unfold str_eqb. rewrite bool_decide_true by done. cbv beta iota. unfold negb.
  rewrite run_print, (run_getindex _ _ _ _ _ Hd).
  erewrite (run_bind (collect_contexts _ _ _));
    [|by apply (collect_contexts_all _ _ _ _ _ Hd Hm Hb)].
  rewrite (run_chat_completion _ _ _ _ _ Hg).
  rewrite !prepend_prepend. reflexivity.
Qed.

End Fallback.


(** * Traces *)

Lemma bind_assoc {A B C : Type} (m : Py A) (f : A → Py B) (g : B → Py C) σ :
  ((m ≫= f) ≫= g) σ = (m ≫= λ x, f x ≫= g) σ.
Proof.
  unfold mbind, Py_bind, bind.
  destruct (m σ) as [t [a|e] σ']; simpl; [|done].
  destruct (f a σ') as [t' [b|e] σ'']; simpl; [|done].
  by rewrite app_assoc.
Qed.

Lemma emits_ret {A : Type} P (a : A) : emits P (ret a).
Proof. intros σ. constructor. Qed.

Lemma emits_raise {A : Type} P e : emits P (raise (A:=A) e).
Proof. intros σ. constructor. Qed.

Lemma emits_bind {A B : Type} P (m : Py A) (k : A → Py B) :
  emits P m → (∀ a, emits P (k a)) → emits P (m ≫= k).
Proof.
  intros Hm Hk σ. unfold mbind, Py_bind, bind.
  specialize (Hm σ). destruct (m σ) as [t [a|e] σ']; simpl in *; [|done].
  apply Forall_app. split; [done|apply Hk].
Qed.

Lemma emits_print P l : P (Printed l) → emits P (print l).
Proof. intros H σ. by constructor. Qed.

Lemma emits_getindex {A : Type} P (l : list A) i : emits P (getindex l i).
Proof. unfold getindex. destruct (l !! i); [apply emits_ret|apply emits_raise]. Qed.

Lemma emits_getitem (P : Event → Prop) (d : Meta) key : emits P (getitem d key).
Proof. unfold getitem. destruct (d !! key); [apply emits_ret|apply emits_raise]. Qed.

Section Emits.
Context {U : Unicode} (svc : Services).

Lemma emits_chat_completion P request :
  P (Called (ChatCompletionsCreate request)) → emits P (chat_completion svc request).
Proof. intros H σ. by constructor. Qed.

Lemma emits_collect_contexts P results indices acc :
  emits P (collect_contexts results indices acc).
Proof.
  revert acc. induction indices as [|i indices IH]; intros acc.
  - apply emits_ret.
  - simpl. repeat (apply emits_bind; [first [apply emits_getindex|apply emits_getitem]|intros ?]).
    apply IH.
Qed.

Lemma gpt_fallback_emits q results d :
  emits not_match_found (gpt_fallback svc q results d).
Proof.
  unfold gpt_fallback. cbv zeta.
  apply emits_bind; [by apply emits_print|intros _].
  apply emits_bind; [by apply emits_chat_completion|intros finance_check].
  apply emits_bind; [by apply emits_print|intros _].
  destruct (negb _); [apply emits_ret|].
  apply emits_bind; [by apply emits_print|intros _].
  apply emits_bind; [apply emits_getindex|intros docs].
  apply emits_bind; [apply emits_collect_contexts|intros contexts].
  apply emits_bind; [by apply emits_chat_completion|intros response].
  apply emits_ret.
Qed.

Lemma match_branch_prints {B : Type} meta d bound lang (k : option (str * float) → Py B) σ :
  (d <=? bound)%float = true → meta !! py "language" = Some lang →
  ∃ o, (match_branch meta d bound ≫= k) σ = prepend [Printed (MatchFound lang)] o.
Proof.
  intros H Hl. unfold match_branch. rewrite H.
  rewrite bind_assoc, (run_getitem _ _ _ _ _ Hl), bind_assoc, run_print. eauto.
Qed.

End Emits.


(** * Rounding to the binary64 grid is monotone *)

Section RoundingOrder.
Local Open Scope Z_scope.

Lemma pow2_pos n : 0 < 2 ^ n ∨ (n < 0 ∧ 2 ^ n = 0).
Proof.
  destruct (Z_lt_le_dec n 0) as [H|H].
  - right. split; [done|]. by apply Z.pow_neg_r.
  - left. by apply Z.pow_pos_nonneg.
Qed.

Lemma rne_shift_bounds M n :
  M / 2 ^ n ≤ rne_shift M n ≤ M / 2 ^ n + 1.
Proof. unfold rne_shift. destruct (_ || _); lia. Qed.

Lemma rne_shift_mono M1 M2 n :
  0 ≤ n → 0 ≤ M1 ≤ M2 → rne_shift M1 n ≤ rne_shift M2 n.
Proof.
  intros Hn HM.
  assert (0 < 2 ^ n) as Hp by (by apply Z.pow_pos_nonneg).
  pose proof (Z.div_mod M1 (2 ^ n) ltac:(lia)) as E1.
  pose proof (Z.div_mod M2 (2 ^ n) ltac:(lia)) as E2.
  pose proof (Z.mod_pos_bound M1 (2 ^ n) Hp) as B1.
  pose proof (Z.mod_pos_bound M2 (2 ^ n) Hp) as B2.
  assert (M1 / 2 ^ n ≤ M2 / 2 ^ n) as Hq by (apply Z.div_le_mono; lia).
  unfold rne_shift.
  set (q1 := M1 / 2 ^ n) in *. set (q2 := M2 / 2 ^ n) in *.
  set (r1 := M1 mod 2 ^ n) in *. set (r2 := M2 mod 2 ^ n) in *.
  set (P := 2 ^ n) in *.
  destruct (Z.eq_dec q1 q2) as [Heq|Hne].
  - rewrite <- Heq in *. assert (r1 ≤ r2) by nia.
    destruct (Z.ltb_spec P (2 * r1)), (Z.ltb_spec P (2 * r2)),
      (Z.eqb_spec P (2 * r1)), (Z.eqb_spec P (2 * r2)); simpl;
      destruct (Z.odd q1); simpl; lia.
  - destruct (_ || _), (_ || _); lia.
Qed.

Lemma grid_shift_nonneg N : 0 ≤ grid_shift N.
Proof. unfold grid_shift. lia. Qed.

Lemma grid_shift_mono N1 N2 : N1 ≤ N2 → grid_shift N1 ≤ grid_shift N2.
Proof. intros H. unfold grid_shift. pose proof (Z.log2_le_mono N1 N2 H). lia. Qed.

Lemma round_pos_lower N :
  0 < N → 0 < grid_shift N → 2 ^ 52 * 2 ^ grid_shift N ≤ round_pos N.
Proof.
  intros HN Hk. unfold round_pos.
  pose proof (rne_shift_bounds N (grid_shift N)) as Hb.
  assert (0 < 2 ^ grid_shift N) as Hp by (apply Z.pow_pos_nonneg; lia).
  assert (2 ^ 52 ≤ N / 2 ^ grid_shift N); [|nia].
  apply Z.div_le_lower_bound; [done|].
  destruct (Z.log2_spec N HN) as [Hlo _].
  unfold grid_shift in *.
  replace (Z.max (Z.log2 N + 1 - 53) 0) with (Z.log2 N - 52) in * by lia.
  rewrite <- Z.pow_add_r by lia.
  replace (Z.log2 N - 52 + 52) with (Z.log2 N) by lia. done.
Qed.

Lemma round_pos_upper N :
  0 < N → round_pos N ≤ 2 ^ 53 * 2 ^ grid_shift N.
Proof.
  intros HN. unfold round_pos.
  pose proof (rne_shift_bounds N (grid_shift N)) as Hb.
  pose proof (grid_shift_nonneg N) as Hk.
  assert (0 < 2 ^ grid_shift N) as Hp by (apply Z.pow_pos_nonneg; lia).
  assert (N / 2 ^ grid_shift N < 2 ^ 53); [|nia].
  apply Z.div_lt_upper_bound; [done|].
  destruct (Z.log2_spec N HN) as [_ Hhi].
  eapply Z.lt_le_trans; [exact Hhi|].
  rewrite <- Z.pow_add_r by lia.
  apply Z.pow_le_mono_r; [lia|]. unfold grid_shift. lia.
Qed.

Lemma round_pos_pos N : 0 < N → 0 < round_pos N.
Proof.
  intros HN. unfold round_pos.
  pose proof (grid_shift_nonneg N) as Hk.
  assert (0 < 2 ^ grid_shift N) as Hp by (apply Z.pow_pos_nonneg; lia).
  pose proof (rne_shift_bounds N (grid_shift N)) as Hb.
  destruct (Z.eq_dec (grid_shift N) 0) as [H0|H0].
  - rewrite H0 in *. rewrite Z.pow_0_r, Z.div_1_r in *. lia.
  - pose proof (round_pos_lower N HN ltac:(lia)) as Hl. unfold round_pos in Hl.
    assert (0 < 2 ^ 52) by done. nia.
Qed.

Lemma round_pos_mono N1 N2 : 0 < N1 ≤ N2 → round_pos N1 ≤ round_pos N2.
Proof.
  intros [H1 H12].
  pose proof (grid_shift_mono N1 N2 H12) as Hk.
  pose proof (grid_shift_nonneg N1) as Hk1.
  destruct (Z.eq_dec (grid_shift N1) (grid_shift N2)) as [Heq|Hne].
  - unfold round_pos. rewrite <- Heq.
    assert (0 < 2 ^ grid_shift N1) by (apply Z.pow_pos_nonneg; lia).
    pose proof (rne_shift_mono N1 N2 (grid_shift N1) Hk1 ltac:(lia)). nia.
  - pose proof (round_pos_upper N1 H1) as Hu.
    pose proof (round_pos_lower N2 ltac:(lia) ltac:(lia)) as Hl.
    assert (2 ^ 53 * 2 ^ grid_shift N1 ≤ 2 ^ 52 * 2 ^ grid_shift N2); [|lia].
    rewrite <- !Z.pow_add_r by lia. apply Z.pow_le_mono_r; lia.
Qed.

Lemma round_key_mono N1 N2 : N1 ≤ N2 → round_key N1 ≤ round_key N2.
Proof.
  intros H. destruct N1 as [|p1|p1], N2 as [|p2|p2]; simpl; try lia.
  - pose proof (round_pos_pos (Z.pos p2)). lia.
  - apply round_pos_mono. lia.
  - pose proof (round_pos_pos (Z.pos p1)). lia.
  - pose proof (round_pos_pos (Z.pos p1)). pose proof (round_pos_pos (Z.pos p2)). lia.
  - pose proof (round_pos_mono (Z.pos p2) (Z.pos p1)). lia.
Qed.

Lemma round_pos_largest : round_pos largest_difference = (2 ^ 53 - 1) * 2 ^ 2045.
Proof. by vm_compute. Qed.

End RoundingOrder.


(** * The order of binary64 numbers is the order of their keys *)

Section FloatOrder.
Local Open Scope Z_scope.

Lemma digits2_bounds p :
  2 ^ (Z.pos (digits2_pos p) - 1) ≤ Z.pos p < 2 ^ Z.pos (digits2_pos p).
Proof.
  induction p as [p IH|p IH|]; simpl digits2_pos.
  - rewrite Pos2Z.inj_succ. change (Z.pos p~1) with (2 * Z.pos p + 1).
    replace (Z.succ (Z.pos (digits2_pos p)) - 1) with (Z.succ (Z.pos (digits2_pos p) - 1)) by lia.
    rewrite !Z.pow_succ_r by lia.
    revert IH. generalize (2 ^ (Z.pos (digits2_pos p) - 1)) (2 ^ Z.pos (digits2_pos p)). lia.
  - rewrite Pos2Z.inj_succ. change (Z.pos p~0) with (2 * Z.pos p).
    replace (Z.succ (Z.pos (digits2_pos p)) - 1) with (Z.succ (Z.pos (digits2_pos p) - 1)) by lia.
    rewrite !Z.pow_succ_r by lia.
    revert IH. generalize (2 ^ (Z.pos (digits2_pos p) - 1)) (2 ^ Z.pos (digits2_pos p)). lia.
  - simpl. lia.
Qed.

(** The number of binary digits is determined by the bounds. *)
Lemma digits2_unique p d :
  2 ^ (d - 1) ≤ Z.pos p < 2 ^ d → Z.pos (digits2_pos p) = d.
Proof.
  intros [Hlo Hhi]. pose proof (digits2_bounds p) as [Blo Bhi].
  destruct (Z_lt_le_dec d 1) as [Hd|Hd].
  - assert (2 ^ d ≤ 2 ^ 0) by (apply Z.pow_le_mono_r; lia).
    change (2 ^ 0) with 1 in *. lia.
  - destruct (Z.lt_trichotomy (Z.pos (digits2_pos p)) d) as [H|[H|H]]; [|done|].
    + assert (2 ^ Z.pos (digits2_pos p) ≤ 2 ^ (d - 1)) by (apply Z.pow_le_mono_r; lia). lia.
    + assert (2 ^ d ≤ 2 ^ (Z.pos (digits2_pos p) - 1)) by (apply Z.pow_le_mono_r; lia). lia.
Qed.

Lemma bounded_facts m e :
  bounded prec emax m e = true →
  -1074 ≤ e ≤ 971 ∧ Z.pos (digits2_pos m) ≤ 53
  ∧ (-1074 < e → Z.pos (digits2_pos m) = 53).
Proof.
  unfold bounded, canonical_mantissa, fexp, SpecFloat.emin, prec, emax.
  intros [H1 H2]%andb_true_iff. apply Z.eqb_eq in H1. apply Z.leb_le in H2. lia.
Qed.

Lemma bounded_key_range m e :
  bounded prec emax m e = true → 0 < Z.pos m * 2 ^ (e + 1074) < 2 ^ 2098.
Proof.
  intros (He & Hd & _)%bounded_facts. pose proof (digits2_bounds m) as [_ Hhi].
  assert (0 < 2 ^ (e + 1074)) by (apply Z.pow_pos_nonneg; lia).
  split; [lia|].
  assert (2 ^ Z.pos (digits2_pos m) ≤ 2 ^ 53) by (apply Z.pow_le_mono_r; lia).
  assert (2 ^ (e + 1074) ≤ 2 ^ 2045) by (apply Z.pow_le_mono_r; lia).
  change (2 ^ 2098) with (2 ^ 53 * 2 ^ 2045).
  assert (0 < 2 ^ 53) by done. nia.
Qed.

Lemma bounded_key_lt m1 e1 m2 e2 :
  bounded prec emax m1 e1 = true → bounded prec emax m2 e2 = true →
  e1 < e2 → Z.pos m1 * 2 ^ (e1 + 1074) < Z.pos m2 * 2 ^ (e2 + 1074).
Proof.
  intros (He1 & Hd1 & _)%bounded_facts (He2 & _ & Hd2)%bounded_facts Hlt.
  specialize (Hd2 ltac:(lia)).
  pose proof (digits2_bounds m1) as [_ Hhi]. pose proof (digits2_bounds m2) as [Hlo _].
  rewrite Hd2 in Hlo. change (2 ^ (53 - 1)) with (2 ^ 52) in Hlo.
  assert (2 ^ Z.pos (digits2_pos m1) ≤ 2 ^ 53) by (apply Z.pow_le_mono_r; lia).
  assert (0 < 2 ^ (e1 + 1074)) by (apply Z.pow_pos_nonneg; lia).
  assert (2 * 2 ^ (e1 + 1074) ≤ 2 ^ (e2 + 1074)).
  { rewrite <- Z.pow_succ_r by lia. apply Z.pow_le_mono_r; lia. }
  change (2 ^ 53) with (2 * 2 ^ 52) in *. assert (0 < 2 ^ 52) by done. nia.
Qed.

Lemma compare_pos_key m1 e1 m2 e2 :
  bounded prec emax m1 e1 = true → bounded prec emax m2 e2 = true →
  match e1 ?= e2 with
  | Lt => Lt
  | Gt => Gt
  | Eq => Pos.compare_cont Eq m1 m2
  end = (Z.pos m1 * 2 ^ (e1 + 1074) ?= Z.pos m2 * 2 ^ (e2 + 1074)).
Proof.
  intros H1 H2. destruct (Z.compare_spec e1 e2) as [->|Hlt|Hgt].
  - pose proof (bounded_facts _ _ H2) as (He & _).
    assert (0 < 2 ^ (e2 + 1074)) by (apply Z.pow_pos_nonneg; lia).
    change (Pos.compare_cont Eq m1 m2) with (Z.pos m1 ?= Z.pos m2).
    destruct (Z.compare_spec (Z.pos m1) (Z.pos m2)) as [E|E|E]; symmetry.
    + apply Z.compare_eq_iff. congruence.
    + apply Z.compare_lt_iff. nia.
    + apply Z.compare_gt_iff. nia.
  - symmetry. apply Z.compare_lt_iff. by apply bounded_key_lt.
  - symmetry. apply Z.compare_gt_iff. by apply bounded_key_lt.
Qed.

Lemma infinity_key_range : 2 ^ 2098 < 2 ^ 2100.
Proof. by vm_compute. Qed.

Lemma SFcompare_key x y :
  valid_binary x = true → valid_binary y = true →
  x ≠ S754_nan → y ≠ S754_nan →
  SFcompare x y = Some (key x ?= key y).
Proof.
  intros Hx Hy Nx Ny. pose proof infinity_key_range as Hinf.
  assert (∀ a b : Z, a < b → Some Lt = Some (a ?= b)) as HLt.
  { intros a b H. f_equal. symmetry. by apply Z.compare_lt_iff. }
  assert (∀ a b : Z, b < a → Some Gt = Some (a ?= b)) as HGt.
  { intros a b H. f_equal. symmetry. by apply Z.compare_gt_iff. }
  destruct x as [sx|sx| |sx mx ex]; [| |done|];
    (destruct y as [sy|sy| |sy my ey]; [| |done|]);
    simpl in Hx, Hy; unfold SFcompare, key, cond_Zopp;
    try pose proof (bounded_key_range _ _ Hx) as Rx;
    try pose proof (bounded_key_range _ _ Hy) as Ry.
  - done.
  - destruct sy; [apply HGt|apply HLt]; lia.
  - destruct sy; [apply HGt|apply HLt]; lia.
  - destruct sx; [apply HLt|apply HGt]; lia.
  - destruct sx, sy; [by rewrite Z.compare_refl|apply HLt|apply HGt|by rewrite Z.compare_refl]; lia.
  - destruct sx; [apply HLt|apply HGt]; destruct sy; lia.
  - destruct sx; [apply HLt|apply HGt]; lia.
  - destruct sy; [apply HGt|apply HLt]; destruct sx; lia.
  - destruct sx, sy.
    + destruct (Z.compare_spec ex ey) as [->|Hlt|Hgt].
      * pose proof (bounded_facts _ _ Hy) as (He & _).
        assert (0 < 2 ^ (ey + 1074)) by (apply Z.pow_pos_nonneg; lia).
        change (Pos.compare_cont Eq mx my) with (Z.pos mx ?= Z.pos my).
        destruct (Z.compare_spec (Z.pos mx) (Z.pos my)) as [E|E|E]; simpl.
        -- rewrite E. by rewrite Z.compare_refl.
        -- apply HGt. nia.
        -- apply HLt. nia.
      * apply HGt. pose proof (bounded_key_lt _ _ _ _ Hx Hy Hlt). lia.
      * apply HLt. pose proof (bounded_key_lt _ _ _ _ Hy Hx Hgt). lia.
    + apply HLt. lia.
    + apply HGt. lia.
    + f_equal. by apply compare_pos_key.
Qed.

Lemma SFleb_key x y :
  valid_binary x = true → valid_binary y = true →
  SFleb x y = true ↔ x ≠ S754_nan ∧ y ≠ S754_nan ∧ key x ≤ key y.
Proof.
  intros Hx Hy. unfold SFleb.
  assert (x = S754_nan ∨ x ≠ S754_nan) as [->|Nx] by (destruct x; auto).
  { simpl. split; [done|]. by intros [? _]. }
  assert (y = S754_nan ∨ y ≠ S754_nan) as [->|Ny] by (destruct y; auto).
  { destruct x; simpl; (split; [done|]); by intros (_ & ? & _). }
  rewrite (SFcompare_key x y Hx Hy Nx Ny).
  destruct (Z.compare_spec (key x) (key y)); split; try done; intros; try lia;
    split_and!; try done; lia.
Qed.

End FloatOrder.


(** * The shift-and-round step of the binary64 operations *)

Section Shifting.
Local Open Scope Z_scope.

Lemma shr_1_spec m r s :
  0 ≤ m →
  shr_1 {| shr_m := m; shr_r := r; shr_s := s |}
  = {| shr_m := m / 2; shr_r := Z.odd m; shr_s := r || s |}.
Proof.
  intros Hm. rewrite <- Z.div2_div.
  destruct m as [|p|p]; [done| |lia]. by destruct p.
Qed.

Lemma mod_pow2_split M n :
  1 ≤ n →
  M mod 2 ^ n = M mod 2 ^ (n - 1) + 2 ^ (n - 1) * Z.b2z (Z.testbit M (n - 1)).
Proof.
  intros Hn.
  assert (0 < 2 ^ (n - 1)) as Hp by (apply Z.pow_pos_nonneg; lia).
  replace (2 ^ n) with (2 ^ (n - 1) * 2).
  - rewrite Z.rem_mul_r by lia. by rewrite Z.testbit_spec' by lia.
  - rewrite Z.mul_comm, <- Z.pow_succ_r by lia. f_equal. lia.
Qed.

Lemma shr_1_shifted M n :
  0 ≤ M → 0 ≤ n → shr_1 (shifted M n) = shifted M (n + 1).
Proof.
  intros HM Hn. unfold shifted.
  destruct (Z.eqb_spec (n + 1) 0) as [|_]; [lia|].
  destruct (Z.eqb_spec n 0) as [->|Hn0].
  - rewrite shr_1_spec by done.
    change (0 + 1 - 1) with 0. change (2 ^ (0 + 1)) with 2. change (2 ^ 0) with 1.
    by rewrite Z.bit0_odd, Z.mod_1_r.
  - assert (0 < 2 ^ n) as Hp by (apply Z.pow_pos_nonneg; lia).
    rewrite shr_1_spec by (apply Z.div_pos; lia).
    f_equal.
    + rewrite Z.div_div by lia. f_equal.
      rewrite Z.mul_comm, <- Z.pow_succ_r by lia. done.
    + replace (n + 1 - 1) with n by lia.
      by rewrite Z.testbit_odd, Z.shiftr_div_pow2.
    + replace (n + 1 - 1) with n by lia.
      rewrite (mod_pow2_split M n) by lia.
      pose proof (Z.mod_pos_bound M (2 ^ (n - 1)) ltac:(apply Z.pow_pos_nonneg; lia)).
      assert (0 < 2 ^ (n - 1)) by (apply Z.pow_pos_nonneg; lia).
      destruct (Z.testbit M (n - 1)); simpl Z.b2z.
      * simpl. symmetry. apply negb_true_iff, Z.eqb_neq. lia.
      * simpl. by rewrite Z.mul_0_r, Z.add_0_r.
Qed.

Lemma iter_pos_shifted M p n :
  0 ≤ M → 0 ≤ n → SpecFloat.iter_pos shr_1 p (shifted M n) = shifted M (n + Z.pos p).
Proof.
  intros HM. revert n. induction p as [p IH|p IH|]; intros n Hn; simpl.
  - rewrite shr_1_shifted, !IH by lia. f_equal. lia.
  - rewrite !IH by lia. f_equal. lia.
  - by apply shr_1_shifted.
Qed.

Lemma shr_shifted M e n :
  0 ≤ M →
  shr (shr_record_of_loc M loc_Exact) e n = (shifted M (Z.max n 0), e + Z.max n 0).
Proof.
  intros HM. change (shr_record_of_loc M loc_Exact) with (shifted M 0).
  destruct n as [|p|p]; simpl.
  - by rewrite Z.add_0_r.
  - by rewrite iter_pos_shifted.
  - by rewrite Z.add_0_r.
Qed.

Lemma round_shifted M n :
  0 ≤ M → 0 ≤ n →
  round_nearest_even (shr_m (shifted M n)) (loc_of_shr_record (shifted M n))
  = rne_shift M n.
Proof.
  intros HM Hn. unfold shifted, rne_shift.
  destruct (Z.eqb_spec n 0) as [->|Hn0].
  - simpl. change (2 ^ 0) with 1. rewrite Z.div_1_r, Z.mod_1_r. done.
  - assert (0 < 2 ^ (n - 1)) as Hp by (apply Z.pow_pos_nonneg; lia).
    assert (2 ^ n = 2 * 2 ^ (n - 1)) as Hpow.
    { rewrite <- Z.pow_succ_r by lia. f_equal. lia. }
    rewrite (mod_pow2_split M n) by lia.
    pose proof (Z.mod_pos_bound M (2 ^ (n - 1)) Hp) as Hlow.
    cbv zeta. unfold loc_of_shr_record, shr_m, round_nearest_even.
    destruct (Z.testbit M (n - 1)); simpl Z.b2z;
      destruct (Z.eqb_spec (M mod 2 ^ (n - 1)) 0) as [E|E]; simpl negb; cbv iota.
    + rewrite E. replace (2 ^ n <? 2 * (0 + 2 ^ (n - 1) * 1)) with false
        by (symmetry; apply Z.ltb_ge; lia).
      replace (2 ^ n =? 2 * (0 + 2 ^ (n - 1) * 1)) with true
        by (symmetry; apply Z.eqb_eq; lia).
      simpl. rewrite <- Z.negb_odd. by destruct (Z.odd (M / 2 ^ n)).
    + replace (2 ^ n <? 2 * (M mod 2 ^ (n - 1) + 2 ^ (n - 1) * 1)) with true
        by (symmetry; apply Z.ltb_lt; lia). done.
    + rewrite E. replace (2 ^ n <? 2 * (0 + 2 ^ (n - 1) * 0)) with false
        by (symmetry; apply Z.ltb_ge; lia).
      replace (2 ^ n =? 2 * (0 + 2 ^ (n - 1) * 0)) with false
        by (symmetry; apply Z.eqb_neq; lia). done.
    + replace (2 ^ n <? 2 * (M mod 2 ^ (n - 1) + 2 ^ (n - 1) * 0)) with false
        by (symmetry; apply Z.ltb_ge; lia).
      replace (2 ^ n =? 2 * (M mod 2 ^ (n - 1) + 2 ^ (n - 1) * 0)) with false
        by (symmetry; apply Z.eqb_neq; lia). done.
Qed.

End Shifting.


(** * Rounding a mantissa and an exponent to binary64 *)

Section BinaryRound.
Local Open Scope Z_scope.

Lemma fexp64 x : fexp prec emax x = Z.max (x - 53) (-1074).
Proof. reflexivity. Qed.

Lemma iter_xO p q : Z.pos (Pos.iter xO p q) = Z.pos p * 2 ^ Z.pos q.
Proof.
  induction q as [|q IH] using Pos.peano_ind.
  - simpl. lia.
  - rewrite Pos.iter_succ, Pos2Z.inj_succ, Z.pow_succ_r by lia.
    change (Z.pos (Pos.iter xO p q)~0) with (2 * Z.pos (Pos.iter xO p q)).
    rewrite IH. lia.
Qed.

Lemma shl_align_spec p e e' :
  Z.pos (shl_align p e e').1 = Z.pos p * 2 ^ (e - Z.min e e')
  ∧ (shl_align p e e').2 = Z.min e e'.
Proof.
  unfold shl_align. destruct (e' - e) as [|q|q] eqn:E; simpl.
  - replace (Z.min e e') with e by lia. rewrite Z.sub_diag. lia.
  - replace (Z.min e e') with e by lia. rewrite Z.sub_diag. lia.
  - replace (Z.min e e') with e' by lia. rewrite iter_xO.
    split; [|done]. do 2 f_equal. lia.
Qed.

Lemma rne_shift_exact a k : 0 ≤ k → rne_shift (a * 2 ^ k) k = a.
Proof.
  intros Hk. assert (0 < 2 ^ k) as Hp by (by apply Z.pow_pos_nonneg).
  unfold rne_shift. rewrite Z.div_mul, Z.mod_mul by lia. cbv zeta.
  replace (2 ^ k <? 2 * 0) with false by (symmetry; apply Z.ltb_ge; lia).
  replace (2 ^ k =? 2 * 0) with false by (symmetry; apply Z.eqb_neq; lia).
  done.
Qed.

Lemma rne_shift_scale M n j :
  0 ≤ n → 0 ≤ j → rne_shift (M * 2 ^ j) (n + j) = rne_shift M n.
Proof.
  intros Hn Hj.
  assert (0 < 2 ^ n) as Hpn by (by apply Z.pow_pos_nonneg).
  assert (0 < 2 ^ j) as Hpj by (by apply Z.pow_pos_nonneg).
  unfold rne_shift. rewrite Z.pow_add_r by done.
  rewrite Z.div_mul_cancel_r by lia.
  rewrite Z.mul_mod_distr_r by lia. cbv zeta.
  replace (2 ^ n * 2 ^ j <? 2 * (M mod 2 ^ n * 2 ^ j)) with (2 ^ n <? 2 * (M mod 2 ^ n)).
  2:{ destruct (Z.ltb_spec (2 ^ n) (2 * (M mod 2 ^ n))); symmetry;
        [apply Z.ltb_lt|apply Z.ltb_ge]; nia. }
  replace (2 ^ n * 2 ^ j =? 2 * (M mod 2 ^ n * 2 ^ j)) with (2 ^ n =? 2 * (M mod 2 ^ n)).
  2:{ destruct (Z.eqb_spec (2 ^ n) (2 * (M mod 2 ^ n))); symmetry;
        [apply Z.eqb_eq|apply Z.eqb_neq]; nia. }
  done.
Qed.

(** The two shifts of [binary_round_aux] on an exact mantissa. *)
Lemma binary_round_aux_exact s M e :
  0 < M →
  binary_round_aux prec emax s M e loc_Exact
  = let n1 := Z.max (fexp prec emax (Zdigits2 M + e) - e) 0 in
    let Q := rne_shift M n1 in
    let e1 := e + n1 in
    let n2 := Z.max (fexp prec emax (Zdigits2 Q + e1) - e1) 0 in
    match shr_m (shifted Q n2) with
    | Z0 => S754_zero s
    | Z.pos m =>
      if e1 + n2 <=? emax - prec then S754_finite s m (e1 + n2) else S754_infinity s
    | Z.neg _ => S754_nan
    end.
Proof.
  intros HM. unfold binary_round_aux, shr_fexp.
  rewrite shr_shifted by lia.
  rewrite round_shifted by lia.
  rewrite shr_shifted.
  - reflexivity.
  - pose proof (rne_shift_bounds M (Z.max (fexp prec emax (Zdigits2 M + e) - e) 0)).
    assert (0 ≤ M / 2 ^ Z.max (fexp prec emax (Zdigits2 M + e) - e) 0); [|lia].
    apply Z.div_pos; [lia|]. apply Z.pow_pos_nonneg; lia.
Qed.


Lemma log2_scaled p e :
  -1074 ≤ e →
  Z.log2 (Z.pos p * 2 ^ (e + 1074)) + 1 = Z.pos (digits2_pos p) + e + 1074.
Proof.
  intros He. pose proof (digits2_bounds p) as [Hlo Hhi].
  assert (0 < 2 ^ (e + 1074)) as Hp by (apply Z.pow_pos_nonneg; lia).
  assert (Z.log2 (Z.pos p * 2 ^ (e + 1074))
          = (Z.pos (digits2_pos p) - 1) + (e + 1074)) as ->; [|lia].
  apply Z.log2_unique; [lia|].
  replace (Z.succ (Z.pos (digits2_pos p) - 1 + (e + 1074)))
    with (Z.pos (digits2_pos p) + (e + 1074)) by lia.
  rewrite (Z.pow_add_r 2 (Z.pos (digits2_pos p) - 1) (e + 1074)) by lia.
  rewrite (Z.pow_add_r 2 (Z.pos (digits2_pos p)) (e + 1074)) by lia.
  nia.
Qed.

Lemma binary_round_key s p e :
  -1074 ≤ e →
  round_pos (Z.pos p * 2 ^ (e + 1074)) < 2 ^ 2098 →
  ∃ m' e',
    binary_round prec emax s p e = S754_finite s m' e'
    ∧ Z.pos m' * 2 ^ (e' + 1074) = round_pos (Z.pos p * 2 ^ (e + 1074)).
Proof.
  intros He Hov.
  set (d := Z.pos (digits2_pos p)).
  set (N := Z.pos p * 2 ^ (e + 1074)) in *.
  set (e0 := Z.max (d + e - 53) (-1074)).
  assert (0 < N) as HN.
  { unfold N. assert (0 < 2 ^ (e + 1074)) by (apply Z.pow_pos_nonneg; lia). lia. }
  assert (grid_shift N = e0 + 1074) as Hk.
  { unfold grid_shift, N. rewrite log2_scaled by done. fold d. lia. }
  unfold binary_round. rewrite fexp64. fold d. fold e0.
  pose proof (shl_align_spec p e e0) as [Hmz Hez].
  destruct (shl_align p e e0) as [mz ez]. simpl in Hmz, Hez. rewrite <- Hez in Hmz.
  assert (-1074 ≤ ez ≤ e0) as Hezr by lia.
  assert (0 < 2 ^ (ez + 1074)) as Hpz by (apply Z.pow_pos_nonneg; lia).
  assert (0 < 2 ^ (e - ez)) as Hpe by (apply Z.pow_pos_nonneg; lia).
  assert (N = Z.pos mz * 2 ^ (ez + 1074)) as HNmz.
  { unfold N. rewrite Hmz, <- Z.mul_assoc, <- Z.pow_add_r by lia.
    do 2 f_equal. lia. }
  assert (Z.pos (digits2_pos mz) = d + (e - ez)) as Hdz.
  { apply digits2_unique. pose proof (digits2_bounds p) as [Hlo Hhi]. fold d in Hlo, Hhi.
    rewrite Hmz. replace (d + (e - ez) - 1) with ((d - 1) + (e - ez)) by lia.
    rewrite (Z.pow_add_r 2 (d - 1) (e - ez)), (Z.pow_add_r 2 d (e - ez)) by lia.
    nia. }
  rewrite binary_round_aux_exact by lia. cbv zeta.
  change (Zdigits2 (Z.pos mz)) with (Z.pos (digits2_pos mz)).
  rewrite fexp64, Hdz.
  replace (Z.max (Z.max (d + (e - ez) + ez - 53) (-1074) - ez) 0) with (e0 - ez) by lia.
  replace (ez + (e0 - ez)) with e0 by lia.
  assert (rne_shift (Z.pos mz) (e0 - ez) = rne_shift N (grid_shift N)) as HQ.
  { rewrite Hk, HNmz. replace (e0 + 1074) with ((e0 - ez) + (ez + 1074)) by lia.
    by rewrite rne_shift_scale by lia. }
  rewrite HQ.
  assert (round_pos N = rne_shift N (grid_shift N) * 2 ^ grid_shift N) as HR by done.
  pose proof (round_pos_pos N HN) as Hpos.
  pose proof (round_pos_upper N HN) as Hup.
  assert (0 < grid_shift N → 2 ^ 52 ≤ rne_shift N (grid_shift N)) as Hlow.
  { intros Hk0. pose proof (round_pos_lower N HN Hk0) as Hl.
    assert (0 < 2 ^ grid_shift N) by (apply Z.pow_pos_nonneg; lia). nia. }
  rewrite HR in *. rewrite Hk in *.
  set (Q := rne_shift N (e0 + 1074)) in *.
  assert (0 < 2 ^ (e0 + 1074)) as Hpk by (apply Z.pow_pos_nonneg; lia).
  assert (0 < Q ≤ 2 ^ 53) as HQr by nia.
  destruct Q as [|q|q] eqn:EQ; [lia| |lia].
  change (Zdigits2 (Z.pos q)) with (Z.pos (digits2_pos q)).
  rewrite fexp64.
  destruct (Z_lt_le_dec (Z.pos q) (2 ^ 53)) as [Hlt|Hge].
  - assert (Z.pos (digits2_pos q) ≤ 53) as Hdq.
    { pose proof (digits2_bounds q) as [Hlo _].
      destruct (Z_lt_le_dec 53 (Z.pos (digits2_pos q))) as [H|H]; [|done].
      assert (2 ^ 53 ≤ 2 ^ (Z.pos (digits2_pos q) - 1)) by (apply Z.pow_le_mono_r; lia).
      lia. }
    replace (Z.max (Z.max (Z.pos (digits2_pos q) + e0 - 53) (-1074) - e0) 0) with 0 by lia.
    rewrite Z.add_0_r. change (shifted (Z.pos q) 0) with
      {| shr_m := Z.pos q; shr_r := false; shr_s := false |}.
    cbv beta iota delta [shr_m].
    assert (e0 ≤ 971) as He0.
    { destruct (Z_lt_le_dec 971 e0) as [H|H]; [|done]. exfalso.
      specialize (Hlow ltac:(lia)).
      assert (2 ^ 2046 ≤ 2 ^ (e0 + 1074)) by (apply Z.pow_le_mono_r; lia).
      assert (2 ^ 2098 = 2 ^ 52 * 2 ^ 2046) as E by (by vm_compute).
      assert (0 < 2 ^ 52) by done. nia. }
    replace (e0 <=? emax - prec) with true by (symmetry; apply Z.leb_le; unfold emax, prec; lia).
    exists q, e0. done.
  - assert (Z.pos q = 2 ^ 53) as Hq by lia.
    assert (Z.pos (digits2_pos q) = 54) as Hdq.
    { apply digits2_unique. rewrite Hq. split; [done|]. by vm_compute. }
    rewrite Hdq.
    replace (Z.max (Z.max (54 + e0 - 53) (-1074) - e0) 0) with 1 by lia.
    unfold shifted. change (1 =? 0) with false. cbv beta iota delta [shr_m].
    assert (Z.pos q / 2 ^ 1 = Z.pos 4503599627370496) as Hdiv by (by rewrite Hq).
    assert (e0 + 1 ≤ 971) as He0.
    { destruct (Z_lt_le_dec 971 (e0 + 1)) as [H|H]; [|done]. exfalso.
      assert (2 ^ 2045 ≤ 2 ^ (e0 + 1074)) by (apply Z.pow_le_mono_r; lia).
      assert (2 ^ 2098 = 2 ^ 53 * 2 ^ 2045) as E by (by vm_compute).
      assert (0 < 2 ^ 53) by done. nia. }
    assert ((e0 + 1 <=? emax - prec) = true) as Hleb
      by (apply Z.leb_le; unfold emax, prec; lia).
    exists 4503599627370496%positive, (e0 + 1).
    rewrite Hdiv, Hleb. split; [done|].
    rewrite Hq. replace (e0 + 1 + 1074) with (Z.succ (e0 + 1074)) by lia.
    rewrite Z.pow_succ_r by lia. change (2 ^ 53) with (2 * 4503599627370496). lia.
Qed.

End BinaryRound.


(** * [1 - t] is antitone in [t] *)

Section OneMinus.
Local Open Scope Z_scope.

Lemma round_key_pos N : 0 < N → round_key N = round_pos N.
Proof. by destruct N. Qed.

Lemma round_key_neg N : N < 0 → round_key N = - round_pos (- N).
Proof. by destruct N. Qed.

Lemma round_pos_no_overflow N :
  0 < N ≤ largest_difference → round_pos N < 2 ^ 2098.
Proof.
  intros [H1 H2]. pose proof (round_pos_mono N largest_difference ltac:(lia)) as H.
  rewrite round_pos_largest in H.
  assert ((2 ^ 53 - 1) * 2 ^ 2045 < 2 ^ 2098) by (by vm_compute). lia.
Qed.

Lemma key_range x :
  valid_binary x = true → - 2 ^ 2100 ≤ key x ≤ 2 ^ 2100.
Proof.
  intros Hx. pose proof infinity_key_range.
  assert (0 < 2 ^ 2098) by done.
  destruct x as [s|s| |s m e]; simpl in *.
  - lia.
  - destruct s; simpl; lia.
  - lia.
  - pose proof (bounded_key_range _ _ Hx). destruct s; simpl; lia.
Qed.

Lemma finite_key_range x :
  valid_binary x = true → is_finite_SF x = true →
  - ((2 ^ 53 - 1) * 2 ^ 2045) ≤ key x ≤ (2 ^ 53 - 1) * 2 ^ 2045.
Proof.
  intros Hx Hf. assert (0 < (2 ^ 53 - 1) * 2 ^ 2045) by done.
  destruct x as [s|s| |s m e]; [unfold key; lia|done|done|].
  simpl in Hx. unfold key.
  pose proof (bounded_facts _ _ Hx) as (He & Hd & _).
  pose proof (digits2_bounds m) as [_ Hhi].
  assert (2 ^ Z.pos (digits2_pos m) ≤ 2 ^ 53) by (apply Z.pow_le_mono_r; lia).
  assert (0 < 2 ^ (e + 1074) ≤ 2 ^ 2045).
  { split; [apply Z.pow_pos_nonneg; lia|apply Z.pow_le_mono_r; lia]. }
  assert (0 < Z.pos m * 2 ^ (e + 1074) ≤ (2 ^ 53 - 1) * 2 ^ 2045) by nia.
  destruct s; simpl; lia.
Qed.

Lemma sub_one_key t :
  valid_binary t = true → is_finite_SF t = true →
  is_finite_SF (SF64sub SF_one t) = true
  ∧ key (SF64sub SF_one t) = round_key (2 ^ 1074 - key t).
Proof.
  intros Ht Hf. pose proof (finite_key_range t Ht Hf) as Hrange.
  destruct t as [s|s| |s m e]; [|discriminate Hf|discriminate Hf|].
  - split; by vm_compute.
  - simpl in Ht. pose proof (bounded_facts _ _ Ht) as (He & _).
    unfold SF64sub, SFsub, SF_one. cbv zeta.
    set (ez := Z.min (-52) e).
    pose proof (shl_align_spec 4503599627370496 (-52) ez) as [HA _].
    pose proof (shl_align_spec m e ez) as [HB _].
    replace (Z.min (-52) ez) with ez in HA by lia.
    replace (Z.min e ez) with ez in HB by lia.
    set (A := Z.pos (shl_align 4503599627370496 (-52) ez).1) in *.
    set (B := Z.pos (shl_align m e ez).1) in *.
    assert (0 < 2 ^ (ez + 1074)) as Hpz by (apply Z.pow_pos_nonneg; lia).
    assert (A * 2 ^ (ez + 1074) = 2 ^ 1074) as HA'.
    { rewrite HA, <- Z.mul_assoc, <- Z.pow_add_r by lia.
      replace (-52 - ez + (ez + 1074)) with 1022 by lia. done. }
    assert (B * 2 ^ (ez + 1074) = Z.pos m * 2 ^ (e + 1074)) as HB'.
    { rewrite HB, <- Z.mul_assoc, <- Z.pow_add_r by lia. do 2 f_equal. lia. }
    assert ((A - cond_Zopp s B) * 2 ^ (ez + 1074)
            = 2 ^ 1074 - key (S754_finite s m e)) as HM.
    { unfold key. destruct s; simpl; lia. }
    assert (2 ^ 1074 + (2 ^ 53 - 1) * 2 ^ 2045 = largest_difference) as HL by done.
    assert (0 < 2 ^ 1074) as H1074 by done.
    rewrite <- HM. change (cond_Zopp false A) with A.
    assert (-1074 ≤ ez) as Hez by (clear -He; lia).
    assert (- largest_difference ≤ (A - cond_Zopp s B) * 2 ^ (ez + 1074)
            ≤ largest_difference) as HR.
    { rewrite HM, <- HL. clear -Hrange H1074.
      generalize dependent (key (S754_finite s m e)).
      generalize dependent (2 ^ 1074). generalize ((2 ^ 53 - 1) * 2 ^ 2045).
      intros. lia. }
    clear HM Hrange HA' HB' HL H1074 HA HB.
    destruct (A - cond_Zopp s B) as [|M|M] eqn:EM; unfold binary_normalize.
    + split; [reflexivity|]. rewrite Z.mul_0_l. reflexivity.
    + destruct (binary_round_key false M ez Hez) as (m' & e' & -> & Hkey).
      { apply round_pos_no_overflow. lia. }
      split; [reflexivity|]. unfold key, cond_Zopp. rewrite Hkey.
      symmetry. apply round_key_pos. lia.
    + destruct (binary_round_key true M ez Hez) as (m' & e' & -> & Hkey).
      { apply round_pos_no_overflow.
        change (Z.neg M) with (- Z.pos M) in HR. lia. }
      split; [reflexivity|]. unfold key, cond_Zopp. rewrite Hkey.
      rewrite round_key_neg by lia. rewrite <- Z.mul_opp_l. reflexivity.
Qed.

End OneMinus.


Section Antitone.
Local Open Scope Z_scope.

Lemma finite_below_infinity : (2 ^ 53 - 1) * 2 ^ 2045 < 2 ^ 2100.
Proof. vm_compute. reflexivity. Qed.

Lemma not_nan_cases x :
  x ≠ S754_nan → is_finite_SF x = true ∨ ∃ s, x = S754_infinity s.
Proof. destruct x as [s|s| |s m e]; intros H; eauto. Qed.

Lemma sub_one_not_nan x :
  valid_binary x = true → x ≠ S754_nan → SF64sub SF_one x ≠ S754_nan.
Proof.
  intros V N. destruct (not_nan_cases x N) as [F|[s ->]]; [|discriminate].
  destruct (sub_one_key x V F) as [Hfin _].
  intros E. rewrite E in Hfin. discriminate.
Qed.

Lemma one_minus_antitone x1 x2 :
  valid_binary x1 = true → valid_binary x2 = true →
  valid_binary (SF64sub SF_one x1) = true →
  valid_binary (SF64sub SF_one x2) = true →
  x1 ≠ S754_nan → x2 ≠ S754_nan → key x1 ≤ key x2 →
  key (SF64sub SF_one x2) ≤ key (SF64sub SF_one x1).
Proof.
  intros V1 V2 W1 W2 N1 N2 Hle.
  pose proof finite_below_infinity as Hinf.
  pose proof (key_range _ W1) as R1. pose proof (key_range _ W2) as R2.
  destruct (not_nan_cases x1 N1) as [F1|[s1 ->]];
    destruct (not_nan_cases x2 N2) as [F2|[s2 ->]].
  - destruct (sub_one_key x1 V1 F1) as [_ ->].
    destruct (sub_one_key x2 V2 F2) as [_ ->].
    apply round_key_mono. clear -Hle. generalize dependent (2 ^ 1074). lia.
  - pose proof (finite_key_range x1 V1 F1) as K1.
    destruct s2.
    + exfalso. clear -K1 Hle Hinf. unfold key at 2 in Hle. unfold cond_Zopp in Hle.
      generalize dependent (key x1). generalize dependent (2 ^ 2100).
      generalize ((2 ^ 53 - 1) * 2 ^ 2045). lia.
    + change (SF64sub SF_one (S754_infinity false)) with (S754_infinity true).
      unfold key at 1. unfold cond_Zopp. apply R1.
  - pose proof (finite_key_range x2 V2 F2) as K2.
    destruct s1.
    + change (SF64sub SF_one (S754_infinity true)) with (S754_infinity false).
      unfold key at 2. unfold cond_Zopp. apply R2.
    + exfalso. clear -K2 Hle Hinf. unfold key at 1 in Hle. unfold cond_Zopp in Hle.
      generalize dependent (key x2). generalize dependent (2 ^ 2100).
      generalize ((2 ^ 53 - 1) * 2 ^ 2045). lia.
  - destruct s1, s2.
    + apply Z.le_refl.
    + change (SF64sub SF_one (S754_infinity true)) with (S754_infinity false).
      unfold key at 2. unfold cond_Zopp. apply R2.
    + exfalso. clear -Hle. unfold key, cond_Zopp in Hle.
      assert (0 < 2 ^ 2100) by (vm_compute; reflexivity).
      generalize dependent (2 ^ 2100). lia.
    + apply Z.le_refl.
Qed.

End Antitone.

(** The threshold test of the search, on binary64 numbers: a distance under
    the bar of a threshold is under the bar of every smaller threshold. *)
Lemma leb_one_minus_antitone (t1 t2 d : float) :
  (t1 <=? t2)%float = true →
  (d <=? 1 - t2)%float = true → (d <=? 1 - t1)%float = true.
Proof.
  rewrite !leb_spec, !sub_spec.
  assert (Prim2SF 1 = SF_one) as -> by (vm_compute; reflexivity).
  pose proof (Prim2SF_valid t1) as V1. pose proof (Prim2SF_valid t2) as V2.
  pose proof (Prim2SF_valid d) as Vd.
  pose proof (Prim2SF_valid (1 - t1)) as W1.
  pose proof (Prim2SF_valid (1 - t2)) as W2.
  rewrite sub_spec in W1, W2.
  assert (Prim2SF 1 = SF_one) as E1 by (vm_compute; reflexivity).
  rewrite E1 in W1, W2. clear E1.
  generalize dependent (Prim2SF t1). generalize dependent (Prim2SF t2).
  generalize dependent (Prim2SF d). intros xd Vd x2 V2 W2 x1 V1 W1 H12 Hd.
  apply SFleb_key in H12 as (N1 & N2 & H12); [|done..].
  apply SFleb_key in Hd as (Nd & _ & Hd); [|done..].
  apply SFleb_key; [done..|].
  split; [done|]. split; [by apply sub_one_not_nan|].
  pose proof (one_minus_antitone x1 x2 V1 V2 W1 W2 N1 N2 H12).
  generalize dependent (key (SF64sub SF_one x1)).
  generalize dependent (key (SF64sub SF_one x2)).
  generalize dependent (key xd). intros. lia.
Qed.


(** * The threshold rule *)

Lemma threshold_prefix_no_match q emb doc d t lang :
  Printed (MatchFound lang) ∉ threshold_prefix q emb doc d t.
Proof.
  unfold threshold_prefix. intros H.
  repeat (apply elem_of_cons in H as [H|H]; [discriminate H|]).
  by apply elem_of_nil in H.
Qed.

Lemma match_found_iff {U : Unicode} (svc : Services) (σ : list IndexedVector)
    (q : str) (emb : Embedding) (results : QueryResult) (doc : str)
    (meta : Meta) (d : float) (lang : str) (t : float) :
  retrieves svc σ q emb results → top_neighbor results doc meta d →
  meta !! py "language" = Some lang →
  match_found svc σ q t lang ↔ (d <=? 1 - t)%float = true.
Proof.
  intros Hr Ht Hl. unfold match_found.
  rewrite (rag_answer_threshold _ _ _ _ _ _ _ _ _ Hr Ht), trace_prepend.
  destruct (d <=? 1 - t)%float eqn:Hle.
  - split; [done|intros _].
    destruct (match_branch_prints meta d (1 - t)%float lang
                (after_match svc q results d) σ Hle Hl) as [o ->].
    rewrite trace_prepend. apply elem_of_app. right.
    apply elem_of_app. left. constructor.
  - split; [|done]. intros H. exfalso.
    rewrite (match_branch_no_match _ _ _ _ _ Hle) in H. unfold after_match in H.
    apply elem_of_app in H as [H|H].
    + by apply threshold_prefix_no_match in H.
    + pose proof (gpt_fallback_emits svc q results d σ) as He.
      rewrite Forall_forall in He. by apply (He _ H lang).
Qed.

(** C1. For a question that reaches the threshold step, with [d] the distance
    of the nearest neighbour (whose metadata names a language) and [t] the
    similarity threshold of the caller: the match branch is taken (its line
    is printed) exactly when [d <= 1 - t] in binary64 arithmetic. So a match
    at a threshold is a match at every smaller threshold, threshold 1.0
    matches exactly the distances [d <= 0], and threshold 0.0 exactly the
    distances [d <= 1]. *)
Theorem threshold_rule {U : Unicode} (svc : Services) (σ : list IndexedVector)
    (q : str) (emb : Embedding) (results : QueryResult) (doc : str)
    (meta : Meta) (d : float) (lang : str) :
  retrieves svc σ q emb results → top_neighbor results doc meta d →
  meta !! py "language" = Some lang →
  (∀ t, match_found svc σ q t lang ↔ (d <=? 1 - t)%float = true)
  ∧ (∀ t1 t2, (t1 <=? t2)%float = true →
       match_found svc σ q t2 lang → match_found svc σ q t1 lang)
  ∧ (match_found svc σ q 1%float lang ↔ (d <=? 0)%float = true)
  ∧ (match_found svc σ q 0%float lang ↔ (d <=? 1)%float = true).
Proof.
  intros Hr Ht Hl.
  assert (∀ t, match_found svc σ q t lang ↔ (d <=? 1 - t)%float = true) as Hiff.
  { intros t. by eapply match_found_iff. }
  split; [done|]. split; [|split].
  - intros t1 t2 H12. rewrite !Hiff. by apply leb_one_minus_antitone.
  - rewrite Hiff. assert ((1 - 1)%float = 0%float) as -> by (vm_compute; reflexivity).
    reflexivity.
  - rewrite Hiff. assert ((1 - 0)%float = 1%float) as -> by (vm_compute; reflexivity).
    reflexivity.
Qed.

Lemma threshold_rule_witness :
  (∀ t, match_found (U:=latin_tables)
          (scripted (sample_results 0.25%float (py "hindi"))
             (Returned (py "YES")) (Returned (py "generated")))
          [] (py "SIP kya hota hai?") t (py "hindi")
        ↔ (0.25 <=? 1 - t)%float = true)
  ∧ (∀ t1 t2, (t1 <=? t2)%float = true →
       match_found (U:=latin_tables)
         (scripted (sample_results 0.25%float (py "hindi"))
            (Returned (py "YES")) (Returned (py "generated")))
         [] (py "SIP kya hota hai?") t2 (py "hindi") →
       match_found (U:=latin_tables)
         (scripted (sample_results 0.25%float (py "hindi"))
            (Returned (py "YES")) (Returned (py "generated")))
         [] (py "SIP kya hota hai?") t1 (py "hindi"))
  ∧ (match_found (U:=latin_tables)
       (scripted (sample_results 0.25%float (py "hindi"))
          (Returned (py "YES")) (Returned (py "generated")))
       [] (py "SIP kya hota hai?") 1%float (py "hindi")
     ↔ (0.25 <=? 0)%float = true)
  ∧ (match_found (U:=latin_tables)
       (scripted (sample_results 0.25%float (py "hindi"))
          (Returned (py "YES")) (Returned (py "generated")))
       [] (py "SIP kya hota hai?") 0%float (py "hindi")
     ↔ (0.25 <=? 1)%float = true).
Proof.
  apply (threshold_rule (U:=latin_tables) _ [] _ sample_embedding
           (sample_results 0.25%float (py "hindi")) (py "What is SIP?")
           (sample_meta (py "hindi")) 0.25%float (py "hindi")).
  - split; [by vm_compute|]. split; reflexivity.
  - by eexists _, _, _.
  - by vm_compute.
Defined.



(** * The claims about [rag_answer] *)

Lemma calls_app t1 t2 : calls (t1 ++ t2) = calls t1 ++ calls t2.
Proof. apply omap_app. Qed.

Lemma chat_calls_app t1 t2 : chat_calls (t1 ++ t2) = chat_calls t1 ++ chat_calls t2.
Proof. apply omap_app. Qed.

Lemma chat_calls_of_calls t :
  chat_calls t
  = omap (λ c, match c with ChatCompletionsCreate r => Some r | _ => None end) (calls t).
Proof.
  induction t as [|ev t IH]; [done|].
  destruct ev as [c|l].
  - destruct c; simpl; unfold chat_calls, calls in IH |- *; rewrite IH; reflexivity.
  - simpl. apply IH.
Qed.

Section Claims.
Context {U : Unicode} (svc : Services).

(** After the threshold decision has yielded no answer, the run continues
    with the domain gate, whichever way the decision failed. *)
Lemma rag_answer_falls_back σ q t emb results doc meta d :
  retrieves svc σ q emb results → top_neighbor results doc meta d →
  no_answer_from_match meta d t →
  ∃ pre,
    rag_answer svc q (Some t) σ = prepend pre (gpt_fallback svc q results d σ)
    ∧ calls pre = [EmbeddingsCreate (py "text-embedding-3-small") q;
                   CollectionQuery [emb] 2].
Proof.
  intros Hr Ht [Hno|(Hyes & lang & Hl & Hk)].
  - exists (threshold_prefix q emb doc d t). split; [|done].
    rewrite (rag_answer_threshold _ _ _ _ _ _ _ _ _ Hr Ht).
    by rewrite match_branch_no_match.
  - exists (threshold_prefix q emb doc d t ++ [Printed (MatchFound lang)]). split; [|done].
    rewrite (rag_answer_threshold _ _ _ _ _ _ _ _ _ Hr Ht).
    rewrite (match_branch_unknown _ _ _ _ _ _ Hyes Hl Hk).
    by rewrite prepend_prepend.
Qed.

End Claims.

(** C6. When the query of the index returns no document, [rag_answer]
    returns the fixed text for that case with score 0.0 after the embedding
    and the query, and calls neither the classifier nor the generator. *)
Theorem no_results_no_answer {U : Unicode} (svc : Services) σ q t emb results :
  retrieves svc σ q emb results →
  documents results !! 0 = Some [] →
  rag_answer svc q t σ
  = {| trace := [Called (EmbeddingsCreate (py "text-embedding-3-small") q);
                 Called (CollectionQuery [emb] 2)];
       result := Returned (no_similar_question, 0%float);
       stored := σ |}
  ∧ chat_calls (trace (rag_answer svc q t σ)) = [].
Proof.
  intros (Hg & He & Hq) Hd.
  assert (rag_answer svc q t σ
    = {| trace := [Called (EmbeddingsCreate (py "text-embedding-3-small") q);
                   Called (CollectionQuery [emb] 2)];
         result := Returned (no_similar_question, 0%float);
         stored := σ |}) as ->; [|done].
  unfold rag_answer. cbv zeta. rewrite Hg.
  rewrite (run_get_embedding _ _ _ _ _ He).
  rewrite (run_query _ _ _ _ _ _ Hq).
  rewrite (run_getindex _ _ _ _ _ Hd).
  rewrite bool_decide_false by (intros H; by apply H).
  reflexivity.
Qed.

Lemma no_results_no_answer_witness :
  chat_calls (trace (rag_answer (U:=latin_tables)
    (scripted {| documents := [[]]; metadatas := [[]]; distances := [[]] |}
       (Returned (py "YES")) (Returned (py "generated")))
    (py "What is SIP?") (Some 0.7%float) [])) = [].
Proof.
  apply (no_results_no_answer (U:=latin_tables) _ [] (py "What is SIP?")
           (Some 0.7%float) sample_embedding
           {| documents := [[]]; metadatas := [[]]; distances := [[]] |}).
  - split; [by vm_compute|]. split; reflexivity.
  - reflexivity.
Defined.

(** C3. When the distance [d] of the nearest neighbour is at most
    [1 - t] and its language tag is english, hindi or hinglish, [rag_answer]
    returns the answer its metadata stores for that language with score
    [1 - d], right after the line of the match branch, and calls neither the
    classifier nor the generator. *)
Theorem match_returns_stored_answer {U : Unicode} (svc : Services) (σ : list IndexedVector)
    (q : str) (t : float) (emb : Embedding) (results : QueryResult) (doc : str)
    (meta : Meta) (d : float) (lang answer : str) :
  retrieves svc σ q emb results → top_neighbor results doc meta d →
  (d <=? 1 - t)%float = true →
  meta !! py "language" = Some lang → known_language lang →
  meta !! answer_key lang = Some answer →
  rag_answer svc q (Some t) σ
  = {| trace := threshold_prefix q emb doc d t ++ [Printed (MatchFound lang)];
       result := Returned (answer, (1 - d)%float);
       stored := σ |}
  ∧ chat_calls (trace (rag_answer svc q (Some t) σ)) = [].
Proof.
  intros Hr Ht Hle Hl Hk Ha.
  assert (rag_answer svc q (Some t) σ
    = {| trace := threshold_prefix q emb doc d t ++ [Printed (MatchFound lang)];
         result := Returned (answer, (1 - d)%float);
         stored := σ |}) as ->; [|done].
  rewrite (rag_answer_threshold _ _ _ _ _ _ _ _ _ Hr Ht).
  rewrite (match_branch_known _ _ _ _ _ _ _ Hle Hl Hk Ha).
  rewrite prepend_prepend. reflexivity.
Qed.

Lemma match_returns_stored_answer_witness :
  rag_answer (U:=latin_tables)
    (scripted (sample_results 0.1%float (py "hindi"))
       (Returned (py "YES")) (Returned (py "generated")))
    (py "SIP kya hota hai?") (Some 0.7%float) []
  = {| trace := threshold_prefix (py "SIP kya hota hai?") sample_embedding
                  (py "What is SIP?") 0.1%float 0.7%float
                ++ [Printed (MatchFound (py "hindi"))];
       result := Returned
         (py "एसआईपी में नियमित अंतराल पर निश्चित राशि निवेश होती है।",
          (1 - 0.1)%float);
       stored := [] |}
  ∧ chat_calls (trace (rag_answer (U:=latin_tables)
      (scripted (sample_results 0.1%float (py "hindi"))
         (Returned (py "YES")) (Returned (py "generated")))
      (py "SIP kya hota hai?") (Some 0.7%float) [])) = [].
Proof.
  apply (match_returns_stored_answer (U:=latin_tables) _ [] _ _ sample_embedding
           (sample_results 0.1%float (py "hindi")) (py "What is SIP?")
           (sample_meta (py "hindi")) 0.1%float (py "hindi")).
  - split; [by vm_compute|]. split; reflexivity.
  - by eexists _, _, _.
  - reflexivity.
  - by vm_compute.
  - right. by left.
  - by vm_compute.
Defined.


(** C4. On the path without a match, when the response of the classifier,
    stripped and in upper case, is not YES, [rag_answer] returns the fixed
    domain refusal with score 0.0; its calls are the embedding, the query and
    the classifier, and no request to the generator is among them. *)
Theorem domain_gate_refuses {U : Unicode} (svc : Services) (σ : list IndexedVector)
    (q : str) (t : float) (emb : Embedding) (results : QueryResult) (doc : str)
    (meta : Meta) (d : float) (response : str) :
  retrieves svc σ q emb results → top_neighbor results doc meta d →
  no_answer_from_match meta d t →
  chat_completions_create svc (classifier_request q) = Returned response →
  upper (strip response) ≠ py "YES" →
  result (rag_answer svc q (Some t) σ) = Returned (domain_refusal, 0%float)
  ∧ calls (trace (rag_answer svc q (Some t) σ))
    = [EmbeddingsCreate (py "text-embedding-3-small") q;
       CollectionQuery [emb] 2;
       ChatCompletionsCreate (classifier_request q)]
  ∧ ∀ context_text,
      generator_request context_text q
      ∉ chat_calls (trace (rag_answer svc q (Some t) σ)).
Proof.
  intros Hr Ht Hno Hc Hn.
  destruct (rag_answer_falls_back svc _ _ _ _ _ _ _ _ Hr Ht Hno) as (pre & -> & Hpre).
  rewrite (gpt_fallback_refuses _ _ _ _ _ _ Hc Hn).
  assert (calls (trace (prepend pre
            {| trace := gate_events q response;
               result := Returned (domain_refusal, 0%float); stored := σ |}))
          = [EmbeddingsCreate (py "text-embedding-3-small") q;
             CollectionQuery [emb] 2;
             ChatCompletionsCreate (classifier_request q)]) as Hcalls.
  { rewrite trace_prepend, calls_app, Hpre. reflexivity. }
  split; [done|]. split; [done|].
  intros context_text Hin.
  assert (chat_calls (trace (prepend pre
            {| trace := gate_events q response;
               result := Returned (domain_refusal, 0%float); stored := σ |}))
          = [classifier_request q]) as Hchat.
  { rewrite chat_calls_of_calls, Hcalls. reflexivity. }
  rewrite Hchat in Hin. apply list_elem_of_singleton in Hin. discriminate.
Qed.

Lemma domain_gate_refuses_witness :
  result (rag_answer (U:=latin_tables)
    (scripted (sample_results 0.9%float (py "english"))
       (Returned (py " maybe ")) (Returned (py "generated")))
    (py "Who won the match?") (Some 0.7%float) [])
  = Returned (domain_refusal, 0%float)
  ∧ calls (trace (rag_answer (U:=latin_tables)
      (scripted (sample_results 0.9%float (py "english"))
         (Returned (py " maybe ")) (Returned (py "generated")))
      (py "Who won the match?") (Some 0.7%float) []))
    = [EmbeddingsCreate (py "text-embedding-3-small") (py "Who won the match?");
       CollectionQuery [sample_embedding] 2;
       ChatCompletionsCreate (classifier_request (py "Who won the match?"))]
  ∧ ∀ context_text,
      generator_request context_text (py "Who won the match?")
      ∉ chat_calls (trace (rag_answer (U:=latin_tables)
          (scripted (sample_results 0.9%float (py "english"))
             (Returned (py " maybe ")) (Returned (py "generated")))
          (py "Who won the match?") (Some 0.7%float) [])).
Proof.
  apply (domain_gate_refuses (U:=latin_tables) _ [] _ _ sample_embedding
           (sample_results 0.9%float (py "english")) (py "What is SIP?")
           (sample_meta (py "english")) 0.9%float (py " maybe ")).
  - split; [by vm_compute|]. split; reflexivity.
  - by eexists _, _, _.
  - left. reflexivity.
  - reflexivity.
  - by vm_compute.
Defined.

(** C5. On the path without a match, when the response of the classifier,
    stripped and in upper case, is YES, [rag_answer] calls the generator
    once, after the classifier, with a prompt that holds for every retrieved
    neighbour its question and its English and Hindi answers, and returns
    the generated text as it is with score [1 - d], [d] being the distance of
    the nearest neighbour. *)
Theorem finance_question_is_generated {U : Unicode} (svc : Services)
    (σ : list IndexedVector) (q : str) (t : float) (emb : Embedding)
    (results : QueryResult) (doc : str) (meta : Meta) (d : float)
    (response generated : str) (docs : list str) (metas : list Meta)
    (blocks : list str) :
  retrieves svc σ q emb results → top_neighbor results doc meta d →
  no_answer_from_match meta d t →
  chat_completions_create svc (classifier_request q) = Returned response →
  upper (strip response) = py "YES" →
  documents results !! 0 = Some docs → metadatas results !! 0 = Some metas →
  contexts_for docs metas blocks →
  chat_completions_create svc
    (generator_request (join (newline ++ newline) blocks) q) = Returned generated →
  result (rag_answer svc q (Some t) σ) = Returned (generated, (1 - d)%float)
  ∧ chat_calls (trace (rag_answer svc q (Some t) σ))
    = [classifier_request q;
       generator_request (join (newline ++ newline) blocks) q]
  ∧ ∀ (i : nat) (doc_i : str) (meta_i : Meta) (answer_english answer_hindi : str),
      docs !! i = Some doc_i → metas !! i = Some meta_i →
      meta_i !! py "answer_english" = Some answer_english →
      meta_i !! py "answer_hindi" = Some answer_hindi →
      infix_of (context_block doc_i answer_english answer_hindi)
        (user_content (generator_request (join (newline ++ newline) blocks) q))
      ∧ infix_of doc_i (context_block doc_i answer_english answer_hindi)
      ∧ infix_of answer_english (context_block doc_i answer_english answer_hindi)
      ∧ infix_of answer_hindi (context_block doc_i answer_english answer_hindi).
Proof.
  intros Hr Ht Hno Hc Hy Hd Hm Hb Hg.
  destruct (rag_answer_falls_back svc _ _ _ _ _ _ _ _ Hr Ht Hno) as (pre & -> & Hpre).
  rewrite (gpt_fallback_generates _ _ _ _ _ _ _ _ _ _ Hc Hy Hd Hm Hb Hg).
  split; [done|]. split.
  - rewrite chat_calls_of_calls, trace_prepend, calls_app, Hpre. reflexivity.
  - intros i doc_i meta_i ae ah Hdi Hmi Hae Hah. split_and!.
    + unfold generator_request, generation_prompt, user_content.
      do 6 apply infix_of_app_l. apply infix_of_app_r.
      apply infix_of_join. by eapply contexts_for_lookup.
    + unfold context_block. apply infix_of_app_l, infix_of_app_r, infix_of_refl.
    + unfold context_block. do 4 apply infix_of_app_l. apply infix_of_app_r, infix_of_refl.
    + unfold context_block. do 7 apply infix_of_app_l. apply infix_of_refl.
Qed.

Lemma finance_question_is_generated_witness :
  result (rag_answer (U:=latin_tables)
    (scripted (sample_results 0.9%float (py "english"))
       (Returned (py " yes ")) (Returned (py "A SIP is a way to invest.")))
    (py "How do I start investing?") (Some 0.7%float) [])
  = Returned (py "A SIP is a way to invest.", (1 - 0.9)%float).
Proof.
  refine (proj1 (finance_question_is_generated (U:=latin_tables) _ [] _ _
    sample_embedding (sample_results 0.9%float (py "english")) (py "What is SIP?")
    (sample_meta (py "english")) 0.9%float (py " yes ") _
    [py "What is SIP?"; py "SIP kya hai?"]
    [sample_meta (py "english"); sample_meta (py "hinglish")]
    [context_block (py "What is SIP?")
       (py "A SIP invests a fixed amount at regular intervals.")
       (py "एसआईपी में नियमित अंतराल पर निश्चित राशि निवेश होती है।");
     context_block (py "SIP kya hai?")
       (py "A SIP invests a fixed amount at regular intervals.")
       (py "एसआईपी में नियमित अंतराल पर निश्चित राशि निवेश होती है।")]
    _ _ _ _ _ _ _ _ _)).
  - split; [by vm_compute|]. split; reflexivity.
  - by eexists _, _, _.
  - left. reflexivity.
  - reflexivity.
  - by vm_compute.
  - reflexivity.
  - reflexivity.
  - repeat (apply contexts_cons; [by vm_compute|by vm_compute|]). apply contexts_nil.
  - reflexivity.
Defined.

(** C8. When the distance of the nearest neighbour meets the bound
    [d <= 1 - t] but its language tag is not english, hindi or hinglish, the
    match branch yields no answer and the run goes on with the domain gate:
    the same result, the same calls and the same index as a run whose
    threshold gives no match. *)
Theorem unknown_language_falls_through {U : Unicode} (svc : Services)
    (σ : list IndexedVector) (q : str) (t : float) (emb : Embedding)
    (results : QueryResult) (doc : str) (meta : Meta) (d : float) (lang : str) :
  retrieves svc σ q emb results → top_neighbor results doc meta d →
  (d <=? 1 - t)%float = true →
  meta !! py "language" = Some lang → ¬ known_language lang →
  result (match_branch meta d (1 - t)%float σ) = Returned None
  ∧ rag_answer svc q (Some t) σ
    = prepend (threshold_prefix q emb doc d t ++ [Printed (MatchFound lang)])
        (gpt_fallback svc q results d σ)
  ∧ ∀ t', (d <=? 1 - t')%float = false →
      rag_answer svc q (Some t') σ
      = prepend (threshold_prefix q emb doc d t') (gpt_fallback svc q results d σ)
      ∧ result (rag_answer svc q (Some t) σ) = result (rag_answer svc q (Some t') σ)
      ∧ calls (trace (rag_answer svc q (Some t) σ))
        = calls (trace (rag_answer svc q (Some t') σ))
      ∧ stored (rag_answer svc q (Some t) σ) = stored (rag_answer svc q (Some t') σ).
Proof.
  intros Hr Ht Hle Hl Hk.
  assert (rag_answer svc q (Some t) σ
    = prepend (threshold_prefix q emb doc d t ++ [Printed (MatchFound lang)])
        (gpt_fallback svc q results d σ)) as Hrun.
  { rewrite (rag_answer_threshold _ _ _ _ _ _ _ _ _ Hr Ht).
    rewrite (match_branch_unknown _ _ _ _ _ _ Hle Hl Hk).
    by rewrite prepend_prepend. }
  split_and!.
  - pose proof (match_branch_unknown meta d (1 - t)%float lang ret σ Hle Hl Hk) as H.
    unfold mbind, Py_bind, bind in H.
    destruct (match_branch meta d (1 - t)%float σ) as [tr [a|e] σ'];
      unfold prepend, ret in H; simpl in *.
    + injection H as _ -> _. done.
    + discriminate.
  - done.
  - intros t' Hno.
    assert (rag_answer svc q (Some t') σ
      = prepend (threshold_prefix q emb doc d t') (gpt_fallback svc q results d σ)) as Hrun'.
    { rewrite (rag_answer_threshold _ _ _ _ _ _ _ _ _ Hr Ht).
      by rewrite match_branch_no_match. }
    rewrite Hrun, Hrun'. split_and!; done.
Qed.

Lemma unknown_language_falls_through_witness :
  rag_answer (U:=latin_tables)
    (scripted (sample_results 0.1%float (py "marathi"))
       (Returned (py "NO")) (Returned (py "generated")))
    (py "What is SIP?") (Some 0.7%float) []
  = prepend (threshold_prefix (py "What is SIP?") sample_embedding (py "What is SIP?")
               0.1%float 0.7%float ++ [Printed (MatchFound (py "marathi"))])
      (gpt_fallback (U:=latin_tables)
         (scripted (sample_results 0.1%float (py "marathi"))
            (Returned (py "NO")) (Returned (py "generated")))
         (py "What is SIP?") (sample_results 0.1%float (py "marathi")) 0.1%float []).
Proof.
  refine (proj1 (proj2 (unknown_language_falls_through (U:=latin_tables) _ [] _ _
    sample_embedding (sample_results 0.1%float (py "marathi")) (py "What is SIP?")
    (sample_meta (py "marathi")) 0.1%float (py "marathi") _ _ _ _ _))).
  - split; [by vm_compute|]. split; reflexivity.
  - by eexists _, _, _.
  - reflexivity.
  - by vm_compute.
  - intros [H|[H|H]]; by vm_compute in H.
Defined.


(** C2. The folio guard answers (the fixed refusal text, score 0.0, with no
    call to the embedding service, the index, the classifier or the
    generator) exactly when the question names one of the keywords "folio",
    "folio number" and their two Hindi counterparts, whatever the case of
    its letters, and has a maximal digit run longer than 7; when every digit
    run has at most 7 digits the guard does not answer. *)
Theorem folio_guard {U : Unicode} (svc : Services) (σ : list IndexedVector)
    (q : str) (t : option float) :
  (rag_answer svc q t σ = guard_refusal σ
   ↔ mentions_folio_keyword q ∧ has_long_digit_run q)
  ∧ ((∀ r, maximal_digit_run q r → length r ≤ 7) →
     rag_answer svc q t σ ≠ guard_refusal σ).
Proof.
  assert (rag_answer svc q t σ = guard_refusal σ
          ↔ mentions_folio_keyword q ∧ has_long_digit_run q) as Hiff.
  { rewrite <- guard_spec.
    destruct (folio_check q (re_findall_digits q)) eqn:Hg.
    - split; [done|]. intros _. by apply rag_answer_guard.
    - split; [|done]. intros Heq.
      pose proof (rag_answer_embeds svc q t σ Hg) as Hhead.
      rewrite Heq in Hhead. discriminate. }
  split; [done|].
  intros Hshort Heq. apply Hiff in Heq as (_ & r & Hr & Hlen).
  specialize (Hshort r Hr). lia.
Qed.

(** The guard at work on "What is folio number 12345678?": the keyword
    "folio number" and the run 12345678. *)
Lemma folio_guard_witness :
  rag_answer (U:=latin_tables)
    (scripted (sample_results 0.1%float (py "english"))
       (Returned (py "YES")) (Returned (py "generated")))
    (py "What is folio number 12345678?") (Some 0.7%float) []
  = guard_refusal [].
Proof.
  apply (proj2 (proj1 (folio_guard (U:=latin_tables)
           (scripted (sample_results 0.1%float (py "english"))
              (Returned (py "YES")) (Returned (py "generated")))
           [] (py "What is folio number 12345678?") (Some 0.7%float)))).
  split.
  - exists (py "folio number"). split; [right; left|].
    exists (py "what is "), (py " 12345678?"). vm_compute. reflexivity.
  - exists (py "12345678"). split; [|vm_compute; lia].
    exists (py "What is folio number "), (py "?").
    split; [vm_compute; reflexivity|].
    split; [vm_compute; discriminate|].
    split; [apply (bool_decide_unpack _); vm_compute; exact I|].
    split; intros c H; vm_compute in H; injection H as <-; reflexivity.
Defined.

(** End-to-end scenario 1 of the specification. *)
Example folio_scenario (svc : Services) :
  rag_answer (U:=latin_tables) svc (py "What is folio number 12345678?")
    (Some 0.7%float) []
  = guard_refusal [].
Proof. apply rag_answer_guard. by vm_compute. Qed.

(** Seven digits are not enough, keyword or not. *)
Example folio_scenario_short (svc : Services) :
  rag_answer (U:=latin_tables) svc (py "My FOLIO is 1234567 and 7654321")
    (Some 0.7%float) []
  ≠ guard_refusal [].
Proof.
  intros Heq.
  pose proof (rag_answer_embeds (U:=latin_tables) svc _ (Some 0.7%float) []
                (eq_refl : folio_check (U:=latin_tables)
                   (py "My FOLIO is 1234567 and 7654321")
                   (re_findall_digits (U:=latin_tables)
                      (py "My FOLIO is 1234567 and 7654321")) = false)) as H.
  rewrite Heq in H. discriminate.
Qed.

(** * The endpoint *)

Section Endpoint.
Context {U : Unicode} (svc : Services).

Lemma chat_blank query σ :
  str_truthy (question query) && str_truthy (strip (question query)) = false →
  chat svc query σ
  = {| trace := [];
       result := Raised (HTTPException 500 (ErrorProcessingQuery
                   (HTTPException 400 (DetailText (py "Question cannot be empty")))));
       stored := σ |}.
Proof.
  intros H. unfold chat, try_except.
  assert (negb (str_truthy (question query))
          || negb (str_truthy (strip (question query))) = true) as ->.
  { by destruct (str_truthy (question query)), (str_truthy (strip (question query))). }
  reflexivity.
Qed.

Lemma strip_truthy q : str_truthy (strip q) = true → str_truthy q = true.
Proof. by destruct q. Qed.

Lemma chat_raised query σ tr e σ' :
  str_truthy (strip (question query)) = true →
  rag_answer svc (question query) (similarity_threshold query) σ
  = {| trace := tr; result := Raised e; stored := σ' |} →
  chat svc query σ
  = {| trace := tr ++ [];
       result := Raised (HTTPException 500 (ErrorProcessingQuery e));
       stored := σ' |}.
Proof.
  intros Hq H. unfold chat, try_except.
  rewrite Hq, (strip_truthy _ Hq). unfold negb, orb.
  erewrite run_bind_raised by exact H. reflexivity.
Qed.

Lemma chat_returned query σ tr answer s σ' :
  str_truthy (strip (question query)) = true →
  rag_answer svc (question query) (similarity_threshold query) σ
  = {| trace := tr; result := Returned (answer, s); stored := σ' |} →
  chat svc query σ
  = {| trace := tr ++ [];
       result := Returned
         {| status := py "success";
            user_query := question query;
            bot_response := answer;
            similarity_score :=
              if float_truthy s then Some (py_round s 4) else None |};
       stored := σ' |}.
Proof.
  intros Hq H. unfold chat, try_except.
  rewrite Hq, (strip_truthy _ Hq). unfold negb, orb.
  erewrite run_bind by exact H. reflexivity.
Qed.

End Endpoint.


(** C7. A question of three spaces is rejected before [rag_answer] runs (no
    event is recorded), but the caller sees status 500, the 400 of the
    validation being caught by the handler of the endpoint; 500 is also the
    status of a failure of the embedding service, so the two cannot be told
    apart by status. *)
Theorem blank_question_gets_status_500 {U : Unicode} (svc : Services)
    (σ : list IndexedVector) (t : option float) :
  chat svc {| question := py "   "; similarity_threshold := t |} σ
  = {| trace := [];
       result := Raised (HTTPException 500 (ErrorProcessingQuery
                   (HTTPException 400 (DetailText (py "Question cannot be empty")))));
       stored := σ |}
  ∧ http_status
      (result (chat svc {| question := py "   "; similarity_threshold := t |} σ))
    = 500%N
  ∧ ∀ q e,
      str_truthy (strip q) = true → guard_passes q →
      embeddings_create svc (py "text-embedding-3-small") q = Raised e →
      http_status
        (result (chat svc {| question := q; similarity_threshold := t |} σ))
      = 500%N.
Proof.
  assert (chat svc {| question := py "   "; similarity_threshold := t |} σ
    = {| trace := [];
         result := Raised (HTTPException 500 (ErrorProcessingQuery
                     (HTTPException 400 (DetailText (py "Question cannot be empty")))));
         stored := σ |}) as Hblank by (by apply chat_blank).
  split; [done|]. split; [by rewrite Hblank|].
  intros q e Hq Hg He.
  erewrite chat_raised; [reflexivity|done|].
  simpl. unfold rag_answer. cbv zeta. rewrite Hg.
  erewrite run_bind_raised; [reflexivity|]. unfold get_embedding. by rewrite He.
Qed.

(** C10, amended. For a question that is not blank, the endpoint reports the
    answer of [rag_answer]; a score equal to 0.0 is reported as no score (a
    match at distance exactly 1.0 among them), and every other score rounded
    to 4 decimals. *)
Theorem score_reporting {U : Unicode} (svc : Services) (σ : list IndexedVector)
    (query : QueryRequest) (answer : str) (s : float) :
  str_truthy (strip (question query)) = true →
  result (rag_answer svc (question query) (similarity_threshold query) σ)
  = Returned (answer, s) →
  ∃ response,
    result (chat svc query σ) = Returned response
    ∧ bot_response response = answer
    ∧ ((s =? 0)%float = true → similarity_score response = None)
    ∧ ((s =? 0)%float = false → similarity_score response = Some (py_round s 4)).
Proof.
  intros Hq Hr.
  destruct (rag_answer svc (question query) (similarity_threshold query) σ)
    as [tr r σ'] eqn:Hrun.
  simpl in Hr. subst r.
  rewrite (chat_returned svc query σ tr answer s σ' Hq Hrun).
  eexists. split; [reflexivity|]. split; [reflexivity|].
  unfold similarity_score, float_truthy. split; intros ->; reflexivity.
Qed.

(** A genuine match at distance exactly 1.0 is reported without a score. *)
Lemma score_reporting_witness :
  ∃ response,
    result (chat (U:=latin_tables)
      (scripted (sample_results 1%float (py "english"))
         (Returned (py "YES")) (Returned (py "generated")))
      {| question := py "What is SIP?"; similarity_threshold := Some 0%float |} [])
    = Returned response
    ∧ bot_response response = py "A SIP invests a fixed amount at regular intervals."
    ∧ (((1 - 1)%float =? 0)%float = true → similarity_score response = None)
    ∧ (((1 - 1)%float =? 0)%float = false →
       similarity_score response = Some (py_round (1 - 1)%float 4)).
Proof.
  apply (score_reporting (U:=latin_tables)
           (scripted (sample_results 1%float (py "english"))
              (Returned (py "YES")) (Returned (py "generated")))
           [] {| question := py "What is SIP?"; similarity_threshold := Some 0%float |}
           (py "A SIP invests a fixed amount at regular intervals.") (1 - 1)%float).
  - by vm_compute.
  - by vm_compute.
Defined.

(** C10 as stated fails: a nonzero score below 0.00005 is reported as the
    number 0.0. *)
Lemma numeric_zero_score_is_observable :
  result (chat (U:=latin_tables)
    (scripted (sample_results 0.99999%float (py "english"))
       (Returned (py "YES")) (Returned (py "generated")))
    {| question := py "What is SIP?"; similarity_threshold := Some 0%float |} [])
  = Returned
      {| status := py "success";
         user_query := py "What is SIP?";
         bot_response := py "A SIP invests a fixed amount at regular intervals.";
         similarity_score := Some 0%float |}.
Proof. by vm_compute. Qed.


(** * The corpus loader *)

Lemma add_calls_app t1 t2 : add_calls (t1 ++ t2) = add_calls t1 ++ add_calls t2.
Proof. apply omap_app. Qed.

Lemma printed_app t1 t2 : printed (t1 ++ t2) = printed t1 ++ printed t2.
Proof. apply omap_app. Qed.

(** ** An index that keeps one vector per id *)

Lemma keep_first_app seen a b :
  keep_first seen (a ++ b)
  = keep_first seen a ++ keep_first (seen ++ (vec_id <$> keep_first seen a)) b.
Proof.
  revert seen. induction a as [|v a IH]; intros seen; simpl.
  - by rewrite app_nil_r.
  - case_bool_decide; [apply IH|].
    rewrite IH. simpl. by rewrite <- app_assoc.
Qed.

Lemma keep_first_fresh seen vs :
  NoDup (seen ++ (vec_id <$> vs)) → keep_first seen vs = vs.
Proof.
  revert seen. induction vs as [|v vs IH]; intros seen Hnd; simpl; [done|].
  rewrite bool_decide_false.
  - f_equal. apply IH. by rewrite <- app_assoc.
  - intros Hin. apply NoDup_app in Hnd as (_ & Hd & _).
    apply (Hd _ Hin). left.
Qed.

Lemma keep_first_sublist seen vs : keep_first seen vs `sublist_of` vs.
Proof.
  revert seen. induction vs as [|v vs IH]; intros seen; simpl; [constructor|].
  case_bool_decide; [by apply sublist_cons|by apply sublist_skip].
Qed.

Lemma keep_first_head v vs : keep_first [] (v :: vs) ≠ [].
Proof.
  cbn [keep_first]. rewrite bool_decide_false; [done|].
  intros H. by apply elem_of_nil in H.
Qed.

Section LoaderFacts.
Context (svc : Services).

Lemma initialize_app_unfold data :
  initialize_app svc data
  = (n ← count;
     if (n =? 0)%nat then for_each data (store_entry svc);; print DataStored
     else print AlreadyPopulated).
Proof. reflexivity. Qed.

Lemma answers_metadata_lookup item lang :
  answers_metadata item lang !! py "answer_english" = Some (english (item_answer item))
  ∧ answers_metadata item lang !! py "answer_hinglish" = Some (hinglish (item_answer item))
  ∧ answers_metadata item lang !! py "answer_hindi" = Some (hindi (item_answer item))
  ∧ answers_metadata item lang !! py "language" = Some lang.
Proof. by vm_compute. Qed.

(** ** The loops of the loader *)

Lemma loads_ret : loads svc [] (ret tt).
Proof.
  intros σ. exists []. simpl. rewrite app_nil_r.
  split; [done|]. split; [done|]. split; [done|]. split; [constructor|done].
Qed.

Lemma loads_seq vs1 vs2 (m1 m2 : Py unit) :
  loads svc vs1 m1 → loads svc vs2 m2 → loads svc (vs1 ++ vs2) (m1 ;; m2).
Proof.
  intros H1 H2 σ. unfold mbind, Py_bind, bind.
  destruct (H1 σ) as (a1 & Hs1 & Ha1 & Hp1 & Hf1 & Hr1).
  destruct (m1 σ) as [t1 [[]|e] σ1]; cbn [trace result stored] in *.
  - destruct (H2 σ1) as (a2 & Hs2 & Ha2 & Hp2 & Hf2 & Hr2).
    exists (a1 ++ a2). rewrite Hs2, add_calls_app, Ha1, Ha2, printed_app, Hp1, Hp2.
    split.
    { rewrite Hs1, keep_first_app, fmap_app. by rewrite <- app_assoc. }
    split; [done|]. split; [done|]. split; [by apply Forall_app|].
    destruct (result (m2 σ1)) as [[]|e].
    + by rewrite Hr1, Hr2.
    + destruct Hr2 as (v & rest & -> & He). exists v, rest.
      split; [by rewrite Hr1, app_assoc|done].
  - exists a1. split; [done|]. split; [done|]. split; [done|]. split; [done|].
    destruct Hr1 as (v & rest & -> & He). exists v, (rest ++ vs2).
    split; [by rewrite <- app_assoc|done].
Qed.

Lemma loads_for_each {A : Type} (xs : list A) (body : A → Py unit)
    (f : A → list IndexedVector) :
  (∀ x, loads svc (f x) (body x)) → loads svc (flat_map f xs) (for_each xs body).
Proof.
  intros Hbody. induction xs as [|x xs IH]; [apply loads_ret|].
  change (for_each (x :: xs) body) with (body x;; for_each xs body).
  simpl. by apply loads_seq.
Qed.

Lemma loads_store_variant item lang q_text :
  loads svc (variant_vector svc item lang q_text) (store_variant svc item (lang, q_text)).
Proof.
  intros σ. unfold store_variant, variant_vector.
  destruct (str_truthy (strip q_text)).
  2: { exists []. simpl. rewrite app_nil_r.
       split; [done|]. split; [done|]. split; [done|]. split; [constructor|done]. }
  unfold embedding_of.
  destruct (embeddings_create svc (py "text-embedding-3-small") q_text) as [emb|e] eqn:He.
  - rewrite (run_get_embedding _ _ _ _ _ He).
    exists [{| vec_id := item_id item ++ py "_" ++ lang;
               vec_document := q_text;
               vec_metadata := answers_metadata item lang;
               vec_embedding := emb |}].
    unfold prepend, add.
    cbn [trace result stored keep_first vec_id].
    split; [by case_bool_decide; rewrite ?app_nil_r|].
    split; [reflexivity|]. split; [reflexivity|]. split; [|reflexivity].
    constructor; [|constructor]. by exists emb.
  - erewrite run_bind_raised; [|unfold get_embedding; by rewrite He].
    exists []. simpl. rewrite app_nil_r.
    split; [done|]. split; [done|]. split; [done|]. split; [constructor|].
    eexists _, []. split; [reflexivity|]. exact He.
Qed.

Lemma loads_store_entry item : loads svc (entry_vectors svc item) (store_entry svc item).
Proof.
  unfold store_entry, entry_vectors.
  pose proof (loads_for_each
    [(py "english", english (item_question item));
     (py "hinglish", hinglish (item_question item));
     (py "hindi", hindi (item_question item))]
    (store_variant svc item)
    (λ variant, variant_vector svc item variant.1 variant.2)) as H.
  simpl in H. rewrite app_nil_r in H. apply H.
  intros [lang q_text]. apply loads_store_variant.
Qed.

Lemma loads_data data : loads svc (expected_index svc data) (for_each data (store_entry svc)).
Proof. apply loads_for_each, loads_store_entry. Qed.

(** The run of the loader on an empty index. *)
Lemma initialize_app_empty data :
  ∃ added,
    stored (initialize_app svc data []) = keep_first [] added
    ∧ add_calls (trace (initialize_app svc data [])) = added
    ∧ Forall (embedded svc) added
    ∧ match result (initialize_app svc data []) with
      | Returned _ =>
        added = expected_index svc data
        ∧ printed (trace (initialize_app svc data [])) = [DataStored]
      | Raised e =>
        printed (trace (initialize_app svc data [])) = []
        ∧ ∃ v rest,
            expected_index svc data = added ++ v :: rest
            ∧ embeddings_create svc (py "text-embedding-3-small") (vec_document v)
              = Raised e
      end.
Proof.
  rewrite initialize_app_unfold.
  erewrite run_bind; [|reflexivity]. cbv beta.
  change (length [] =? 0)%nat with true. cbv iota.
  destruct (loads_data data []) as (added & Hs & Ha & Hp & Hf & Hr).
  unfold mbind, Py_bind, bind.
  destruct (for_each data (store_entry svc) []) as [tr [[]|e] σ']; simpl in *.
  - exists added. subst σ'. rewrite add_calls_app, printed_app, Ha, Hp. simpl.
    by rewrite app_nil_r.
  - exists added. subst σ'. rewrite Ha, Hp. done.
Qed.

Lemma initialize_app_populated data σ :
  σ ≠ [] →
  initialize_app svc data σ
  = {| trace := [Called CollectionCount; Printed AlreadyPopulated];
       result := Returned tt; stored := σ |}.
Proof.
  intros Hne. rewrite initialize_app_unfold.
  erewrite run_bind; [|reflexivity]. cbv beta.
  destruct σ as [|v σ]; [done|]. reflexivity.
Qed.

(** The question text of a vector of a full load is a variant of an item
    that is not blank. *)
Lemma expected_index_texts data v :
  v ∈ expected_index svc data →
  ∃ item, item ∈ data
    ∧ vec_document v ∈ [english (item_question item); hinglish (item_question item);
                        hindi (item_question item)]
    ∧ str_truthy (strip (vec_document v)) = true.
Proof.
  unfold expected_index. intros Hv.
  apply list_elem_of_In, in_flat_map in Hv as (item & Hi & Hv).
  apply list_elem_of_In in Hi, Hv. exists item. split; [done|].
  unfold entry_vectors, variant_vector in Hv. rewrite !elem_of_app in Hv.
  destruct Hv as [Hv|[Hv|Hv]];
    match type of Hv with
    | _ ∈ (if ?c then _ else _) => destruct c eqn:Hc
    end;
    try (by apply elem_of_nil in Hv);
    apply list_elem_of_singleton in Hv as ->; simpl; (split; [set_solver|done]).
Qed.

Lemma embeddable_returns data :
  embeddable svc data → result (initialize_app svc data []) = Returned tt.
Proof.
  intros He. destruct (initialize_app_empty data) as (added & _ & _ & _ & Hr).
  destruct (result (initialize_app svc data [])) as [[]|e]; [done|].
  destruct Hr as (_ & v & rest & Hv & Hraised). exfalso.
  destruct (expected_index_texts data v) as (item & Hi & Hq & Ht).
  { rewrite Hv. apply elem_of_app. right. left. }
  destruct (He item (vec_document v) Hi Hq Ht) as [emb Hemb]. congruence.
Qed.

End LoaderFacts.

(** ** The keys of the stored vectors *)

Lemma suffix_english : py "_" ++ py "english" = [95; 101; 110; 103; 108; 105; 115; 104]%N.
Proof. vm_compute. reflexivity. Qed.
Lemma suffix_hinglish :
  py "_" ++ py "hinglish" = [95; 104; 105; 110; 103; 108; 105; 115; 104]%N.
Proof. vm_compute. reflexivity. Qed.
Lemma suffix_hindi : py "_" ++ py "hindi" = [95; 104; 105; 110; 100; 105]%N.
Proof. vm_compute. reflexivity. Qed.

Lemma languages_cases lang :
  lang ∈ languages → lang = py "english" ∨ lang = py "hinglish" ∨ lang = py "hindi".
Proof.
  unfold languages. intros H.
  repeat (apply elem_of_cons in H as [H|H]; [tauto|]).
  by apply elem_of_nil in H.
Qed.

(** The key [{id}_{lang}] determines the id and the language. *)
Lemma vector_key_inj (id1 id2 lang1 lang2 : str) :
  lang1 ∈ languages → lang2 ∈ languages →
  id1 ++ py "_" ++ lang1 = id2 ++ py "_" ++ lang2 → id1 = id2 ∧ lang1 = lang2.
Proof.
  intros H1 H2 H.
  apply languages_cases in H1 as [->|[->| ->]];
    apply languages_cases in H2 as [->|[->| ->]];
    rewrite ?suffix_english, ?suffix_hinglish, ?suffix_hindi in H;
    try (apply app_inv_tail in H; by split);
    exfalso; reversed H; congruence.
Qed.

Lemma NoDup_languages : NoDup languages.
Proof. apply (bool_decide_unpack _). vm_compute. exact I. Qed.

Section Keys.
Context (svc : Services).

Lemma entry_keys item :
  vec_id <$> entry_vectors svc item
  `sublist_of` (vector_key (item_id item) <$> languages).
Proof.
  unfold entry_vectors, variant_vector, languages, vector_key.
  destruct (str_truthy (strip (english (item_question item))));
    destruct (str_truthy (strip (hinglish (item_question item))));
    destruct (str_truthy (strip (hindi (item_question item))));
    cbn [app fmap list_fmap vec_id]; repeat constructor.
Qed.

Lemma entry_keys_NoDup item : NoDup (vec_id <$> entry_vectors svc item).
Proof.
  eapply sublist_NoDup; [|apply entry_keys].
  apply NoDup_fmap_2_strong; [|apply NoDup_languages].
  intros l1 l2 H1 H2 H. by apply (vector_key_inj _ _ _ _ H1 H2) in H as [_ ?].
Qed.

Lemma expected_keys data x :
  x ∈ vec_id <$> expected_index svc data →
  ∃ item lang, item ∈ data ∧ lang ∈ languages ∧ x = vector_key (item_id item) lang.
Proof.
  unfold expected_index. induction data as [|item data IH]; simpl.
  - intros H. by apply elem_of_nil in H.
  - rewrite fmap_app, elem_of_app. intros [H|H].
    + pose proof (elem_of_sublist _ _ _ H (entry_keys item)) as H'.
      apply list_elem_of_fmap in H' as (lang & -> & Hl).
      exists item, lang. split; [left|done].
    + destruct (IH H) as (item' & lang & Hi & Hl & ->).
      exists item', lang. split; [by right|done].
Qed.

Lemma expected_keys_NoDup data :
  NoDup (item_id <$> data) → NoDup (vec_id <$> expected_index svc data).
Proof.
  unfold expected_index. induction data as [|item data IH]; simpl; [constructor|].
  rewrite NoDup_cons. intros [Hnew Hrest].
  rewrite fmap_app. apply NoDup_app. split; [apply entry_keys_NoDup|].
  split; [|by apply IH].
  intros x Hx Hx'.
  pose proof (elem_of_sublist _ _ _ Hx (entry_keys item)) as Hk.
  apply list_elem_of_fmap in Hk as (lang & -> & Hl).
  apply expected_keys in Hx' as (item' & lang' & Hi & Hl' & Heq).
  apply (vector_key_inj _ _ _ _ Hl Hl') in Heq as [Heq _].
  apply Hnew. rewrite Heq. apply list_elem_of_fmap. by exists item'.
Qed.

End Keys.

(** C9. The corpus loader adds vectors exactly when the index is empty.
    On an index that holds vectors it only counts them.  On an empty one it
    hands to [collection.add], for every item and every language variant
    whose question text is not blank, one vector keyed by the id and the
    language, with the question text, its embedding, the three answers and
    the language tag, and nothing else; the index, which keeps one vector
    per key, then holds the first vector of every key, and so, the ids of
    the items being distinct, exactly these vectors. *)
Theorem loader_populates_only_an_empty_index (svc : Services)
    (data : list CorpusEntry) (σ : list IndexedVector) :
  (σ ≠ [] →
   initialize_app svc data σ
   = {| trace := [Called CollectionCount; Printed AlreadyPopulated];
        result := Returned tt;
        stored := σ |})
  ∧ (σ = [] → embeddable svc data →
     result (initialize_app svc data σ) = Returned tt
     ∧ add_calls (trace (initialize_app svc data σ)) = expected_index svc data
     ∧ stored (initialize_app svc data σ) = keep_first [] (expected_index svc data)
     ∧ (NoDup (item_id <$> data) →
        stored (initialize_app svc data σ) = expected_index svc data))
  ∧ (∀ item lang q_text,
       variant_vector svc item lang q_text
       = if str_truthy (strip q_text)
         then [{| vec_id := item_id item ++ py "_" ++ lang;
                  vec_document := q_text;
                  vec_metadata := answers_metadata item lang;
                  vec_embedding := embedding_of svc q_text |}]
         else [])
  ∧ (∀ item lang,
       answers_metadata item lang !! py "answer_english"
       = Some (english (item_answer item))
       ∧ answers_metadata item lang !! py "answer_hinglish"
         = Some (hinglish (item_answer item))
       ∧ answers_metadata item lang !! py "answer_hindi"
         = Some (hindi (item_answer item))
       ∧ answers_metadata item lang !! py "language" = Some lang).
Proof.
  split_and!.
  - apply initialize_app_populated.
  - intros -> He.
    pose proof (embeddable_returns svc data He) as Hres.
    destruct (initialize_app_empty svc data) as (added & Hs & Ha & _ & Hr).
    rewrite Hres in Hr. destruct Hr as [-> _].
    split_and!; [done|done|done|].
    intros Hids. rewrite Hs. apply keep_first_fresh.
    by apply expected_keys_NoDup.
  - done.
  - apply answers_metadata_lookup.
Qed.

Lemma loader_populates_only_an_empty_index_witness :
  stored (initialize_app
            (scripted (sample_results 0.1%float (py "english"))
               (Returned (py "YES")) (Returned (py "generated")))
            sample_corpus [])
  = expected_index
      (scripted (sample_results 0.1%float (py "english"))
         (Returned (py "YES")) (Returned (py "generated")))
      sample_corpus
  ∧ length (expected_index
      (scripted (sample_results 0.1%float (py "english"))
         (Returned (py "YES")) (Returned (py "generated")))
      sample_corpus) = 4.
Proof.
  split; [|by vm_compute].
  refine (proj2 (proj2 (proj2 (proj1 (proj2
    (loader_populates_only_an_empty_index _ sample_corpus [])) _ _))) _).
  - reflexivity.
  - intros item q_text _ _ _. by eexists.
  - apply (bool_decide_unpack _). vm_compute. exact I.
Defined.


(** * The index is only read by the question path *)

Lemma add_calls_app_nil t1 t2 :
  add_calls t1 = [] → add_calls t2 = [] → add_calls (t1 ++ t2) = [].
Proof. intros H1 H2. rewrite add_calls_app, H1, H2. reflexivity. Qed.

Lemma read_only_ret {A : Type} (a : A) : read_only (ret a).
Proof. intros σ. split; reflexivity. Qed.

Lemma read_only_raise {A : Type} e : read_only (raise (A:=A) e).
Proof. intros σ. split; reflexivity. Qed.

Lemma read_only_bind {A B : Type} (m : Py A) (k : A → Py B) :
  read_only m → (∀ a, read_only (k a)) → read_only (m ≫= k).
Proof.
  intros Hm Hk σ. unfold mbind, Py_bind, bind.
  destruct (Hm σ) as [Hs Ht].
  destruct (m σ) as [t [a|e] σ']; simpl in *; subst σ'; [|done].
  destruct (Hk a σ) as [Hs' Ht']. split; [done|by apply add_calls_app_nil].
Qed.

Lemma read_only_try_except {A : Type} (body : Py A) (handler : Exn → Py A) :
  read_only body → (∀ e, read_only (handler e)) → read_only (try_except body handler).
Proof.
  intros Hm Hk σ. unfold try_except.
  destruct (Hm σ) as [Hs Ht].
  destruct (body σ) as [t [a|e] σ']; simpl in *; subst σ'; [done|].
  destruct (Hk e σ) as [Hs' Ht']. split; [done|by apply add_calls_app_nil].
Qed.

Lemma read_only_print l : read_only (print l).
Proof. intros σ. split; reflexivity. Qed.

Lemma read_only_getindex {A : Type} (l : list A) i : read_only (getindex l i).
Proof. unfold getindex. destruct (l !! i); [apply read_only_ret|apply read_only_raise]. Qed.

Lemma read_only_getitem (d : Meta) (key : str) : read_only (getitem d key).
Proof. unfold getitem. destruct (d !! key); [apply read_only_ret|apply read_only_raise]. Qed.

Lemma read_only_one_minus t : read_only (one_minus t).
Proof. destruct t; [apply read_only_ret|apply read_only_raise]. Qed.

Section ReadOnly.
Context {U : Unicode} (svc : Services).

Lemma read_only_get_embedding text : read_only (get_embedding svc text).
Proof. intros σ. split; reflexivity. Qed.

Lemma read_only_query embs n : read_only (query svc embs n).
Proof. intros σ. split; reflexivity. Qed.

Lemma read_only_chat_completion request : read_only (chat_completion svc request).
Proof. intros σ. split; reflexivity. Qed.

Lemma read_only_collect_contexts results indices acc :
  read_only (collect_contexts results indices acc).
Proof.
  revert acc. induction indices as [|i indices IH]; intros acc.
  - apply read_only_ret.
  - simpl.
    repeat (apply read_only_bind;
            [first [apply read_only_getindex|apply read_only_getitem]|intros ?]).
    apply IH.
Qed.

Lemma read_only_gpt_fallback q results d : read_only (gpt_fallback svc q results d).
Proof.
  unfold gpt_fallback. cbv zeta.
  apply read_only_bind; [apply read_only_print|intros _].
  apply read_only_bind; [apply read_only_chat_completion|intros finance_check].
  apply read_only_bind; [apply read_only_print|intros _].
  destruct (negb _); [apply read_only_ret|].
  apply read_only_bind; [apply read_only_print|intros _].
  apply read_only_bind; [apply read_only_getindex|intros docs].
  apply read_only_bind; [apply read_only_collect_contexts|intros contexts].
  apply read_only_bind; [apply read_only_chat_completion|intros response].
  apply read_only_ret.
Qed.

Lemma read_only_match_branch meta d bound : read_only (match_branch meta d bound).
Proof.
  unfold match_branch. destruct (d <=? bound)%float; [|apply read_only_ret].
  apply read_only_bind; [apply read_only_getitem|intros lang].
  apply read_only_bind; [apply read_only_print|intros _].
  repeat (destruct (str_eqb _ _);
          [apply read_only_bind; [apply read_only_getitem|intros ?]; apply read_only_ret|]).
  apply read_only_ret.
Qed.

Lemma read_only_rag_answer q t : read_only (rag_answer svc q t).
Proof.
  unfold rag_answer. cbv zeta.
  destruct (folio_check q _); [apply read_only_ret|].
  apply read_only_bind; [apply read_only_get_embedding|intros emb].
  apply read_only_bind; [apply read_only_query|intros results].
  apply read_only_bind; [apply read_only_getindex|intros docs].
  destruct (negb _); [apply read_only_ret|].
  do 6 (apply read_only_bind; [apply read_only_getindex|intros ?]).
  do 3 (apply read_only_bind; [apply read_only_print|intros _]).
  apply read_only_bind; [apply read_only_one_minus|intros ?].
  apply read_only_bind; [apply read_only_print|intros _].
  apply read_only_bind; [apply read_only_one_minus|intros ?].
  apply read_only_bind; [apply read_only_match_branch|intros [answer|]].
  - apply read_only_ret.
  - apply read_only_gpt_fallback.
Qed.

Lemma read_only_chat query : read_only (chat svc query).
Proof.
  unfold chat. apply read_only_try_except; [|intros e; apply read_only_raise].
  destruct (_ || _); [apply read_only_raise|].
  apply read_only_bind; [apply read_only_rag_answer|intros [answer similarity]].
  apply read_only_ret.
Qed.

End ReadOnly.

(** X1. Answering a question never changes the index: whatever the request,
    the services and the vectors stored, a run of the [/chat] endpoint (and
    of [rag_answer] inside it) leaves the stored vectors as they were and
    makes no call to [collection.add]. *)
Theorem question_path_is_read_only {U : Unicode} (svc : Services)
    (query : QueryRequest) (σ : list IndexedVector) :
  stored (chat svc query σ) = σ
  ∧ add_calls (trace (chat svc query σ)) = []
  ∧ stored (rag_answer svc (question query) (similarity_threshold query) σ) = σ
  ∧ add_calls (trace (rag_answer svc (question query) (similarity_threshold query) σ))
    = [].
Proof.
  destruct (read_only_chat svc query σ) as [H1 H2].
  destruct (read_only_rag_answer svc (question query) (similarity_threshold query) σ)
    as [H3 H4].
  done.
Qed.


(** * The calls of a run *)

Lemma silent_ret {A : Type} (a : A) : silent (ret a).
Proof. intros σ. reflexivity. Qed.

Lemma silent_raise {A : Type} e : silent (raise (A:=A) e).
Proof. intros σ. reflexivity. Qed.

Lemma silent_print l : silent (print l).
Proof. intros σ. reflexivity. Qed.

Lemma silent_getindex {A : Type} (l : list A) i : silent (getindex l i).
Proof. unfold getindex. destruct (l !! i); [apply silent_ret|apply silent_raise]. Qed.

Lemma silent_getitem (d : Meta) (key : str) : silent (getitem d key).
Proof. unfold getitem. destruct (d !! key); [apply silent_ret|apply silent_raise]. Qed.

Lemma silent_one_minus t : silent (one_minus t).
Proof. destruct t; [apply silent_ret|apply silent_raise]. Qed.

Lemma silent_bind {A B : Type} (m : Py A) (k : A → Py B) :
  silent m → (∀ a, silent (k a)) → silent (m ≫= k).
Proof.
  intros Hm Hk σ. unfold mbind, Py_bind, bind. specialize (Hm σ).
  destruct (m σ) as [t [a|e] σ']; simpl in *; [|done].
  by rewrite calls_app, Hm, (Hk a σ').
Qed.

Lemma calls_in_ret {A : Type} (S : list Call → Prop) (a : A) :
  S [] → calls_in S (ret a).
Proof. intros H σ. exact H. Qed.

Lemma calls_in_bind_silent {A B : Type} (S : list Call → Prop) (m : Py A)
    (k : A → Py B) :
  silent m → S [] → (∀ a, calls_in S (k a)) → calls_in S (m ≫= k).
Proof.
  intros Hm H0 Hk σ. unfold mbind, Py_bind, bind. specialize (Hm σ).
  destruct (m σ) as [t [a|e] σ']; simpl in *.
  - rewrite calls_app, Hm. apply Hk.
  - by rewrite Hm.
Qed.

Lemma calls_in_bind_call {A B : Type} (S : list Call → Prop) (c : Call)
    (m : Py A) (k : A → Py B) :
  (∀ σ, calls (trace (m σ)) = [c]) → S [c] →
  (∀ a, calls_in (λ l, S (c :: l)) (k a)) → calls_in S (m ≫= k).
Proof.
  intros Hm H0 Hk σ. unfold mbind, Py_bind, bind. specialize (Hm σ).
  destruct (m σ) as [t [a|e] σ']; simpl in *.
  - rewrite calls_app, Hm. apply Hk.
  - by rewrite Hm.
Qed.

Section Calls.
Context {U : Unicode} (svc : Services).

Lemma silent_collect_contexts results indices acc :
  silent (collect_contexts results indices acc).
Proof.
  revert acc. induction indices as [|i indices IH]; intros acc.
  - apply silent_ret.
  - simpl.
    repeat (apply silent_bind;
            [first [apply silent_getindex|apply silent_getitem]|intros ?]).
    apply IH.
Qed.

Lemma silent_match_branch meta d bound : silent (match_branch meta d bound).
Proof.
  unfold match_branch. destruct (d <=? bound)%float; [|apply silent_ret].
  apply silent_bind; [apply silent_getitem|intros lang].
  apply silent_bind; [apply silent_print|intros _].
  repeat (destruct (str_eqb _ _);
          [apply silent_bind; [apply silent_getitem|intros ?]; apply silent_ret|]).
  apply silent_ret.
Qed.

Lemma calls_in_weaken {A : Type} (S S' : list Call → Prop) (m : Py A) :
  (∀ l, S l → S' l) → calls_in S m → calls_in S' m.
Proof. intros H Hm σ. apply H, Hm. Qed.

(** A call whose answer is handed on: what follows runs on an answer the
    call returned. *)
Lemma calls_in_bind_answer {A B : Type} (S : list Call → Prop) (Q : A → Prop)
    (c : Call) (m : Py A) (k : A → Py B) :
  (∀ σ, calls (trace (m σ)) = [c]) → (∀ σ a, result (m σ) = Returned a → Q a) →
  S [c] → (∀ a, Q a → calls_in (λ l, S (c :: l)) (k a)) → calls_in S (m ≫= k).
Proof.
  intros Hm HQ H0 Hk σ. unfold mbind, Py_bind, bind.
  specialize (Hm σ). specialize (HQ σ).
  destruct (m σ) as [t [a|e] σ']; simpl in *.
  - rewrite calls_app, Hm. apply Hk. by apply HQ.
  - by rewrite Hm.
Qed.

Lemma budget_one q emb :
  call_budget q emb [EmbeddingsCreate (py "text-embedding-3-small") q].
Proof.
  exists []. exists [CollectionQuery [emb] 2;
                     ChatCompletionsCreate (classifier_request q);
                     ChatCompletionsCreate (generator_request [] q)].
  reflexivity.
Qed.

Lemma budget_two q emb :
  call_budget q emb [EmbeddingsCreate (py "text-embedding-3-small") q;
                     CollectionQuery [emb] 2].
Proof.
  exists []. exists [ChatCompletionsCreate (classifier_request q);
                     ChatCompletionsCreate (generator_request [] q)].
  reflexivity.
Qed.

Lemma budget_three q emb :
  call_budget q emb [EmbeddingsCreate (py "text-embedding-3-small") q;
                     CollectionQuery [emb] 2;
                     ChatCompletionsCreate (classifier_request q)].
Proof.
  exists []. exists [ChatCompletionsCreate (generator_request [] q)].
  reflexivity.
Qed.

Lemma budget_four q emb context_text :
  call_budget q emb (full_run q emb context_text).
Proof. exists context_text. exists []. by rewrite app_nil_r. Qed.

Lemma gpt_fallback_calls q emb results d :
  calls_in (λ l, call_budget q emb
                   (EmbeddingsCreate (py "text-embedding-3-small") q
                    :: CollectionQuery [emb] 2 :: l))
    (gpt_fallback svc q results d).
Proof.
  unfold gpt_fallback. cbv zeta.
  apply calls_in_bind_silent; [apply silent_print|apply budget_two|intros _].
  eapply calls_in_bind_call; [intros σ; reflexivity|apply budget_three|intros finance_check].
  apply calls_in_bind_silent; [apply silent_print|apply budget_three|intros _].
  destruct (negb _); [apply calls_in_ret, budget_three|].
  apply calls_in_bind_silent; [apply silent_print|apply budget_three|intros _].
  apply calls_in_bind_silent; [apply silent_getindex|apply budget_three|intros docs].
  apply calls_in_bind_silent;
    [apply silent_collect_contexts|apply budget_three|intros contexts].
  eapply calls_in_bind_call; [intros σ; reflexivity|apply budget_four|intros response].
  apply calls_in_ret, budget_four.
Qed.

Lemma calls_allowed_nil q : calls_allowed svc q [].
Proof.
  unfold calls_allowed.
  destruct (embeddings_create svc (py "text-embedding-3-small") q) as [emb|e].
  - exists []. exists (full_run q emb []). reflexivity.
  - exists [EmbeddingsCreate (py "text-embedding-3-small") q]. reflexivity.
Qed.

Lemma calls_allowed_one q :
  calls_allowed svc q [EmbeddingsCreate (py "text-embedding-3-small") q].
Proof.
  unfold calls_allowed.
  destruct (embeddings_create svc (py "text-embedding-3-small") q) as [emb|e].
  - apply budget_one.
  - exists []. reflexivity.
Qed.

Lemma rag_answer_calls q t : calls_in (calls_allowed svc q) (rag_answer svc q t).
Proof.
  unfold rag_answer. cbv zeta.
  destruct (folio_check q _); [apply calls_in_ret, calls_allowed_nil|].
  eapply (calls_in_bind_answer _
            (λ emb, embeddings_create svc (py "text-embedding-3-small") q
                    = Returned emb));
    [intros σ; reflexivity|intros σ a H; exact H|apply calls_allowed_one|].
  intros emb He.
  apply (calls_in_weaken
           (λ l, call_budget q emb
                   (EmbeddingsCreate (py "text-embedding-3-small") q :: l))).
  { intros l H. unfold calls_allowed. rewrite He. exact H. }
  eapply calls_in_bind_call; [intros σ; reflexivity|apply budget_two|intros results].
  apply calls_in_bind_silent; [apply silent_getindex|apply budget_two|intros docs].
  destruct (negb _); [apply calls_in_ret, budget_two|].
  do 6 (apply calls_in_bind_silent; [apply silent_getindex|apply budget_two|intros ?]).
  do 3 (apply calls_in_bind_silent; [apply silent_print|apply budget_two|intros _]).
  apply calls_in_bind_silent; [apply silent_one_minus|apply budget_two|intros ?].
  apply calls_in_bind_silent; [apply silent_print|apply budget_two|intros _].
  apply calls_in_bind_silent; [apply silent_one_minus|apply budget_two|intros ?].
  apply calls_in_bind_silent;
    [apply silent_match_branch|apply budget_two|intros [answer|]].
  - apply calls_in_ret, budget_two.
  - apply gpt_fallback_calls.
Qed.

End Calls.

(** X2. Whatever the question, the threshold, the services and the index, a
    run of [rag_answer] makes at most four calls, and they are the first few
    of: the embedding of the question, one query of the index for 2
    neighbours with the embedding that call returned, the classifier request
    for the question, the generator request for the question.  So no service
    is called twice, the generator never before the classifier, and nothing
    before the embedding; when the embedding service raises, nothing follows
    its call. *)
Theorem rag_answer_call_budget {U : Unicode} (svc : Services) (q : str)
    (t : option float) (σ : list IndexedVector) :
  match embeddings_create svc (py "text-embedding-3-small") q with
  | Returned emb =>
    ∃ context_text,
      calls (trace (rag_answer svc q t σ)) `prefix_of` full_run q emb context_text
  | Raised _ =>
    calls (trace (rag_answer svc q t σ))
    `prefix_of` [EmbeddingsCreate (py "text-embedding-3-small") q]
  end.
Proof.
  pose proof (rag_answer_calls svc q t σ) as H.
  unfold calls_allowed, call_budget in H. exact H.
Qed.


(** * The endpoint *)

Lemma lstrip_nil s : lstrip s = [] ↔ whitespace_only s.
Proof.
  unfold whitespace_only. induction s as [|c s IH]; simpl.
  - split; [constructor|done].
  - destruct (isspace c) eqn:Hc.
    + rewrite IH. split; [by constructor|by inversion 1].
    + split; [done|]. inversion 1; congruence.
Qed.

Lemma lstrip_head s c r : lstrip s = c :: r → isspace c = false.
Proof.
  induction s as [|c' s IH]; simpl; [done|].
  destruct (isspace c') eqn:Hc; [done|]. congruence.
Qed.

Lemma strip_nil s : strip s = [] ↔ whitespace_only s.
Proof.
  unfold strip, rstrip. rewrite <- lstrip_nil.
  destruct (lstrip s) as [|c r] eqn:Hl; [done|].
  split; [|done]. intros H. exfalso.
  apply (f_equal reverse) in H. rewrite reverse_involutive in H.
  change (reverse []) with (@nil char) in H.
  apply lstrip_nil in H. unfold whitespace_only in H.
  rewrite reverse_cons, Forall_app, Forall_singleton in H.
  destruct H as [_ H]. apply lstrip_head in Hl. congruence.
Qed.

Lemma blank_check q :
  negb (str_truthy q) || negb (str_truthy (strip q)) = true ↔ whitespace_only q.
Proof.
  rewrite <- strip_nil. destruct q as [|c q]; [done|].
  simpl negb at 1. rewrite orb_false_l.
  destruct (strip (c :: q)); simpl; split; done.
Qed.

Section Endpoint.
Context {U : Unicode} (svc : Services).

Lemma chat_rejects query σ :
  whitespace_only (question query) → chat svc query σ = blank_rejection σ.
Proof.
  intros H. apply chat_blank. apply blank_check in H.
  destruct (str_truthy (question query)), (str_truthy (strip (question query))); done.
Qed.

Lemma not_blank_truthy q : ¬ whitespace_only q → str_truthy (strip q) = true.
Proof.
  intros H. rewrite <- strip_nil in H. by destruct (strip q).
Qed.

Lemma rag_answer_raised_trace q t σ e :
  result (rag_answer svc q t σ) = Raised e → trace (rag_answer svc q t σ) ≠ [].
Proof.
  unfold rag_answer. cbv zeta. destruct (folio_check q _); [done|].
  intros _. unfold mbind at 1. unfold Py_bind, bind.
  destruct (result (get_embedding svc q σ)); done.
Qed.

End Endpoint.

(** X3. The validation of [/chat] refuses exactly the questions made of
    whitespace only, the empty one among them: for such a question, and for
    no other, the run ends before [rag_answer] with no event at all and the
    wrapped rejection. *)
Theorem chat_rejects_exactly_blank_questions {U : Unicode} (svc : Services)
    (query : QueryRequest) (σ : list IndexedVector) :
  chat svc query σ = blank_rejection σ ↔ whitespace_only (question query).
Proof.
  split; [|apply chat_rejects].
  intros H.
  assert (whitespace_only (question query) ∨ ¬ whitespace_only (question query))
    as [Hb|Hb]; [|done|].
  { rewrite <- blank_check. destruct (_ || _); [by left|by right]. }
  exfalso. apply not_blank_truthy in Hb.
  destruct (rag_answer svc (question query) (similarity_threshold query) σ)
    as [tr [[answer s]|e] σ'] eqn:Hrun.
  - rewrite (chat_returned svc query σ tr answer s σ' Hb Hrun) in H. discriminate H.
  - rewrite (chat_raised svc query σ tr e σ' Hb Hrun) in H.
    pose proof (rag_answer_raised_trace svc (question query)
                  (similarity_threshold query) σ e) as Ht.
    rewrite Hrun in Ht. specialize (Ht eq_refl). simpl in Ht.
    injection H as H _. rewrite app_nil_r in H. done.
Qed.

(** X4. Once a request has passed the validation of [QueryRequest] and the
    handler [chat] runs on it (a body that fails that validation is answered
    by the framework, before the handler), the handler ends with status 200
    or 500 and no other: 200 exactly when the question is not blank and
    [rag_answer] returns; any exception of [rag_answer] reaches the caller
    as a 500 that wraps it. *)
Theorem chat_status_is_200_or_500 {U : Unicode} (svc : Services)
    (query : QueryRequest) (σ : list IndexedVector) :
  (http_status (result (chat svc query σ)) = 200%N
   ∨ http_status (result (chat svc query σ)) = 500%N)
  ∧ (http_status (result (chat svc query σ)) = 200%N
     ↔ ¬ whitespace_only (question query)
       ∧ ∃ answer s,
           result (rag_answer svc (question query) (similarity_threshold query) σ)
           = Returned (answer, s))
  ∧ (∀ e, ¬ whitespace_only (question query) →
       result (rag_answer svc (question query) (similarity_threshold query) σ)
       = Raised e →
       result (chat svc query σ) = Raised (HTTPException 500 (ErrorProcessingQuery e))).
Proof.
  assert (whitespace_only (question query) ∨ ¬ whitespace_only (question query))
    as [Hb|Hb].
  { rewrite <- blank_check. destruct (_ || _); [by left|by right]. }
  - rewrite (chat_rejects svc query σ Hb). simpl.
    split; [by right|]. split; [|done]. split; [done|]. by intros [? _].
  - pose proof (not_blank_truthy _ Hb) as Hq.
    destruct (rag_answer svc (question query) (similarity_threshold query) σ)
      as [tr [[answer s]|e] σ'] eqn:Hrun.
    + rewrite (chat_returned svc query σ tr answer s σ' Hq Hrun). simpl.
      split; [by left|]. split; [|done]. split; [|done]. intros _.
      split; [done|]. by exists answer, s.
    + rewrite (chat_raised svc query σ tr e σ' Hq Hrun). simpl.
      split; [by right|]. split.
      * split; [done|]. by intros [_ (? & ? & ?)].
      * intros e' _ [= ->]. done.
Qed.


(** * Failures on the question path *)

Lemma run_getindex_none {A B : Type} (l : list A) i (k : A → Py B) σ :
  l !! i = None →
  (getindex l i ≫= k) σ = {| trace := []; result := Raised IndexError; stored := σ |}.
Proof. intros H. unfold getindex. rewrite H. by apply run_bind_raised. Qed.

Lemma run_getitem_none {B : Type} (d : Meta) key (k : str → Py B) σ :
  d !! key = None →
  (getitem d key ≫= k) σ
  = {| trace := []; result := Raised (KeyError key); stored := σ |}.
Proof. intros H. unfold getitem. rewrite H. by apply run_bind_raised. Qed.

Section Failures.
Context {U : Unicode} (svc : Services).

Lemma run_get_embedding_raised {B : Type} text e (k : Embedding → Py B) σ :
  embeddings_create svc (py "text-embedding-3-small") text = Raised e →
  (get_embedding svc text ≫= k) σ
  = {| trace := [Called (EmbeddingsCreate (py "text-embedding-3-small") text)];
       result := Raised e; stored := σ |}.
Proof. intros H. apply run_bind_raised. unfold get_embedding. by rewrite H. Qed.

Lemma run_query_raised {B : Type} embs n e (k : QueryResult → Py B) σ :
  collection_query svc σ embs n = Raised e →
  (query svc embs n ≫= k) σ
  = {| trace := [Called (CollectionQuery embs n)]; result := Raised e; stored := σ |}.
Proof. intros H. apply run_bind_raised. unfold query. by rewrite H. Qed.

Lemma run_chat_completion_raised {B : Type} request e (k : str → Py B) σ :
  chat_completions_create svc request = Raised e →
  (chat_completion svc request ≫= k) σ
  = {| trace := [Called (ChatCompletionsCreate request)];
       result := Raised e; stored := σ |}.
Proof. intros H. apply run_bind_raised. unfold chat_completion. by rewrite H. Qed.

Lemma rag_answer_embedding_raised q t σ e :
  guard_passes q →
  embeddings_create svc (py "text-embedding-3-small") q = Raised e →
  rag_answer svc q t σ
  = {| trace := [Called (EmbeddingsCreate (py "text-embedding-3-small") q)];
       result := Raised e; stored := σ |}.
Proof.
  intros Hg He. unfold rag_answer. cbv zeta. rewrite Hg.
  by apply run_get_embedding_raised.
Qed.

Lemma rag_answer_query_raised q t σ emb e :
  guard_passes q →
  embeddings_create svc (py "text-embedding-3-small") q = Returned emb →
  collection_query svc σ [emb] 2 = Raised e →
  rag_answer svc q t σ
  = {| trace := [Called (EmbeddingsCreate (py "text-embedding-3-small") q);
                 Called (CollectionQuery [emb] 2)];
       result := Raised e; stored := σ |}.
Proof.
  intros Hg He Hq. unfold rag_answer. cbv zeta. rewrite Hg.
  rewrite (run_get_embedding _ _ _ _ _ He).
  rewrite (run_query_raised _ _ _ _ _ Hq). reflexivity.
Qed.

Lemma rag_answer_null_threshold σ q emb results doc meta d :
  retrieves svc σ q emb results → top_neighbor results doc meta d →
  rag_answer svc q None σ
  = {| trace := null_threshold_events q emb doc d;
       result := Raised TypeError; stored := σ |}.
Proof.
  intros (Hg & He & Hq) (docs & metas & dists & Hdo & Hme & Hdi).
  unfold rag_answer. cbv zeta. rewrite Hg.
  rewrite (run_get_embedding _ _ _ _ _ He).
  rewrite (run_query _ _ _ _ _ _ Hq).
  rewrite (run_getindex _ _ _ _ _ Hdo).
  rewrite bool_decide_true by done. cbv beta iota. unfold negb.
  rewrite (run_getindex _ _ _ _ _ Hdi).
  rewrite (run_getindex (d :: dists) 0 d) by done.
  rewrite (run_getindex _ _ _ _ _ Hme).
  rewrite (run_getindex (meta :: metas) 0 meta) by done.
  rewrite (run_getindex _ _ _ _ _ Hdo).
  rewrite (run_getindex (doc :: docs) 0 doc) by done.
  rewrite !run_print.
  erewrite (run_bind_raised (one_minus None)); [|reflexivity].
  reflexivity.
Qed.

Lemma match_branch_no_language {B : Type} meta d bound
    (k : option (str * float) → Py B) σ :
  (d <=? bound)%float = true → meta !! py "language" = None →
  (match_branch meta d bound ≫= k) σ
  = {| trace := []; result := Raised (KeyError (py "language")); stored := σ |}.
Proof.
  intros H Hl. unfold match_branch. rewrite H.
  rewrite bind_assoc. by apply run_getitem_none.
Qed.

Lemma match_branch_no_answer {B : Type} meta d bound lang
    (k : option (str * float) → Py B) σ :
  (d <=? bound)%float = true → meta !! py "language" = Some lang →
  known_language lang → meta !! answer_key lang = None →
  (match_branch meta d bound ≫= k) σ
  = {| trace := [Printed (MatchFound lang)];
       result := Raised (KeyError (answer_key lang)); stored := σ |}.
Proof.
  intros H Hl Hk Ha. unfold match_branch. rewrite H.
  rewrite bind_assoc, (run_getitem _ _ _ _ _ Hl), bind_assoc, run_print.
  unfold str_eqb.
  destruct Hk as [->|[->| ->]].
  - rewrite bool_decide_true by done.
    rewrite bind_assoc, (run_getitem_none _ _ _ _ Ha). reflexivity.
  - rewrite bool_decide_false by (by vm_compute).
    rewrite bool_decide_true by done.
    rewrite bind_assoc, (run_getitem_none _ _ _ _ Ha). reflexivity.
  - rewrite bool_decide_false by (by vm_compute).
    rewrite bool_decide_false by (by vm_compute).
    rewrite bool_decide_true by done.
    rewrite bind_assoc, (run_getitem_none _ _ _ _ Ha). reflexivity.
Qed.

Lemma gpt_fallback_classifier_raised q results d e σ :
  chat_completions_create svc (classifier_request q) = Raised e →
  gpt_fallback svc q results d σ
  = {| trace := [Printed NoExactMatch;
                 Called (ChatCompletionsCreate (classifier_request q))];
       result := Raised e; stored := σ |}.
Proof.
  intros Hc. unfold gpt_fallback. cbv zeta.
  rewrite run_print, (run_chat_completion_raised _ _ _ _ Hc). reflexivity.
Qed.

Lemma gpt_fallback_generator_raised q results d response docs metas blocks e σ :
  chat_completions_create svc (classifier_request q) = Returned response →
  upper (strip response) = py "YES" →
  documents results !! 0 = Some docs →
  metadatas results !! 0 = Some metas →
  contexts_for docs metas blocks →
  chat_completions_create svc
    (generator_request (join (newline ++ newline) blocks) q) = Raised e →
  gpt_fallback svc q results d σ
  = {| trace := gate_events q response
         ++ [Printed GeneratingAnswer;
             Called (ChatCompletionsCreate
                       (generator_request (join (newline ++ newline) blocks) q))];
       result := Raised e; stored := σ |}.
Proof.
  intros Hc Hy Hd Hm Hb Hg. unfold gpt_fallback. cbv zeta.
  rewrite run_print, (run_chat_completion _ _ _ _ _ Hc), run_print.
  unfold str_eqb. rewrite bool_decide_true by done. cbv beta iota. unfold negb.
  rewrite run_print, (run_getindex _ _ _ _ _ Hd).
  erewrite (run_bind (collect_contexts _ _ _));
    [|by apply (collect_contexts_all _ _ _ _ _ Hd Hm Hb)].
  rewrite (run_chat_completion_raised _ _ _ _ Hg).
  reflexivity.
Qed.

Lemma gpt_fallback_top_context_missing q results d response doc docs meta metas σ :
  chat_completions_create svc (classifier_request q) = Returned response →
  upper (strip response) = py "YES" →
  documents results !! 0 = Some (doc :: docs) →
  metadatas results !! 0 = Some (meta :: metas) →
  meta !! py "answer_english" = None →
  gpt_fallback svc q results d σ
  = {| trace := gate_events q response ++ [Printed GeneratingAnswer];
       result := Raised (KeyError (py "answer_english")); stored := σ |}.
Proof.
  intros Hc Hy Hd Hm Ha. unfold gpt_fallback. cbv zeta.
  rewrite run_print, (run_chat_completion _ _ _ _ _ Hc), run_print.
  unfold str_eqb. rewrite bool_decide_true by done. cbv beta iota. unfold negb.
  rewrite run_print, (run_getindex _ _ _ _ _ Hd).
  erewrite (run_bind_raised (collect_contexts _ _ _)); [reflexivity|].
  change (seq 0 (length (doc :: docs))) with (0 :: seq 1 (length docs)).
  unfold collect_contexts; fold collect_contexts.
  rewrite (run_getindex _ _ _ _ _ Hd).
  rewrite (run_getindex (doc :: docs) 0 doc) by done.
  rewrite (run_getindex _ _ _ _ _ Hm).
  rewrite (run_getindex (meta :: metas) 0 meta) by done.
  by apply run_getitem_none.
Qed.

End Failures.

Section Failures2.
Context {U : Unicode} (svc : Services).

Lemma gpt_fallback_top_hindi_missing q results d response doc docs meta metas
    answer_english σ :
  chat_completions_create svc (classifier_request q) = Returned response →
  upper (strip response) = py "YES" →
  documents results !! 0 = Some (doc :: docs) →
  metadatas results !! 0 = Some (meta :: metas) →
  meta !! py "answer_english" = Some answer_english →
  meta !! py "answer_hindi" = None →
  gpt_fallback svc q results d σ
  = {| trace := gate_events q response ++ [Printed GeneratingAnswer];
       result := Raised (KeyError (py "answer_hindi")); stored := σ |}.
Proof.
  intros Hc Hy Hd Hm Ha Hh. unfold gpt_fallback. cbv zeta.
  rewrite run_print, (run_chat_completion _ _ _ _ _ Hc), run_print.
  unfold str_eqb. rewrite bool_decide_true by done. cbv beta iota. unfold negb.
  rewrite run_print, (run_getindex _ _ _ _ _ Hd).
  erewrite (run_bind_raised (collect_contexts _ _ _)); [reflexivity|].
  change (seq 0 (length (doc :: docs))) with (0 :: seq 1 (length docs)).
  unfold collect_contexts; fold collect_contexts.
  rewrite (run_getindex _ _ _ _ _ Hd).
  rewrite (run_getindex (doc :: docs) 0 doc) by done.
  rewrite (run_getindex _ _ _ _ _ Hm).
  rewrite (run_getindex (meta :: metas) 0 meta) by done.
  rewrite (run_getitem _ _ _ _ _ Ha).
  by apply run_getitem_none.
Qed.

End Failures2.


(** X5. A request whose [similarity_threshold] is [null] fails as soon as a
    neighbour is retrieved: after the embedding, the query and three printed
    lines, [1 - None] raises [TypeError]; no classifier or generator call is
    made, and for a question that is not blank the endpoint answers with the
    500 that wraps it. *)
Theorem null_threshold_is_a_type_error {U : Unicode} (svc : Services)
    (σ : list IndexedVector) (q : str) (emb : Embedding) (results : QueryResult)
    (doc : str) (meta : Meta) (d : float) :
  retrieves svc σ q emb results → top_neighbor results doc meta d →
  rag_answer svc q None σ
  = {| trace := null_threshold_events q emb doc d;
       result := Raised TypeError; stored := σ |}
  ∧ (¬ whitespace_only q →
     result (chat svc {| question := q; similarity_threshold := None |} σ)
     = Raised (HTTPException 500 (ErrorProcessingQuery TypeError))).
Proof.
  intros Hr Ht. pose proof (rag_answer_null_threshold svc σ q emb results doc meta d Hr Ht) as Hrun.
  split; [done|]. intros Hb. apply not_blank_truthy in Hb.
  by rewrite (chat_raised svc {| question := q; similarity_threshold := None |}
                σ _ _ _ Hb Hrun).
Qed.

Lemma null_threshold_is_a_type_error_witness :
  rag_answer (U:=latin_tables)
    (scripted (sample_results 0.1%float (py "hindi"))
       (Returned (py "YES")) (Returned (py "generated")))
    (py "What is SIP?") None []
  = {| trace := null_threshold_events (py "What is SIP?") sample_embedding
                  (py "What is SIP?") 0.1%float;
       result := Raised TypeError; stored := [] |}
  ∧ (¬ whitespace_only (py "What is SIP?") →
     result (chat (U:=latin_tables)
       (scripted (sample_results 0.1%float (py "hindi"))
          (Returned (py "YES")) (Returned (py "generated")))
       {| question := py "What is SIP?"; similarity_threshold := None |} [])
     = Raised (HTTPException 500 (ErrorProcessingQuery TypeError))).
Proof.
  apply (null_threshold_is_a_type_error (U:=latin_tables) _ [] _ sample_embedding
           (sample_results 0.1%float (py "hindi")) (py "What is SIP?")
           (sample_meta (py "hindi")) 0.1%float).
  - split; [by vm_compute|]. split; reflexivity.
  - by eexists _, _, _.
Defined.

(** X6. A neighbour within the bound whose metadata is incomplete makes the
    match branch raise [KeyError]: for the key [language] before the line of
    the match is printed, and for the answer key of a known language right
    after it.  In both cases the run ends there, with no fallback. *)
Theorem match_with_missing_metadata {U : Unicode} (svc : Services)
    (σ : list IndexedVector) (q : str) (t : float) (emb : Embedding)
    (results : QueryResult) (doc : str) (meta : Meta) (d : float) :
  retrieves svc σ q emb results → top_neighbor results doc meta d →
  (d <=? 1 - t)%float = true →
  (meta !! py "language" = None →
   rag_answer svc q (Some t) σ
   = {| trace := threshold_prefix q emb doc d t;
        result := Raised (KeyError (py "language")); stored := σ |})
  ∧ (∀ lang, meta !! py "language" = Some lang → known_language lang →
       meta !! answer_key lang = None →
       rag_answer svc q (Some t) σ
       = {| trace := threshold_prefix q emb doc d t ++ [Printed (MatchFound lang)];
            result := Raised (KeyError (answer_key lang)); stored := σ |}).
Proof.
  intros Hr Ht Hle. split.
  - intros Hl. rewrite (rag_answer_threshold _ _ _ _ _ _ _ _ _ Hr Ht).
    rewrite (match_branch_no_language _ _ _ _ _ Hle Hl).
    unfold prepend. cbn [trace result stored]. by rewrite app_nil_r.
  - intros lang Hl Hk Ha. rewrite (rag_answer_threshold _ _ _ _ _ _ _ _ _ Hr Ht).
    rewrite (match_branch_no_answer _ _ _ _ _ _ Hle Hl Hk Ha).
    reflexivity.
Qed.

Lemma match_with_missing_metadata_witness :
  rag_answer (U:=latin_tables)
    (scripted (one_neighbour ∅ 0.1%float)
       (Returned (py "YES")) (Returned (py "generated")))
    (py "What is SIP?") (Some 0.7%float) []
  = {| trace := threshold_prefix (py "What is SIP?") sample_embedding
                  (py "What is SIP?") 0.1%float 0.7%float;
       result := Raised (KeyError (py "language")); stored := [] |}
  ∧ rag_answer (U:=latin_tables)
      (scripted (one_neighbour (tag_only_meta (py "hindi")) 0.1%float)
         (Returned (py "YES")) (Returned (py "generated")))
      (py "What is SIP?") (Some 0.7%float) []
    = {| trace := threshold_prefix (py "What is SIP?") sample_embedding
                    (py "What is SIP?") 0.1%float 0.7%float
                  ++ [Printed (MatchFound (py "hindi"))];
         result := Raised (KeyError (answer_key (py "hindi"))); stored := [] |}.
Proof.
  split.
  - refine (proj1 (match_with_missing_metadata (U:=latin_tables) _ [] _ _
                     sample_embedding (one_neighbour ∅ 0.1%float)
                     (py "What is SIP?") ∅ 0.1%float _ _ _) _).
    + split; [by vm_compute|]. split; reflexivity.
    + by eexists _, _, _.
    + reflexivity.
    + reflexivity.
  - refine (proj2 (match_with_missing_metadata (U:=latin_tables) _ [] _ _
                     sample_embedding
                     (one_neighbour (tag_only_meta (py "hindi")) 0.1%float)
                     (py "What is SIP?") (tag_only_meta (py "hindi")) 0.1%float
                     _ _ _) (py "hindi") _ _ _).
    + split; [by vm_compute|]. split; reflexivity.
    + by eexists _, _, _.
    + reflexivity.
    + by vm_compute.
    + right. by left.
    + by vm_compute.
Defined.

(** X7. A failure of the embedding service or of the query of the index ends
    the run at that call: [rag_answer] raises the very exception of the
    service, after the embedding call alone or after the embedding and the
    query, and the index is as it was. *)
Theorem service_failure_before_threshold {U : Unicode} (svc : Services)
    (σ : list IndexedVector) (q : str) (t : option float) :
  guard_passes q →
  (∀ e, embeddings_create svc (py "text-embedding-3-small") q = Raised e →
     rag_answer svc q t σ
     = {| trace := [Called (EmbeddingsCreate (py "text-embedding-3-small") q)];
          result := Raised e; stored := σ |})
  ∧ (∀ emb e,
       embeddings_create svc (py "text-embedding-3-small") q = Returned emb →
       collection_query svc σ [emb] 2 = Raised e →
       rag_answer svc q t σ
       = {| trace := [Called (EmbeddingsCreate (py "text-embedding-3-small") q);
                      Called (CollectionQuery [emb] 2)];
            result := Raised e; stored := σ |}).
Proof.
  intros Hg. split.
  - intros e He. by apply rag_answer_embedding_raised.
  - intros emb e He Hq. by apply rag_answer_query_raised.
Qed.

Lemma service_failure_before_threshold_witness :
  rag_answer (U:=latin_tables)
    (scripted_services (Raised (ServiceError (py "rate limit")))
       (Returned (sample_results 0.1%float (py "hindi")))
       (Returned (py "YES")) (Returned (py "generated")))
    (py "What is SIP?") (Some 0.7%float) []
  = {| trace := [Called (EmbeddingsCreate (py "text-embedding-3-small")
                           (py "What is SIP?"))];
       result := Raised (ServiceError (py "rate limit")); stored := [] |}
  ∧ rag_answer (U:=latin_tables)
      (scripted_services (Returned sample_embedding)
         (Raised (ServiceError (py "index unavailable")))
         (Returned (py "YES")) (Returned (py "generated")))
      (py "What is SIP?") (Some 0.7%float) []
    = {| trace := [Called (EmbeddingsCreate (py "text-embedding-3-small")
                             (py "What is SIP?"));
                   Called (CollectionQuery [sample_embedding] 2)];
         result := Raised (ServiceError (py "index unavailable")); stored := [] |}.
Proof.
  split.
  - refine (proj1 (service_failure_before_threshold (U:=latin_tables) _ [] _ _ _) _ _).
    + by vm_compute.
    + reflexivity.
  - refine (proj2 (service_failure_before_threshold (U:=latin_tables) _ [] _ _ _)
              _ _ _ _).
    + by vm_compute.
    + reflexivity.
    + reflexivity.
Defined.

(** X8. On the path without a match, a failure of the classifier ends the
    run with its exception after three calls, the generator not being
    called; a failure of the generator ends it with its exception after the
    four calls.  No answer is made up in either case. *)
Theorem service_failure_after_threshold {U : Unicode} (svc : Services)
    (σ : list IndexedVector) (q : str) (t : float) (emb : Embedding)
    (results : QueryResult) (doc : str) (meta : Meta) (d : float) :
  retrieves svc σ q emb results → top_neighbor results doc meta d →
  no_answer_from_match meta d t →
  (∀ e, chat_completions_create svc (classifier_request q) = Raised e →
     result (rag_answer svc q (Some t) σ) = Raised e
     ∧ calls (trace (rag_answer svc q (Some t) σ))
       = [EmbeddingsCreate (py "text-embedding-3-small") q;
          CollectionQuery [emb] 2;
          ChatCompletionsCreate (classifier_request q)])
  ∧ (∀ response docs metas blocks e,
       chat_completions_create svc (classifier_request q) = Returned response →
       upper (strip response) = py "YES" →
       documents results !! 0 = Some docs → metadatas results !! 0 = Some metas →
       contexts_for docs metas blocks →
       chat_completions_create svc
         (generator_request (join (newline ++ newline) blocks) q) = Raised e →
       result (rag_answer svc q (Some t) σ) = Raised e
       ∧ calls (trace (rag_answer svc q (Some t) σ))
         = [EmbeddingsCreate (py "text-embedding-3-small") q;
            CollectionQuery [emb] 2;
            ChatCompletionsCreate (classifier_request q);
            ChatCompletionsCreate
              (generator_request (join (newline ++ newline) blocks) q)]).
Proof.
  intros Hr Ht Hno.
  destruct (rag_answer_falls_back svc _ _ _ _ _ _ _ _ Hr Ht Hno) as (pre & -> & Hpre).
  split.
  - intros e Hc. rewrite (gpt_fallback_classifier_raised _ _ _ _ _ _ Hc).
    split; [done|]. rewrite trace_prepend, calls_app, Hpre. reflexivity.
  - intros response docs metas blocks e Hc Hy Hd Hm Hb Hg.
    rewrite (gpt_fallback_generator_raised _ _ _ _ _ _ _ _ _ _ Hc Hy Hd Hm Hb Hg).
    split; [done|]. rewrite trace_prepend, calls_app, Hpre. reflexivity.
Qed.

Lemma service_failure_after_threshold_witness :
  (result (rag_answer (U:=latin_tables)
     (scripted_services (Returned sample_embedding)
        (Returned (one_neighbour (sample_meta (py "english")) 0.9%float))
        (Raised (ServiceError (py "rate limit"))) (Returned (py "generated")))
     (py "How do I start investing?") (Some 0.7%float) [])
   = Raised (ServiceError (py "rate limit"))
   ∧ calls (trace (rag_answer (U:=latin_tables)
       (scripted_services (Returned sample_embedding)
          (Returned (one_neighbour (sample_meta (py "english")) 0.9%float))
          (Raised (ServiceError (py "rate limit"))) (Returned (py "generated")))
       (py "How do I start investing?") (Some 0.7%float) []))
     = [EmbeddingsCreate (py "text-embedding-3-small") (py "How do I start investing?");
        CollectionQuery [sample_embedding] 2;
        ChatCompletionsCreate (classifier_request (py "How do I start investing?"))])
  ∧ result (rag_answer (U:=latin_tables)
      (scripted_services (Returned sample_embedding)
         (Returned (one_neighbour (sample_meta (py "english")) 0.9%float))
         (Returned (py "YES")) (Raised (ServiceError (py "timeout"))))
      (py "How do I start investing?") (Some 0.7%float) [])
    = Raised (ServiceError (py "timeout")).
Proof.
  split.
  - refine (proj1 (service_failure_after_threshold (U:=latin_tables) _ [] _ _
                     sample_embedding
                     (one_neighbour (sample_meta (py "english")) 0.9%float)
                     (py "What is SIP?") (sample_meta (py "english")) 0.9%float
                     _ _ _) _ _).
    + split; [by vm_compute|]. split; reflexivity.
    + by eexists _, _, _.
    + left. reflexivity.
    + reflexivity.
  - refine (proj1 (proj2 (service_failure_after_threshold (U:=latin_tables) _ [] _ _
                     sample_embedding
                     (one_neighbour (sample_meta (py "english")) 0.9%float)
                     (py "What is SIP?") (sample_meta (py "english")) 0.9%float
                     _ _ _) (py "YES") [py "What is SIP?"]
                     [sample_meta (py "english")]
                     [context_block (py "What is SIP?")
                        (py "A SIP invests a fixed amount at regular intervals.")
                        (py "एसआईपी में नियमित अंतराल पर निश्चित राशि निवेश होती है।")]
                     _ _ _ _ _ _ _)).
    + split; [by vm_compute|]. split; reflexivity.
    + by eexists _, _, _.
    + left. reflexivity.
    + reflexivity.
    + by vm_compute.
    + reflexivity.
    + reflexivity.
    + repeat (apply contexts_cons; [by vm_compute|by vm_compute|]). apply contexts_nil.
    + reflexivity.
Defined.

(** X9. The generated fallback needs the English and the Hindi answer of the
    nearest neighbour (and not the Hinglish one): when the classifier says
    YES and the metadata of that neighbour lacks [answer_english], or has it
    and lacks [answer_hindi], the run raises [KeyError] for that key after
    the classifier call, and the generator is not called. *)
Theorem fallback_with_missing_answer {U : Unicode} (svc : Services)
    (σ : list IndexedVector) (q : str) (t : float) (emb : Embedding)
    (results : QueryResult) (doc : str) (meta : Meta) (d : float)
    (response : str) :
  retrieves svc σ q emb results → top_neighbor results doc meta d →
  no_answer_from_match meta d t →
  chat_completions_create svc (classifier_request q) = Returned response →
  upper (strip response) = py "YES" →
  (meta !! py "answer_english" = None →
   result (rag_answer svc q (Some t) σ) = Raised (KeyError (py "answer_english"))
   ∧ chat_calls (trace (rag_answer svc q (Some t) σ)) = [classifier_request q])
  ∧ (∀ answer_english,
       meta !! py "answer_english" = Some answer_english →
       meta !! py "answer_hindi" = None →
       result (rag_answer svc q (Some t) σ) = Raised (KeyError (py "answer_hindi"))
       ∧ chat_calls (trace (rag_answer svc q (Some t) σ)) = [classifier_request q]).
Proof.
  intros Hr Ht Hno Hc Hy.
  destruct (rag_answer_falls_back svc _ _ _ _ _ _ _ _ Hr Ht Hno) as (pre & -> & Hpre).
  destruct Ht as (docs & metas & dists & Hdo & Hme & Hdi).
  assert (chat_calls (pre ++ gate_events q response ++ [Printed GeneratingAnswer])
          = [classifier_request q]) as Hchat.
  { rewrite chat_calls_of_calls, calls_app, Hpre. reflexivity. }
  split.
  - intros Ha.
    rewrite (gpt_fallback_top_context_missing _ _ _ _ _ _ _ _ _ _ Hc Hy Hdo Hme Ha).
    split; [done|]. rewrite trace_prepend. exact Hchat.
  - intros answer_english Ha Hh.
    rewrite (gpt_fallback_top_hindi_missing _ _ _ _ _ _ _ _ _ _ _ Hc Hy Hdo Hme Ha Hh).
    split; [done|]. rewrite trace_prepend. exact Hchat.
Qed.

Lemma fallback_with_missing_answer_witness :
  result (rag_answer (U:=latin_tables)
    (scripted (one_neighbour (tag_only_meta (py "hinglish")) 0.9%float)
       (Returned (py "YES")) (Returned (py "generated")))
    (py "How do I start investing?") (Some 0.7%float) [])
  = Raised (KeyError (py "answer_english"))
  ∧ chat_calls (trace (rag_answer (U:=latin_tables)
      (scripted (one_neighbour (tag_only_meta (py "hinglish")) 0.9%float)
         (Returned (py "YES")) (Returned (py "generated")))
      (py "How do I start investing?") (Some 0.7%float) []))
    = [classifier_request (py "How do I start investing?")].
Proof.
  refine (proj1 (fallback_with_missing_answer (U:=latin_tables) _ [] _ _
                   sample_embedding
                   (one_neighbour (tag_only_meta (py "hinglish")) 0.9%float)
                   (py "What is SIP?") (tag_only_meta (py "hinglish")) 0.9%float
                   (py "YES") _ _ _ _ _) _).
  - split; [by vm_compute|]. split; reflexivity.
  - by eexists _, _, _.
  - left. reflexivity.
  - reflexivity.
  - by vm_compute.
  - by vm_compute.
Defined.


(** * The corpus loader when the embedding service fails *)

(** A list has one first element that fails a property. *)
Lemma first_failure_unique {A : Type} (P : A → Prop) (a a' : list A) x x' r r' :
  a ++ x :: r = a' ++ x' :: r' → Forall P a → Forall P a' → ¬ P x → ¬ P x' →
  a = a' ∧ x = x'.
Proof.
  revert a'. induction a as [|y a IH]; intros [|y' a'] E Ha Ha' Hx Hx'; simpl in E.
  - by injection E as -> _.
  - injection E as -> _. by apply Forall_cons in Ha' as [? _].
  - injection E as <- _. by apply Forall_cons in Ha as [? _].
  - injection E as -> E. apply Forall_cons in Ha as [_ Ha].
    apply Forall_cons in Ha' as [_ Ha'].
    destruct (IH a' E Ha Ha' Hx Hx') as [-> ->]. done.
Qed.

Section LoaderFailures.
Context (svc : Services).

Lemma stored_sublist_expected data :
  stored (initialize_app svc data []) `sublist_of` expected_index svc data.
Proof.
  destruct (initialize_app_empty svc data) as (added & Hs & _ & _ & Hres).
  rewrite Hs. etrans; [apply keep_first_sublist|].
  destruct (result (initialize_app svc data [])).
  - by destruct Hres as [-> _].
  - destruct Hres as (_ & v & rest & -> & _). by apply sublist_inserts_r.
Qed.

Lemma first_refusal_raises data loaded v rest e :
  expected_index svc data = loaded ++ v :: rest →
  Forall (embedded svc) loaded →
  embeddings_create svc (py "text-embedding-3-small") (vec_document v) = Raised e →
  result (initialize_app svc data []) = Raised e
  ∧ add_calls (trace (initialize_app svc data [])) = loaded
  ∧ printed (trace (initialize_app svc data [])) = []
  ∧ stored (initialize_app svc data []) = keep_first [] loaded.
Proof.
  intros Hsplit Hl He.
  assert (¬ embedded svc v) as Hv by (intros [emb Hemb]; congruence).
  destruct (initialize_app_empty svc data) as (added & Hs & Ha & Hf & Hres).
  destruct (result (initialize_app svc data [])) as [[]|e'].
  - destruct Hres as [-> _]. exfalso. apply Hv.
    rewrite Forall_forall in Hf. apply Hf. rewrite Hsplit.
    apply elem_of_app. right. left.
  - destruct Hres as (Hp & v' & rest' & Hsplit' & He').
    assert (¬ embedded svc v') as Hv' by (intros [emb Hemb]; congruence).
    rewrite Hsplit in Hsplit'.
    destruct (first_failure_unique _ _ _ _ _ _ _ Hsplit' Hl Hf Hv Hv') as [-> ->].
    split; [congruence|]. done.
Qed.

End LoaderFailures.

(** X10. When the embedding service refuses a question text during the
    first load, having answered for the texts before it, the loader raises
    the exception of the service: the vectors before that text, and no
    other, were handed to [collection.add], the index holds the first
    vector of each of their keys (all of them when the ids of the items are
    distinct), and the line of a finished load is not printed.  If a vector
    was added, the next start finds the index populated and adds nothing:
    the load is never completed. *)
Theorem interrupted_load_is_never_resumed (svc : Services)
    (data : list CorpusEntry) (loaded : list IndexedVector) (v : IndexedVector)
    (rest : list IndexedVector) (e : Exn) :
  expected_index svc data = loaded ++ v :: rest →
  Forall (embedded svc) loaded →
  embeddings_create svc (py "text-embedding-3-small") (vec_document v) = Raised e →
  result (initialize_app svc data []) = Raised e
  ∧ add_calls (trace (initialize_app svc data [])) = loaded
  ∧ printed (trace (initialize_app svc data [])) = []
  ∧ stored (initialize_app svc data []) = keep_first [] loaded
  ∧ (NoDup (item_id <$> data) → stored (initialize_app svc data []) = loaded)
  ∧ (loaded ≠ [] →
     initialize_app svc data (stored (initialize_app svc data []))
     = {| trace := [Called CollectionCount; Printed AlreadyPopulated];
          result := Returned tt;
          stored := stored (initialize_app svc data []) |}).
Proof.
  intros Hsplit Hl He.
  destruct (first_refusal_raises svc data loaded v rest e Hsplit Hl He)
    as (Hr & Ha & Hp & Hs).
  split_and!; try done.
  - intros Hids. rewrite Hs. apply keep_first_fresh. simpl.
    pose proof (expected_keys_NoDup svc data Hids) as Hnd.
    rewrite Hsplit, fmap_app in Hnd. by apply NoDup_app in Hnd as (Hnd & _ & _).
  - intros Hne. apply initialize_app_populated. rewrite Hs.
    destruct loaded as [|w loaded]; [done|]. apply keep_first_head.
Qed.

Lemma interrupted_load_is_never_resumed_witness :
  result (initialize_app (refusing (py "SIP kya hai?")) sample_corpus [])
  = Raised (ServiceError (py "rate limit"))
  ∧ add_calls (trace (initialize_app (refusing (py "SIP kya hai?")) sample_corpus []))
    = [first_sample_vector]
  ∧ printed (trace (initialize_app (refusing (py "SIP kya hai?")) sample_corpus [])) = []
  ∧ stored (initialize_app (refusing (py "SIP kya hai?")) sample_corpus [])
    = keep_first [] [first_sample_vector]
  ∧ (NoDup (item_id <$> sample_corpus) →
     stored (initialize_app (refusing (py "SIP kya hai?")) sample_corpus [])
     = [first_sample_vector])
  ∧ ([first_sample_vector] ≠ [] →
     initialize_app (refusing (py "SIP kya hai?")) sample_corpus
       (stored (initialize_app (refusing (py "SIP kya hai?")) sample_corpus []))
     = {| trace := [Called CollectionCount; Printed AlreadyPopulated];
          result := Returned tt;
          stored := stored (initialize_app (refusing (py "SIP kya hai?"))
                              sample_corpus []) |}).
Proof.
  apply (interrupted_load_is_never_resumed (refusing (py "SIP kya hai?")) sample_corpus
           [first_sample_vector]
           {| vec_id := py "q1_hinglish";
              vec_document := py "SIP kya hai?";
              vec_metadata := sample_meta (py "hinglish");
              vec_embedding := [] |}
           (drop 2 (expected_index (refusing (py "SIP kya hai?")) sample_corpus))
           (ServiceError (py "rate limit"))).
  - vm_compute. reflexivity.
  - constructor; [|constructor]. exists sample_embedding. vm_compute. reflexivity.
  - vm_compute. reflexivity.
Defined.


(** X11. The key [{id}_{language}] of a stored vector determines the id of
    its item and its language, so when the ids of the items of the corpus
    are distinct, the first load stores no two vectors under the same key
    (whether it finishes or is interrupted), and every key it stores is
    the key of an item of the corpus in one of the three languages. *)
Theorem stored_keys_are_distinct (svc : Services) (data : list CorpusEntry) :
  NoDup (item_id <$> data) →
  NoDup (vec_id <$> stored (initialize_app svc data []))
  ∧ (∀ v, v ∈ stored (initialize_app svc data []) →
       ∃ item lang, item ∈ data ∧ lang ∈ languages
                    ∧ vec_id v = vector_key (item_id item) lang)
  ∧ (∀ id1 id2 lang1 lang2,
       lang1 ∈ languages → lang2 ∈ languages →
       vector_key id1 lang1 = vector_key id2 lang2 → id1 = id2 ∧ lang1 = lang2).
Proof.
  intros Hids. pose proof (expected_keys_NoDup svc data Hids) as Hnd.
  pose proof (stored_sublist_expected svc data) as Hsub.
  split; [|split; [|apply vector_key_inj]].
  - eapply sublist_NoDup; [exact Hnd|]. by apply fmap_sublist.
  - intros v Hv. apply (expected_keys svc data).
    apply list_elem_of_fmap. exists v. split; [done|].
    by apply (elem_of_sublist _ _ _ Hv Hsub).
Qed.

Lemma stored_keys_are_distinct_witness :
  NoDup (vec_id <$> stored (initialize_app (refusing (py "What is NAV?"))
                              sample_corpus []))
  ∧ (∀ v, v ∈ stored (initialize_app (refusing (py "What is NAV?")) sample_corpus []) →
       ∃ item lang, item ∈ sample_corpus ∧ lang ∈ languages
                    ∧ vec_id v = vector_key (item_id item) lang)
  ∧ (∀ id1 id2 lang1 lang2,
       lang1 ∈ languages → lang2 ∈ languages →
       vector_key id1 lang1 = vector_key id2 lang2 → id1 = id2 ∧ lang1 = lang2).
Proof.
  apply (stored_keys_are_distinct (refusing (py "What is NAV?")) sample_corpus).
  apply (bool_decide_unpack _). vm_compute. exact I.
Defined.


(** * From the loader to the match branch *)

Section Loaded.
Context (svc : Services).

Lemma entry_vectors_metadata item v :
  v ∈ entry_vectors svc item →
  ∃ lang, lang ∈ languages ∧ vec_metadata v = answers_metadata item lang.
Proof.
  unfold entry_vectors, variant_vector, languages.
  rewrite !elem_of_app.
  destruct (str_truthy (strip (english (item_question item))));
    destruct (str_truthy (strip (hinglish (item_question item))));
    destruct (str_truthy (strip (hindi (item_question item))));
    intros [H|[H|H]];
    try (by apply elem_of_nil in H);
    apply list_elem_of_singleton in H as ->; eexists; (split; [|reflexivity]);
    set_solver.
Qed.

Lemma stored_in_expected data v :
  v ∈ stored (initialize_app svc data []) → v ∈ expected_index svc data.
Proof.
  intros Hv. apply (elem_of_sublist _ _ _ Hv (stored_sublist_expected svc data)).
Qed.

Lemma stored_metadata data v :
  v ∈ stored (initialize_app svc data []) →
  ∃ item lang, item ∈ data ∧ lang ∈ languages
               ∧ vec_metadata v = answers_metadata item lang.
Proof.
  intros Hv. apply stored_in_expected in Hv. unfold expected_index in Hv.
  apply list_elem_of_In, in_flat_map in Hv as (item & Hi & Hv).
  apply list_elem_of_In in Hi, Hv.
  destruct (entry_vectors_metadata item v Hv) as (lang & Hl & Hm).
  by exists item, lang.
Qed.

Lemma answers_metadata_answer item lang :
  lang ∈ languages →
  known_language lang
  ∧ answers_metadata item lang !! py "language" = Some lang
  ∧ ∃ answer, answers_metadata item lang !! answer_key lang = Some answer
              ∧ answer ∈ [english (item_answer item); hinglish (item_answer item);
                          hindi (item_answer item)].
Proof.
  intros Hl. apply languages_cases in Hl as [->|[->| ->]].
  - split; [by left|]. split; [by vm_compute|].
    exists (english (item_answer item)). split; [by vm_compute|set_solver].
  - split; [right; by right|]. split; [by vm_compute|].
    exists (hinglish (item_answer item)). split; [by vm_compute|set_solver].
  - split; [right; by left|]. split; [by vm_compute|].
    exists (hindi (item_answer item)). split; [by vm_compute|set_solver].
Qed.

End Loaded.

(** X12. The match branch cannot fail on what the loader stored: when the
    nearest neighbour carries the metadata of a vector of the first load
    and its distance is within the bound, [rag_answer] returns, with score
    [1 - d], the answer that the metadata holds for the language of that
    vector, an answer of an item of the corpus; it raises no [KeyError] and
    does not fall through to the classifier. *)
Theorem match_on_loaded_vector_answers {U : Unicode} (loader svc : Services)
    (data : list CorpusEntry) (v : IndexedVector) (σ : list IndexedVector)
    (q : str) (t : float) (emb : Embedding) (results : QueryResult) (doc : str)
    (d : float) :
  v ∈ stored (initialize_app loader data []) →
  retrieves svc σ q emb results → top_neighbor results doc (vec_metadata v) d →
  (d <=? 1 - t)%float = true →
  ∃ item lang answer,
    item ∈ data ∧ lang ∈ languages
    ∧ vec_metadata v !! py "language" = Some lang
    ∧ vec_metadata v !! answer_key lang = Some answer
    ∧ answer ∈ [english (item_answer item); hinglish (item_answer item);
                hindi (item_answer item)]
    ∧ rag_answer svc q (Some t) σ
      = {| trace := threshold_prefix q emb doc d t ++ [Printed (MatchFound lang)];
           result := Returned (answer, (1 - d)%float);
           stored := σ |}.
Proof.
  intros Hv Hr Ht Hle.
  destruct (stored_metadata loader data v Hv) as (item & lang & Hi & Hl & Hm).
  destruct (answers_metadata_answer item lang Hl) as (Hk & Hlang & answer & Ha & Hin).
  rewrite <- Hm in Hlang, Ha.
  exists item, lang, answer. split_and!; try done.
  rewrite (rag_answer_threshold _ _ _ _ _ _ _ _ _ Hr Ht).
  rewrite (match_branch_known _ _ _ _ _ _ _ Hle Hlang Hk Ha).
  rewrite prepend_prepend. reflexivity.
Qed.

Lemma match_on_loaded_vector_answers_witness :
  ∃ item lang answer,
    item ∈ sample_corpus ∧ lang ∈ languages
    ∧ vec_metadata first_sample_vector !! py "language" = Some lang
    ∧ vec_metadata first_sample_vector !! answer_key lang = Some answer
    ∧ answer ∈ [english (item_answer item); hinglish (item_answer item);
                hindi (item_answer item)]
    ∧ rag_answer (U:=latin_tables)
        (scripted (one_neighbour (vec_metadata first_sample_vector) 0.1%float)
           (Returned (py "YES")) (Returned (py "generated")))
        (py "what is a sip") (Some 0.7%float) []
      = {| trace := threshold_prefix (py "what is a sip") sample_embedding
                      (py "What is SIP?") 0.1%float 0.7%float
                    ++ [Printed (MatchFound lang)];
           result := Returned (answer, (1 - 0.1)%float);
           stored := [] |}.
Proof.
  apply (match_on_loaded_vector_answers (U:=latin_tables)
           (scripted (sample_results 0.1%float (py "english"))
              (Returned (py "YES")) (Returned (py "generated")))
           (scripted (one_neighbour (vec_metadata first_sample_vector) 0.1%float)
              (Returned (py "YES")) (Returned (py "generated")))
           sample_corpus first_sample_vector [] (py "what is a sip") 0.7%float
           sample_embedding
           (one_neighbour (vec_metadata first_sample_vector) 0.1%float)
           (py "What is SIP?") 0.1%float).
  - vm_compute. left.
  - split; [by vm_compute|]. split; reflexivity.
  - by eexists _, _, _.
  - reflexivity.
Defined.


(** * What [rag_answer] returns *)

Lemma returns_ret {A : Type} (P : A → Prop) (a : A) : P a → returns P (ret a).
Proof. intros H σ a' [= <-]. exact H. Qed.

Lemma returns_raise {A : Type} (P : A → Prop) e : returns P (raise (A:=A) e).
Proof. intros σ a' H. discriminate H. Qed.

Lemma returns_bind {A B : Type} (Q : A → Prop) (P : B → Prop) (m : Py A)
    (k : A → Py B) :
  returns Q m → (∀ a, Q a → returns P (k a)) → returns P (m ≫= k).
Proof.
  intros Hm Hk σ b. unfold mbind, Py_bind, bind. specialize (Hm σ).
  destruct (m σ) as [t [a|e] σ']; simpl in *; [|done].
  apply Hk. by apply Hm.
Qed.

Lemma Returned_inj {A : Type} (a b : A) : Returned a = Returned b → a = b.
Proof. by intros [= ->]. Qed.

Lemma returns_any {A : Type} (m : Py A) : returns (λ _, True) m.
Proof. intros σ a _. exact I. Qed.

Section Returned.
Context {U : Unicode} (svc : Services).

Lemma match_branch_returns meta d bound :
  returns (λ o, o = None ∨ ∃ answer, o = Some (answer, (1 - d)%float))
    (match_branch meta d bound).
Proof.
  unfold match_branch. destruct (d <=? bound)%float; [|apply returns_ret; by left].
  eapply returns_bind; [apply returns_any|intros lang _].
  eapply returns_bind; [apply returns_any|intros _ _].
  repeat (destruct (str_eqb _ _);
          [eapply returns_bind; [apply returns_any|intros answer _];
           apply returns_ret; right; by exists answer|]).
  apply returns_ret. by left.
Qed.

Lemma gpt_fallback_returns q results d :
  returns (λ r, r = (domain_refusal, 0%float) ∨ r.2 = (1 - d)%float)
    (gpt_fallback svc q results d).
Proof.
  unfold gpt_fallback. cbv zeta.
  eapply returns_bind; [apply returns_any|intros _ _].
  eapply returns_bind; [apply returns_any|intros finance_check _].
  eapply returns_bind; [apply returns_any|intros _ _].
  destruct (negb _); [apply returns_ret; by left|].
  eapply returns_bind; [apply returns_any|intros _ _].
  eapply returns_bind; [apply returns_any|intros docs _].
  eapply returns_bind; [apply returns_any|intros contexts _].
  eapply returns_bind; [apply returns_any|intros response _].
  apply returns_ret. by right.
Qed.

Lemma after_threshold_returns q results meta d bound :
  returns (λ r, r = (domain_refusal, 0%float) ∨ r.2 = (1 - d)%float)
    (match_branch meta d bound ≫= after_match svc q results d).
Proof.
  eapply returns_bind; [apply match_branch_returns|].
  intros o [->|[answer ->]]; simpl.
  - apply gpt_fallback_returns.
  - apply returns_ret. by right.
Qed.

Lemma rag_answer_no_results σ q t emb results :
  retrieves svc σ q emb results → documents results !! 0 = Some [] →
  result (rag_answer svc q t σ) = Returned (no_similar_question, 0%float).
Proof.
  intros (Hg & He & Hq) Hd. unfold rag_answer. cbv zeta. rewrite Hg.
  rewrite (run_get_embedding _ _ _ _ _ He).
  rewrite (run_query _ _ _ _ _ _ Hq).
  rewrite (run_getindex _ _ _ _ _ Hd).
  rewrite bool_decide_false by (intros H; by apply H).
  reflexivity.
Qed.

(** The lists of a query result are too short for the loads of lines
    115-121. *)
Lemma rag_answer_index_error σ q t emb results doc docs :
  retrieves svc σ q emb results → documents results !! 0 = Some (doc :: docs) →
  (∀ meta d, ¬ top_neighbor results doc meta d) →
  result (rag_answer svc q t σ) = Raised IndexError.
Proof.
  intros (Hg & He & Hq) Hdo Hno. unfold rag_answer. cbv zeta. rewrite Hg.
  rewrite (run_get_embedding _ _ _ _ _ He).
  rewrite (run_query _ _ _ _ _ _ Hq).
  rewrite (run_getindex _ _ _ _ _ Hdo).
  rewrite bool_decide_true by done. cbv beta iota. unfold negb.
  rewrite !result_prepend.
  destruct (distances results !! 0) as [[|d dists]|] eqn:Hdi.
  - rewrite (run_getindex _ _ _ _ _ Hdi).
    by rewrite (run_getindex_none (@nil float) 0).
  - destruct (metadatas results !! 0) as [[|meta metas]|] eqn:Hme.
    + rewrite (run_getindex _ _ _ _ _ Hdi).
      rewrite (run_getindex (d :: dists) 0 d) by done.
      rewrite (run_getindex _ _ _ _ _ Hme).
      by rewrite (run_getindex_none (@nil Meta) 0).
    + exfalso. apply (Hno meta d). by exists docs, metas, dists.
    + rewrite (run_getindex _ _ _ _ _ Hdi).
      rewrite (run_getindex (d :: dists) 0 d) by done.
      by rewrite (run_getindex_none _ _ _ _ Hme).
  - by rewrite (run_getindex_none _ _ _ _ Hdi).
Qed.

Lemma rag_answer_no_documents σ q t emb results :
  retrieves svc σ q emb results → documents results !! 0 = None →
  result (rag_answer svc q t σ) = Raised IndexError.
Proof.
  intros (Hg & He & Hq) Hdo. unfold rag_answer. cbv zeta. rewrite Hg.
  rewrite (run_get_embedding _ _ _ _ _ He).
  rewrite (run_query _ _ _ _ _ _ Hq).
  rewrite !result_prepend.
  by rewrite (run_getindex_none _ _ _ _ Hdo).
Qed.

End Returned.

(** X13. Whatever the services answer, a pair returned by [rag_answer] is
    the folio refusal, the text for an empty retrieval or the domain refusal,
    each with score 0.0, or its score is [1 - d] for the distance [d] of the
    nearest neighbour retrieved for the question; the threshold has no part
    in the score. *)
Theorem returned_scores {U : Unicode} (svc : Services) (σ : list IndexedVector)
    (q : str) (t : option float) (answer : str) (s : float) :
  result (rag_answer svc q t σ) = Returned (answer, s) →
  (answer, s) = (folio_refusal, 0%float)
  ∨ (answer, s) = (no_similar_question, 0%float)
  ∨ (answer, s) = (domain_refusal, 0%float)
  ∨ ∃ emb results doc meta d,
      retrieves svc σ q emb results ∧ top_neighbor results doc meta d
      ∧ s = (1 - d)%float.
Proof.
  intros Hres.
  destruct (folio_check q (re_findall_digits q)) eqn:Hg.
  { rewrite (rag_answer_guard svc q t σ Hg) in Hres.
    apply Returned_inj in Hres. left. symmetry. exact Hres. }
  destruct (embeddings_create svc (py "text-embedding-3-small") q) as [emb|e] eqn:He.
  2: { rewrite (rag_answer_embedding_raised svc q t σ e Hg He) in Hres.
       discriminate Hres. }
  destruct (collection_query svc σ [emb] 2) as [results|e] eqn:Hq.
  2: { rewrite (rag_answer_query_raised svc q t σ emb e Hg He Hq) in Hres.
       discriminate Hres. }
  assert (retrieves svc σ q emb results) as Hr
    by (split; [exact Hg|split; [exact He|exact Hq]]).
  destruct (documents results !! 0) as [[|doc docs]|] eqn:Hdo.
  - rewrite (rag_answer_no_results svc σ q t emb results Hr Hdo) in Hres.
    apply Returned_inj in Hres. right. left. symmetry. exact Hres.
  - assert ((∃ meta d, top_neighbor results doc meta d)
            ∨ ∀ meta d, ¬ top_neighbor results doc meta d) as [(meta & d & Ht)|Hno].
    { destruct (distances results !! 0) as [[|d dists]|] eqn:Hdi;
        destruct (metadatas results !! 0) as [[|meta metas]|] eqn:Hme;
        try (right; intros meta' d' (? & ? & ? & ? & ? & ?); congruence).
      left. exists meta, d. exists docs, metas, dists.
      split; [exact Hdo|]. split; [exact Hme|exact Hdi]. }
    + destruct t as [t|].
      * rewrite (rag_answer_threshold svc σ q t emb results doc meta d Hr Ht),
          result_prepend in Hres.
        pose proof (after_threshold_returns svc q results meta d (1 - t)%float
                      σ (answer, s) Hres) as [E|Hs].
        -- right. right. left. exact E.
        -- right. right. right. exists emb, results, doc, meta, d.
           split; [exact Hr|]. split; [exact Ht|exact Hs].
      * rewrite (rag_answer_null_threshold svc σ q emb results doc meta d Hr Ht)
          in Hres. discriminate Hres.
    + rewrite (rag_answer_index_error svc σ q t emb results doc docs Hr Hdo Hno)
        in Hres. discriminate Hres.
  - rewrite (rag_answer_no_documents svc σ q t emb results Hr Hdo) in Hres.
    discriminate Hres.
Qed.

Lemma returned_scores_witness :
  (py "generated", (1 - 0.9)%float) = (folio_refusal, 0%float)
  ∨ (py "generated", (1 - 0.9)%float) = (no_similar_question, 0%float)
  ∨ (py "generated", (1 - 0.9)%float) = (domain_refusal, 0%float)
  ∨ ∃ emb results doc meta d,
      retrieves (U:=latin_tables)
        (scripted (sample_results 0.9%float (py "english"))
           (Returned (py "YES")) (Returned (py "generated")))
        [] (py "How do I start investing?") emb results
      ∧ top_neighbor results doc meta d
      ∧ (1 - 0.9)%float = (1 - d)%float.
Proof.
  apply (returned_scores (U:=latin_tables)
           (scripted (sample_results 0.9%float (py "english"))
              (Returned (py "YES")) (Returned (py "generated")))
           [] (py "How do I start investing?") (Some 0.7%float)).
  by vm_compute.
Defined.


(** * The [/status] endpoint *)

Lemma health_response_lacks_question (n : nat) :
  model_new HealthResponse_fields
    (list_to_map [(py "status", VStr (py "working"));
                  (py "message", VStr (py "API is running smoothly"));
                  (py "database_count", VInt (Z.of_nat n))])
  = ([py "question"],
     [(py "status", VStr (py "working")); (py "database_count", VInt (Z.of_nat n))]).
Proof.
  unfold model_new, HealthResponse_fields.
  assert (∀ (m : gmap str Value) k k' v, k ≠ k' → <[k:=v]> m !! k' = m !! k') as Hne.
  { intros. by apply lookup_insert_ne. }
  cbn [list_to_map foldr uncurry fst snd].
  rewrite (Hne _ (py "status") (py "database_count")) by (by vm_compute).
  rewrite (Hne _ (py "message") (py "database_count")) by (by vm_compute).
  rewrite lookup_insert_eq.
  rewrite (Hne _ (py "status") (py "question")) by (by vm_compute).
  rewrite (Hne _ (py "message") (py "question")) by (by vm_compute).
  rewrite (Hne _ (py "database_count") (py "question")) by (by vm_compute).
  rewrite lookup_empty.
  rewrite lookup_insert_eq.
  reflexivity.
Qed.

(** X14. The [/status] endpoint never succeeds: [HealthResponse] requires a
    field [question] that [health_check] does not pass (it passes [message],
    which the model ignores), so the construction of the response fails
    validation whatever the count of the index, and the handler turns that,
    like a failure of the count itself, into status 500. *)
Theorem status_endpoint_always_fails (collection : option (Result nat)) :
  (∃ cause, health_check collection = StatusRaised 500 cause)
  ∧ (∀ n, collection = Some (Returned n) →
       health_check collection = StatusRaised 500 (ValidationError [py "question"]))
  ∧ (collection = None →
       health_check collection = StatusRaised 500 (ValidationError [py "question"]))
  ∧ (∀ e, collection = Some (Raised e) →
       health_check collection = StatusRaised 500 (CountError e)).
Proof.
  assert (∀ n, health_check (Some (Returned n))
               = StatusRaised 500 (ValidationError [py "question"])) as Hn.
  { intros n. unfold health_check. by rewrite health_response_lacks_question. }
  assert (health_check None = StatusRaised 500 (ValidationError [py "question"])) as H0.
  { unfold health_check. by rewrite health_response_lacks_question. }
  split.
  - destruct collection as [[n|e]|]; eauto.
  - split; [by intros n ->|]. split; [by intros ->|by intros e ->].
Qed.


(** * The folio guard, in terms of blocks of digits *)

Section Blocks.
Context {U : Unicode}.

(** Every string ends in a block of digits (empty, maybe) that no digit
    precedes. *)
Lemma digit_suffix (b : str) :
  ∃ b1 d1, b = b1 ++ d1 ∧ all_decimal d1
           ∧ ∀ c, last b1 = Some c → isdecimal c = false.
Proof.
  induction b as [|c b IH] using rev_ind.
  - exists [], []. split; [done|]. split; [constructor|done].
  - destruct (isdecimal c) eqn:Hc.
    + destruct IH as (b1 & d1 & -> & Hd & Hl). exists b1, (d1 ++ [c]).
      split; [by rewrite app_assoc|]. split; [|done].
      apply Forall_app. split; [done|]. by constructor.
    + exists (b ++ [c]), []. split; [by rewrite app_nil_r|].
      split; [constructor|]. intros c'. rewrite last_snoc. by intros [= <-].
Qed.

(** A block of digits of a string lies within a maximal digit run. *)
Lemma block_in_run (q r : str) :
  infix_of r q → all_decimal r → r ≠ [] →
  ∃ r', maximal_digit_run q r' ∧ length r ≤ length r'.
Proof.
  intros (b & a & ->) Hr Hne.
  destruct (digit_suffix b) as (b1 & d1 & -> & Hd1 & Hl).
  exists (d1 ++ r ++ take_digits a). split.
  - exists b1, (drop_digits a). split.
    + rewrite <- (take_drop_digits a) at 1. by rewrite <- !app_assoc.
    + split; [by destruct d1, r|]. split.
      * apply Forall_app. split; [done|]. apply Forall_app. split; [done|].
        apply take_digits_all.
      * split; [done|]. apply drop_digits_head.
  - rewrite !length_app. lia.
Qed.

Lemma long_run_iff_eight_digits (q : str) :
  has_long_digit_run q ↔ ∃ r, infix_of r q ∧ all_decimal r ∧ length r = 8.
Proof.
  split.
  - intros (r & (b & a & -> & _ & Hd & _) & Hlen).
    exists (take 8 r). split; [|split].
    + exists b, (drop 8 r ++ a).
      rewrite <- (take_drop 8 r) at 1. by rewrite <- !app_assoc.
    + by apply Forall_take.
    + rewrite length_take. lia.
  - intros (r & Hin & Hd & Hlen).
    destruct (block_in_run q r Hin Hd) as (r' & Hrun & Hle).
    { intros ->. simpl in Hlen. lia. }
    exists r'. split; [done|]. lia.
Qed.

Lemma rag_answer_guard_iff (svc : Services) q t σ :
  rag_answer svc q t σ = guard_refusal σ ↔ folio_check q (re_findall_digits q) = true.
Proof.
  split; [|apply rag_answer_guard].
  intros H. destruct (folio_check q (re_findall_digits q)) eqn:Hg; [done|].
  pose proof (rag_answer_embeds svc q t σ Hg) as He. rewrite H in He. discriminate He.
Qed.

End Blocks.

(** X15. The folio guard refuses a question exactly when the question names
    a folio keyword, whatever the case of its letters, and holds eight
    decimal digits in a row somewhere: longer numbers, and numbers glued to
    other text, are caught the same way, and no run of seven is. *)
Theorem guard_fires_on_eight_digits {U : Unicode} (svc : Services) (q : str)
    (t : option float) (σ : list IndexedVector) :
  rag_answer svc q t σ = guard_refusal σ
  ↔ mentions_folio_keyword q
    ∧ ∃ r, infix_of r q ∧ all_decimal r ∧ length r = 8.
Proof.
  rewrite rag_answer_guard_iff, guard_spec, long_run_iff_eight_digits. reflexivity.
Qed.


(** X16. Two of the four folio keywords do all the work: as the lower-case
    form of "folio number" holds that of "folio", and likewise for the two
    Hindi keywords, a question names a keyword exactly when its lower-case
    form holds the lower-case form of "folio" or of the Hindi word. *)
Theorem two_keywords_suffice {U : Unicode} (q : str) :
  infix_of (lower (py "folio")) (lower (py "folio number")) →
  infix_of (lower (py "फोलियो")) (lower (py "फोलियो नंबर")) →
  mentions_folio q = true
  ↔ infix_of (lower (py "folio")) (lower q)
    ∨ infix_of (lower (py "फोलियो")) (lower q).
Proof.
  intros He Hh. rewrite mentions_folio_spec. unfold mentions_folio_keyword.
  split.
  - intros (keyword & Hin & Hq).
    repeat (apply elem_of_cons in Hin as [->|Hin]).
    + by left.
    + left. by apply (infix_of_trans _ _ _ He).
    + by right.
    + right. by apply (infix_of_trans _ _ _ Hh).
    + by apply elem_of_nil in Hin.
  - intros [Hq|Hq].
    + exists (py "folio"). split; [left|done].
    + exists (py "फोलियो"). split; [do 2 right; left|done].
Qed.

Lemma two_keywords_suffice_witness :
  mentions_folio (U:=latin_tables) (py "My FOLIO Number is 123456789") = true
  ↔ infix_of (lower (Unicode:=latin_tables) (py "folio"))
      (lower (Unicode:=latin_tables) (py "My FOLIO Number is 123456789"))
    ∨ infix_of (lower (Unicode:=latin_tables) (py "फोलियो"))
        (lower (Unicode:=latin_tables) (py "My FOLIO Number is 123456789")).
Proof.
  apply (two_keywords_suffice (U:=latin_tables)).
  - exists [], (py " number"). vm_compute. reflexivity.
  - exists [], (py " नंबर"). vm_compute. reflexivity.
Defined.

(** X17. A load that finished is not repeated: when a run of the loader
    returns, a second run on the index it left makes no call to
    [collection.add] and leaves the index as it is, whether the first run
    found the index populated, filled it, or had nothing to store. *)
Theorem second_load_adds_nothing (svc : Services) (data : list CorpusEntry)
    (σ : list IndexedVector) :
  result (initialize_app svc data σ) = Returned tt →
  add_calls (trace (initialize_app svc data (stored (initialize_app svc data σ)))) = []
  ∧ stored (initialize_app svc data (stored (initialize_app svc data σ)))
    = stored (initialize_app svc data σ).
Proof.
  intros Hres.
  assert (∀ τ, τ ≠ [] →
            add_calls (trace (initialize_app svc data τ)) = []
            ∧ stored (initialize_app svc data τ) = τ) as Hpop.
  { intros τ Hτ. by rewrite (initialize_app_populated svc data τ Hτ). }
  destruct σ as [|v σ].
  - destruct (initialize_app_empty svc data) as (added & Hs & Ha & _ & Hr).
    rewrite Hres in Hr. destruct Hr as [-> _].
    destruct (expected_index svc data) as [|w rest] eqn:He.
    + rewrite Hs. cbn [keep_first]. by rewrite Ha, Hs.
    + apply Hpop. rewrite Hs. apply keep_first_head.
  - rewrite !(initialize_app_populated svc data (v :: σ)) by done. done.
Qed.

Lemma second_load_adds_nothing_witness :
  add_calls (trace (initialize_app
    (scripted (sample_results 0.1%float (py "english"))
       (Returned (py "YES")) (Returned (py "generated")))
    sample_corpus
    (stored (initialize_app
       (scripted (sample_results 0.1%float (py "english"))
          (Returned (py "YES")) (Returned (py "generated")))
       sample_corpus [])))) = []
  ∧ stored (initialize_app
      (scripted (sample_results 0.1%float (py "english"))
         (Returned (py "YES")) (Returned (py "generated")))
      sample_corpus
      (stored (initialize_app
         (scripted (sample_results 0.1%float (py "english"))
            (Returned (py "YES")) (Returned (py "generated")))
         sample_corpus [])))
    = stored (initialize_app
        (scripted (sample_results 0.1%float (py "english"))
           (Returned (py "YES")) (Returned (py "generated")))
        sample_corpus []).
Proof.
  apply (second_load_adds_nothing
           (scripted (sample_results 0.1%float (py "english"))
              (Returned (py "YES")) (Returned (py "generated")))
           sample_corpus []).
  by vm_compute.
Defined.
